(** * Dive: contextual message resolution, embedded from [src/main.ts]

    The development follows the TypeScript source function by function.

    - [Js], [Regex], [JsDate]: the strings, regular expressions and dates
      of JavaScript, as far as the source uses them.
    - [Dive]: the plugin class, with the temporal resolver
      ([check_time_related_query], [parse_date_string],
      [get_date_for_day_of_week]) and the note locator
      ([find_daily_note]).
    - [DiveView]: the view class, with the mention extractor and stripper
      ([extractFileReferences], [removeFileReferences]), the keyword
      summary ([analyze_conversation_context]), the message assembler
      ([prepareMessage]), the send and save path ([sendToPerplexity],
      [save_chat_history]), the input field ([insertFileReference],
      [setInputText]), the suggestion list ([navigateSuggestion],
      [selectSuggestion]) and the title of a note made from a reply.
    - [DataFile]: the data file of the plugin as the object it is, with
      the settings ([loadSettings], [saveSettings], [clear_saved_data])
      and the conversation ([save_chat_history], [load_chat_history],
      [reset_chat]).
    - [Scan]: the mention patterns read as scanners, on which the
      properties of the extractor and of the stripper are proved.
    - [Statements]: the vocabulary of the theorems.
    - the remaining modules: the properties, one module per component.

    Character model.  A JavaScript string is a sequence of UTF-16 code
    units.  Texts are modelled as Rocq strings whose characters are read as
    the code units U+0000 .. U+00FF; on that range the classes [\s], [\w],
    [\d], [trim] and [toLowerCase] below are the ones of ECMAScript.

    Date model.  A JavaScript [Date] is observed by the source only through
    its local calendar day ([getFullYear], [getMonth], [getDate], [getDay],
    [setDate]) and through [isNaN(getTime())].  A valid date is modelled by
    its day number (days since 1970-01-01) in local time, the local time
    zone being UTC, so that the UTC midnight produced by parsing an ISO
    date is the same local day. *)

From Stdlib Require Import ZArith Lia List Bool Ascii DecimalString Sorted
  Permutation.
From stdpp Require Import gmap strings.

Local Open Scope Z_scope.

(** ** JavaScript strings *)

Module Js.

Definition code (c : ascii) : N := N_of_ascii c.

Definition in_range (lo hi : N) (c : ascii) : bool :=
  ((lo <=? code c) && (code c <=? hi))%N.

(** [\d] *)
Definition is_digit (c : ascii) : bool := in_range 48 57 c.

(** [\w] = [A-Za-z0-9_] *)
Definition is_word (c : ascii) : bool :=
  is_digit c || in_range 65 90 c || in_range 97 122 c || (code c =? 95)%N.

(** [\s]: TAB, LF, VT, FF, CR, SP, NBSP (WhiteSpace and LineTerminator
    below U+0100). *)
Definition is_space (c : ascii) : bool :=
  in_range 9 13 c || (code c =? 32)%N || (code c =? 160)%N.

(** Line terminators below U+0100, for [$] under the [m] flag. *)
Definition is_line_terminator (c : ascii) : bool :=
  (code c =? 10)%N || (code c =? 13)%N.

(** [toLowerCase] on one code unit: A-Z, and U+00C0 .. U+00DE except the
    multiplication sign U+00D7. *)
Definition lower_char (c : ascii) : ascii :=
  if in_range 65 90 c
     || (in_range 192 222 c && negb (code c =? 215)%N)
  then ascii_of_N (code c + 32) else c.

(** Case-insensitive comparison of an input character with an ASCII
    pattern character under the [i] flag: only the two ASCII cases of a
    letter are identified. *)
Definition eq_ci (p c : ascii) : bool :=
  if in_range 0 127 c then Ascii.eqb (lower_char p) (lower_char c)
  else Ascii.eqb p c.

Fixpoint smap (f : ascii -> ascii) (s : string) : string :=
  match s with
  | EmptyString => EmptyString
  | String c s' => String (f c) (smap f s')
  end.

Fixpoint sfilter (p : ascii -> bool) (s : string) : string :=
  match s with
  | EmptyString => EmptyString
  | String c s' => if p c then String c (sfilter p s') else sfilter p s'
  end.

Fixpoint sforall (p : ascii -> bool) (s : string) : bool :=
  match s with
  | EmptyString => true
  | String c s' => p c && sforall p s'
  end.

Definition toLowerCase (s : string) : string := smap lower_char s.

Definition is_empty (s : string) : bool :=
  match s with EmptyString => true | _ => false end.

(** [s.startsWith(p)], returning what follows the prefix. *)
Fixpoint strip_prefix (p s : string) : option string :=
  match p with
  | EmptyString => Some s
  | String a p' =>
      match s with
      | EmptyString => None
      | String b s' => if Ascii.eqb a b then strip_prefix p' s' else None
      end
  end.

(** [s.includes(sub)] *)
Fixpoint includes (s sub : string) : bool :=
  match strip_prefix sub s with
  | Some _ => true
  | None =>
      match s with
      | EmptyString => false
      | String _ s' => includes s' sub
      end
  end.

(** Longest prefix whose characters satisfy [p], and the rest. *)
Fixpoint span (p : ascii -> bool) (s : string) : string * string :=
  match s with
  | EmptyString => (EmptyString, EmptyString)
  | String c s' =>
      if p c then let '(a, b) := span p s' in (String c a, b)
      else (EmptyString, s)
  end.

Fixpoint trimStart (s : string) : string :=
  match s with
  | EmptyString => EmptyString
  | String c s' => if is_space c then trimStart s' else s
  end.

Fixpoint trimEnd (s : string) : string :=
  match s with
  | EmptyString => EmptyString
  | String c s' =>
      let r := trimEnd s' in
      if is_space c && is_empty r then EmptyString else String c r
  end.

(** [s.trim()] *)
Definition trim (s : string) : string := trimEnd (trimStart s).

(** [s.split(/\s+/)]: the head of the result is the piece being read;
    [in_sep] tells that the previous character was part of a separator. *)
Fixpoint split_ws_from (in_sep : bool) (s : string) : list string :=
  match s with
  | EmptyString => [EmptyString]
  | String c s' =>
      if is_space c then
        if in_sep then split_ws_from true s'
        else EmptyString :: split_ws_from true s'
      else
        match split_ws_from false s' with
        | cur :: rest => String c cur :: rest
        | [] => [String c EmptyString]
        end
  end.

Definition split_ws (s : string) : list string := split_ws_from false s.

(** A text with every run of white space turned into one space: what
    [s.replace(/\s+/g, ' ')] returns. *)
Fixpoint collapse_ws_from (in_ws : bool) (s : string) : string :=
  match s with
  | EmptyString => EmptyString
  | String c s' =>
      if is_space c then
        if in_ws then collapse_ws_from true s'
        else String " " (collapse_ws_from true s')
      else String c (collapse_ws_from false s')
  end.

Definition collapse_ws (s : string) : string := collapse_ws_from false s.

(** [arr.join(sep)] *)
Fixpoint join (sep : string) (l : list string) : string :=
  match l with
  | [] => ""
  | [x] => x
  | x :: rest => x +:+ sep +:+ join sep rest
  end.

(** [String(n)] for an integer [n]. *)
Definition of_Z (n : Z) : string := NilZero.string_of_int (Z.to_int n).

(** [s.padStart(2, '0')] *)
Definition padStart2 (s : string) : string :=
  match s with
  | EmptyString => "00"
  | String c EmptyString => String "0" s
  | _ => s
  end.

(** [parseInt(s)] on a string of decimal digits. *)
Fixpoint parse_digits (acc : Z) (s : string) : Z :=
  match s with
  | EmptyString => acc
  | String c s' => parse_digits (10 * acc + (Z.of_N (code c) - 48)) s'
  end.

Definition parseInt (s : string) : Z := parse_digits 0 s.

(** [s.split(sep)] for a one-character separator. *)
Fixpoint split_char (sep : ascii) (s : string) : list string :=
  match s with
  | EmptyString => [EmptyString]
  | String c s' =>
      if Ascii.eqb c sep then EmptyString :: split_char sep s'
      else
        match split_char sep s' with
        | cur :: rest => String c cur :: rest
        | [] => [String c EmptyString]
        end
  end.

(** [s.startsWith(p)] *)
Definition startsWith (s p : string) : bool :=
  match strip_prefix p s with Some _ => true | None => false end.

(** [s.lastIndexOf(c)] for a character [c]: -1 when [c] does not occur. *)
Fixpoint lastIndexOf (c : ascii) (s : string) : Z :=
  match s with
  | EmptyString => -1
  | String a s' =>
      let i := lastIndexOf c s' in
      if 0 <=? i then i + 1 else if Ascii.eqb a c then 0 else -1
  end.

Fixpoint first_chars (n : nat) (s : string) : string :=
  match n, s with
  | S n', String c s' => String c (first_chars n' s')
  | _, _ => EmptyString
  end.

Fixpoint skip_chars (n : nat) (s : string) : string :=
  match n, s with
  | S n', String _ s' => skip_chars n' s'
  | _, _ => s
  end.

(** [s.substring(from, to)]: an index below 0 counts as 0, an index
    beyond the end as the length, and the smaller index comes first. *)
Definition substring (s : string) (from to : Z) : string :=
  let a := Z.to_nat (Z.min from to) in
  let b := Z.to_nat (Z.max from to) in
  first_chars (b - a) (skip_chars a s).

(** [s.substring(from)] *)
Definition substring_from (s : string) (from : Z) : string :=
  skip_chars (Z.to_nat from) s.

(** [s.split(sep)] for a non-empty separator: the head of the result is
    the piece being read; [skip] counts the characters of the separator
    still to pass. *)
Fixpoint split (sep : string) (skip : nat) (s : string) : list string :=
  match s with
  | EmptyString => [EmptyString]
  | String c s' =>
      match skip with
      | S k => split sep k s'
      | O =>
          match strip_prefix sep s with
          | Some _ => EmptyString :: split sep (Nat.pred (String.length sep)) s'
          | None =>
              match split sep O s' with
              | cur :: rest => String c cur :: rest
              | [] => [String c EmptyString]
              end
          end
      end
  end.

End Js.

(** ** Regular expressions

    A backtracking matcher in continuation-passing style, after the
    matcher semantics of ECMAScript: alternatives are tried left to right,
    quantifiers are greedy, and the first success is the result.  A
    position records the character before it (for [\b] and [^]) and the
    rest of the input.  A capture made inside a quantified group stays
    until the group captures again; no pattern of the source repeats a
    capturing group more than once. *)

Module Regex.

Inductive regex : Type :=
| Eps
| Chr (p : ascii -> bool)
| Seq (a b : regex)
| Alt (a b : regex)
| Rep (lo hi : nat) (a : regex)        (* a{lo,hi}, greedy *)
| Many (lo : nat) (p : ascii -> bool)  (* [p]{lo,}, greedy *)
| Grp (i : nat) (a : regex)            (* capture group number i *)
| Bos                                  (* ^ *)
| Eos                                  (* $ *)
| Eol                                  (* $ under the m flag *)
| Bow                                  (* \b *)
| Look (a : regex).                    (* (?=a) *)

Record pos : Type := Pos { prev : option ascii; rest : string }.

Definition caps : Type := list (nat * string).

Definition cont : Type := pos -> caps -> option (pos * caps).

Fixpoint take (n : nat) (s : string) : string :=
  match n, s with
  | S n', String c s' => String c (take n' s')
  | _, _ => EmptyString
  end.

(** The text between two positions of the same input. *)
Definition consumed (from to : string) : string :=
  take (String.length from - String.length to) from.

Definition word_at (c : option ascii) : bool :=
  match c with Some a => Js.is_word a | None => false end.

Definition next_char (s : string) : option ascii :=
  match s with String c _ => Some c | EmptyString => None end.

(** A greedy run of at least [lo] characters of the class [p]: the
    longest run is tried first, then the shorter ones; [n] counts the
    characters taken so far. *)
Fixpoint many_match (lo : nat) (p : ascii -> bool) (k : cont) (cs : caps)
    (s : string) (pv : option ascii) (n : nat) : option (pos * caps) :=
  let stop := if Nat.leb lo n then k (Pos pv s) cs else None in
  match s with
  | String c s' =>
      if p c then
        match many_match lo p k cs s' (Some c) (S n) with
        | Some res => Some res
        | None => stop
        end
      else stop
  | EmptyString => stop
  end.

Definition accept : cont := fun y cs => Some (y, cs).

Fixpoint rmatch (r : regex) (x : pos) (cs : caps) (k : cont)
  {struct r} : option (pos * caps) :=
  match r with
  | Eps => k x cs
  | Chr p =>
      match rest x with
      | String c s' => if p c then k (Pos (Some c) s') cs else None
      | EmptyString => None
      end
  | Seq a b => rmatch a x cs (fun y cs' => rmatch b y cs' k)
  | Alt a b =>
      match rmatch a x cs k with
      | Some res => Some res
      | None => rmatch b x cs k
      end
  | Rep lo hi a =>
      (fix rep (n lo : nat) (x : pos) (cs : caps) {struct n} :=
         match n with
         | O => k x cs
         | S n' =>
             let d : cont := fun y cs' =>
               if Nat.eqb lo 0
                  && Nat.eqb (String.length (rest y)) (String.length (rest x))
               then None
               else rep n' (Nat.pred lo) y cs' in
             if Nat.eqb lo 0 then
               match rmatch a x cs d with
               | Some res => Some res
               | None => k x cs
               end
             else rmatch a x cs d
         end) hi lo x cs
  | Many lo p => many_match lo p k cs (rest x) (prev x) O
  | Grp i a =>
      rmatch a x cs
        (fun y cs' => k y ((i, consumed (rest x) (rest y)) :: cs'))
  | Bos => match prev x with None => k x cs | Some _ => None end
  | Eos => match rest x with EmptyString => k x cs | _ => None end
  | Eol =>
      match rest x with
      | EmptyString => k x cs
      | String c _ => if Js.is_line_terminator c then k x cs else None
      end
  | Bow =>
      if xorb (word_at (prev x)) (word_at (next_char (rest x)))
      then k x cs else None
  | Look a =>
      match rmatch a x cs accept with
      | Some (_, cs') => k x cs'
      | None => None
      end
  end.

(** The result of [RegExp.prototype.exec] for a non-global pattern. *)
Record match_result : Type :=
  Match { m_index : nat; m_text : string; m_caps : caps }.

(** The most recent binding of group [i]; [None] is [undefined]. *)
Fixpoint capture (i : nat) (cs : caps) : option string :=
  match cs with
  | [] => None
  | (j, s) :: cs' => if Nat.eqb i j then Some s else capture i cs'
  end.

Definition group (i : nat) (m : match_result) : option string :=
  capture i (m_caps m).

Fixpoint search (r : regex) (pv : option ascii) (s : string) (idx : nat)
  : option match_result :=
  match rmatch r (Pos pv s) [] accept with
  | Some (y, cs) => Some (Match idx (consumed s (rest y)) cs)
  | None =>
      match s with
      | String c s' => search r (Some c) s' (S idx)
      | EmptyString => None
      end
  end.

(** [s.match(r)] and [r.exec(s)] for a pattern without the [g] flag. *)
Definition exec (r : regex) (s : string) : option match_result :=
  search r None s O.

(** [r.test(s)] *)
Definition test (r : regex) (s : string) : bool :=
  match exec r s with Some _ => true | None => false end.

(** The successive matches of a pattern with the [g] flag, as a loop
    [while ((match = r.exec(s)) !== null)] sees them: the matched text
    and the captures of each.  After a match the search resumes behind
    it; [skip] counts the characters of the match still to pass.  (The
    patterns used with this loop match no empty text.) *)
Fixpoint exec_all (r : regex) (skip : nat) (pv : option ascii) (s : string)
  : list (string * caps) :=
  match s with
  | EmptyString => []
  | String c s' =>
      match skip with
      | S n => exec_all r n (Some c) s'
      | O =>
          match rmatch r (Pos pv s) [] accept with
          | Some (y, cs) =>
              let m := consumed s (rest y) in
              (m, cs) :: exec_all r (Nat.pred (String.length m)) (Some c) s'
          | None => exec_all r O (Some c) s'
          end
      end
  end.

(** The first capture group of each match. *)
Definition first_groups (l : list (string * caps)) : list string :=
  map (fun m => match capture 1 (snd m) with
                | Some g => g
                | None => EmptyString
                end) l.

(** [s.replace(r, repl)] for a pattern with the [g] flag that matches no
    empty text, [repl] being free of [$]. *)
Fixpoint replace_all (r : regex) (repl : string) (skip : nat)
    (pv : option ascii) (s : string) : string :=
  match s with
  | EmptyString => EmptyString
  | String c s' =>
      match skip with
      | S n => replace_all r repl n (Some c) s'
      | O =>
          match rmatch r (Pos pv s) [] accept with
          | Some (y, _) =>
              repl +:+ replace_all r repl
                         (Nat.pred (String.length (consumed s (rest y))))
                         (Some c) s'
          | None => String c (replace_all r repl O (Some c) s')
          end
      end
  end.

(** Pattern builders. *)

(** A literal under the [i] flag. *)
Fixpoint lit (s : string) : regex :=
  match s with
  | EmptyString => Eps
  | String c EmptyString => Chr (Js.eq_ci c)
  | String c s' => Seq (Chr (Js.eq_ci c)) (lit s')
  end.

(** A case-sensitive literal. *)
Fixpoint lit_cs (s : string) : regex :=
  match s with
  | EmptyString => Eps
  | String c EmptyString => Chr (Ascii.eqb c)
  | String c s' => Seq (Chr (Ascii.eqb c)) (lit_cs s')
  end.

Fixpoint seqs (l : list regex) : regex :=
  match l with
  | [] => Eps
  | [a] => a
  | a :: l' => Seq a (seqs l')
  end.

Fixpoint alts (l : list regex) : regex :=
  match l with
  | [] => Eps
  | [a] => a
  | a :: l' => Alt a (alts l')
  end.

Definition opt (a : regex) : regex := Rep 0 1 a.
Definition digits (lo hi : nat) : regex := Rep lo hi (Chr Js.is_digit).
Definition ws1 : regex := Many 1 Js.is_space.   (* \s+ *)
Definition ws0 : regex := Many 0 Js.is_space.   (* \s* *)
Definition words (l : list string) : regex := alts (map lit l).

End Regex.

(** ** Dates *)

Module JsDate.

(** Day number of the civil date [y]-[m]-[d] (proleptic Gregorian
    calendar, [m] from 1 to 12), day 0 being 1970-01-01. *)
Definition days_from_civil (y m d : Z) : Z :=
  let y' := if m <=? 2 then y - 1 else y in
  let era := y' / 400 in
  let yoe := y' - era * 400 in
  let mp := if 2 <? m then m - 3 else m + 9 in
  let doy := (153 * mp + 2) / 5 + d - 1 in
  let doe := yoe * 365 + yoe / 4 - yoe / 100 + doy in
  era * 146097 + doe - 719468.

(** Year, month (1 to 12) and day of the month of a day number. *)
Definition civil_from_days (n : Z) : Z * Z * Z :=
  let z := n + 719468 in
  let era := z / 146097 in
  let doe := z - era * 146097 in
  let yoe := (doe - doe / 1460 + doe / 36524 - doe / 146096) / 365 in
  let doy := doe - (365 * yoe + yoe / 4 - yoe / 100) in
  let mp := (5 * doy + 2) / 153 in
  let d := doy - (153 * mp + 2) / 5 + 1 in
  let m := if mp <? 10 then mp + 3 else mp - 9 in
  let y := yoe + era * 400 in
  (if m <=? 2 then y + 1 else y, m, d).

Definition getFullYear (t : Z) : Z := fst (fst (civil_from_days t)).
(** [getMonth] counts from 0. *)
Definition getMonth (t : Z) : Z := snd (fst (civil_from_days t)) - 1.
Definition getDate (t : Z) : Z := snd (civil_from_days t).
(** [getDay]: Sunday is 0; 1970-01-01 was a Thursday. *)
Definition getDay (t : Z) : Z := (t + 4) mod 7.

(** [MakeDay(year, month, date)] with [month] counted from 0: months
    outside 0..11 carry into the year, days outside the month carry into
    the neighbouring months. *)
Definition MakeDay (year month date : Z) : Z :=
  let ym := year + month / 12 in
  let mn := month mod 12 in
  days_from_civil ym (mn + 1) 1 + date - 1.

(** [new Date(year, monthIndex, day)]: a year from 0 to 99 means
    1900 + year.  The result is always a valid date. *)
Definition new_Date (year monthIndex day : Z) : Z :=
  let yr := if (0 <=? year) && (year <=? 99) then 1900 + year else year in
  MakeDay yr monthIndex day.

(** [t.setDate(v)] *)
Definition setDate (t v : Z) : Z := MakeDay (getFullYear t) (getMonth t) v.

(** [new Date(s)] for [s] of the shape [dddd-dd-dd] (date-only ISO form,
    read as UTC).  The month must be 1..12 and the day 1..31, as V8, the
    engine of the host application, checks them; a day beyond the end of
    the month carries over.  [None] is the Invalid Date. *)
Definition parse_iso (s : string) : option Z :=
  match Js.split_char "-" s with
  | [y; m; d] =>
      let mi := Js.parseInt m in
      let di := Js.parseInt d in
      if (1 <=? mi) && (mi <=? 12) && (1 <=? di) && (di <=? 31)
      then Some (MakeDay (Js.parseInt y) (mi - 1) di)
      else None
  | _ => None
  end.

End JsDate.

(** ** The vault *)

(** A markdown file of the vault.  [content] is what [vault.read] returns;
    [None] stands for a read that throws. *)
Record TFile : Type :=
  { basename : string; path : string; content : option string }.

(** The [{ name, content }] objects handed to the message assembler. *)
Record note : Type := { name : string; note_content : string }.

(** ** The plugin: temporal resolver and note locator *)

Module Dive.

Import Regex.

(** [what\s+(?:did|happened|occurred|took place)\s+] *)
Definition what_happened : list regex :=
  [lit "what"; ws1; words ["did"; "happened"; "occurred"; "took place"]; ws1].

Definition yesterday_pattern : regex :=
  alts
    [ seqs (what_happened ++ [lit "yesterday"]);
      seqs [lit "yesterday"; opt (Chr (Ascii.eqb "'")); lit "s"; ws1;
            words ["events"; "activities"; "notes"; "happenings"]];
      seqs [lit "tell"; ws1; lit "me"; ws1; lit "about"; ws1; lit "yesterday"];
      seqs [lit "what"; ws1; words ["was"; "did"]; ws1; words ["i"; "I"]; ws1;
            words ["doing"; "working on"; "do"]; ws1; lit "yesterday"] ].

Definition today_pattern : regex :=
  alts
    [ seqs (what_happened ++ [lit "today"]);
      seqs [lit "today"; opt (Chr (Ascii.eqb "'")); lit "s"; ws1;
            words ["events"; "activities"; "notes"; "happenings"]];
      seqs [lit "tell"; ws1; lit "me"; ws1; lit "about"; ws1; lit "today"];
      seqs [lit "what"; ws1; words ["am"; "was"]; ws1; words ["i"; "I"]; ws1;
            words ["doing"; "working on"]; ws1; lit "today"] ].

Definition specific_date_pattern : regex :=
  seqs
    [ alts
        [ seqs (what_happened ++ [lit "on"]);
          seqs [lit "tell"; ws1; lit "me"; ws1; lit "about"];
          seqs [lit "what"; ws1; lit "was"; ws1; words ["i"; "I"]; ws1;
                words ["doing"; "working on"]; ws1; lit "on"] ];
      ws1;
      Grp 1
        (alts
           [ seqs [digits 4 4; lit "-"; digits 2 2; lit "-"; digits 2 2];
             seqs [digits 1 2; lit "/"; digits 1 2;
                   opt (seqs [lit "/"; digits 2 4])];
             seqs [digits 1 2; lit "-"; digits 1 2;
                   opt (seqs [lit "-"; digits 2 4])] ]) ].

Definition weekday_names : list string :=
  ["monday"; "tuesday"; "wednesday"; "thursday"; "friday"; "saturday";
   "sunday"].

Definition day_of_week_pattern : regex :=
  seqs
    [ opt (seqs (what_happened ++ [words ["on"; "last"; "this"]]));
      ws1;
      opt (Grp 1 (seqs [words ["last"; "this"; "on"]; ws1]));
      Grp 2 (words weekday_names) ].

(** [/^\d{4}-\d{2}-\d{2}$/], [/^\d{1,2}\/\d{1,2}\/\d{2,4}$/] and
    [/^\d{1,2}-\d{1,2}-\d{2,4}$/] *)
Definition iso_shape : regex :=
  seqs [Bos; digits 4 4; lit "-"; digits 2 2; lit "-"; digits 2 2; Eos].
Definition slash_shape : regex :=
  seqs [Bos; digits 1 2; lit "/"; digits 1 2; lit "/"; digits 2 4; Eos].
Definition dash_shape : regex :=
  seqs [Bos; digits 1 2; lit "-"; digits 1 2; lit "-"; digits 2 4; Eos].

(** The month/day/year branch shared by the slash and dash forms. *)
Definition date_of_parts (parts : list string) : option Z :=
  match parts with
  | [p0; p1; p2] =>
      let year :=
        if Nat.eqb (String.length p2) 2 then 2000 + Js.parseInt p2
        else Js.parseInt p2 in
      Some (JsDate.new_Date year (Js.parseInt p0 - 1) (Js.parseInt p1))
  | _ => None
  end.

Definition parse_date_string (date_str : string) : option Z :=
  if test iso_shape date_str then JsDate.parse_iso date_str
  else if test slash_shape date_str then
    date_of_parts (Js.split_char "/" date_str)
  else if test dash_shape date_str then
    date_of_parts (Js.split_char "-" date_str)
  else None.

(** [days.indexOf(name)] *)
Fixpoint indexOf (name : string) (l : list string) (i : Z) : Z :=
  match l with
  | [] => -1
  | x :: l' => if String.eqb x name then i else indexOf name l' (i + 1)
  end.

Definition days : list string :=
  ["sunday"; "monday"; "tuesday"; "wednesday"; "thursday"; "friday";
   "saturday"].

(** [today] is the value of [new Date()]. *)
Definition get_date_for_day_of_week
    (today : Z) (day_name prefix : string) : Z :=
  let today_day := JsDate.getDay today in
  let target_day := indexOf (Js.toLowerCase day_name) days 0 in
  if target_day =? -1 then today
  else
    let diff :=
      if String.eqb prefix "this" then
        let diff := target_day - today_day in
        if diff <? 0 then diff + 7 else diff
      else
        let diff := target_day - today_day in
        if 0 <=? diff then diff - 7 else diff in
    JsDate.setDate today (JsDate.getDate today + diff).

(** The four date formats tried by the locator, in order. *)
Definition formats (date : Z) : list string :=
  let yyyy := Js.of_Z (JsDate.getFullYear date) in
  let mm := Js.padStart2 (Js.of_Z (JsDate.getMonth date + 1)) in
  let dd := Js.padStart2 (Js.of_Z (JsDate.getDate date)) in
  [ yyyy +:+ "-" +:+ mm +:+ "-" +:+ dd;
    mm +:+ "-" +:+ dd +:+ "-" +:+ yyyy;
    "daily/" +:+ yyyy +:+ "-" +:+ mm +:+ "-" +:+ dd;
    "journal/" +:+ yyyy +:+ "-" +:+ mm +:+ "-" +:+ dd ].

(** The [Map] from lower-cased basename to file; a later file replaces an
    earlier one under the same key. *)
Definition build_file_map (files : list TFile) : gmap string TFile :=
  foldl (fun m f => <[Js.toLowerCase (basename f) := f]> m) ∅ files.

(** The loop over the formats: a hit whose read throws is logged and the
    loop goes on with the next format. *)
Fixpoint first_note (file_map : gmap string TFile) (fmts : list string)
  : option note :=
  match fmts with
  | [] => None
  | format :: rest =>
      match file_map !! Js.toLowerCase format with
      | Some matching_file =>
          match content matching_file with
          | Some c => Some {| name := basename matching_file;
                              note_content := c |}
          | None => first_note file_map rest
          end
      | None => first_note file_map rest
      end
  end.

Definition find_daily_note (files : list TFile) (date : Z) : option note :=
  first_note (build_file_map files) (formats date).

(** A string is truthy when it is not empty. *)
Definition truthy (o : option string) : option string :=
  match o with
  | Some EmptyString => None
  | _ => o
  end.

(** The body of the explicit-literal branch, given the match. *)
Definition date_of_literal (m : match_result) : option Z :=
  match truthy (group 1 m) with
  | Some g => parse_date_string g
  | None => None
  end.

(** The body of the day-of-week branch, given the match. *)
Definition date_of_weekday (today : Z) (m : match_result) : option Z :=
  match truthy (group 2 m) with
  | Some day_name =>
      let prefix :=
        match truthy (group 1 m) with
        | Some p => Js.toLowerCase (Js.trim p)
        | None => "last"
        end in
      Some (get_date_for_day_of_week today day_name prefix)
  | None => None
  end.

(** The date chosen by the [if / else if] chain of
    [check_time_related_query]; [None] is [null]. *)
Definition target_date (today : Z) (query : string) : option Z :=
  if test yesterday_pattern query then
    Some (JsDate.setDate today (JsDate.getDate today - 1))
  else if test today_pattern query then Some today
  else if test specific_date_pattern query then
    match exec specific_date_pattern query with
    | Some m => date_of_literal m
    | None => None
    end
  else if test day_of_week_pattern query then
    match exec day_of_week_pattern query with
    | Some m => date_of_weekday today m
    | None => None
    end
  else None.

Definition check_time_related_query
    (files : list TFile) (today : Z) (query : string) : list note :=
  match target_date today query with
  | Some d =>
      match find_daily_note files d with
      | Some daily_note => [daily_note]
      | None => []
      end
  | None => []
  end.

End Dive.

(** ** The view: mentions *)

Module DiveView.

Import Regex.

Definition backtick : ascii := "`"%char.
Definition at_sign : ascii := "@"%char.

Definition not_backtick (c : ascii) : bool := negb (Ascii.eqb c backtick).

(** The punctuation marks [. , ; ! ?]. *)
Definition is_punct (c : ascii) : bool :=
  Ascii.eqb c "." || Ascii.eqb c "," || Ascii.eqb c ";"
  || Ascii.eqb c "!" || Ascii.eqb c "?".

(** The class [[^\s@`.,;!?]] of the bare-mention pattern. *)
Definition is_ref_char (c : ascii) : bool :=
  negb (Js.is_space c || Ascii.eqb c at_sign || Ascii.eqb c backtick
        || is_punct c).

(** [/@`([^`]+)`/g] *)
Definition backtick_regex : regex :=
  seqs [Chr (Ascii.eqb at_sign); Chr (Ascii.eqb backtick);
        Grp 1 (Many 1 not_backtick); Chr (Ascii.eqb backtick)].

(** [/@([^\s@`.,;!?]+)/g] *)
Definition simple_regex : regex :=
  seqs [Chr (Ascii.eqb at_sign); Grp 1 (Many 1 is_ref_char)].

(** [new RegExp(`@${escaped_ref}(?=\\s|$|[.,;!?])`, 'g')]: the escaping
    of [ref] makes every character of it stand for itself. *)
Definition ref_regex (ref : string) : regex :=
  seqs [lit_cs (String at_sign ref);
        Look (alts [Chr Js.is_space; Eos; Chr is_punct])].

(** *** [extractFileReferences] *)

(** [Set.prototype.add]: a set keeps its elements in insertion order. *)
Definition set_add (set : list string) (x : string) : list string :=
  if existsb (String.eqb x) set then set else set ++ [x].

(** The body of the first loop, [match[1]] being [span]. *)
Definition add_backtick (set : list string) (span : string) : list string :=
  let filename := Js.trim span in
  if Js.is_empty filename then set else set_add set filename.

Definition extractFileReferences (text : string) : list string :=
  let mentions_set :=
    fold_left add_backtick
      (first_groups (exec_all backtick_regex O None text)) [] in
  fold_left set_add
    (first_groups (exec_all simple_regex O None text)) mentions_set.

(** *** [removeFileReferences] *)

(** [extracted_refs.sort((a, b) => b.length - a.length)]: a stable sort,
    longest first. *)
Fixpoint insert_by_length (x : string) (l : list string) : list string :=
  match l with
  | [] => [x]
  | y :: l' =>
      if (String.length x <? String.length y)%nat
      then y :: insert_by_length x l'
      else x :: l
  end.

Fixpoint sort_by_length (l : list string) : list string :=
  match l with
  | [] => []
  | x :: l' => insert_by_length x (sort_by_length l')
  end.

(** [`@\`${ref}\``] *)
Definition wrapped (ref : string) : string :=
  String at_sign (String backtick (ref +:+ String backtick "")).

(** The body of the loop over the sorted references. *)
Definition strip_ref (text cleaned_text ref : string) : string :=
  if Js.includes text (wrapped ref) then cleaned_text
  else replace_all (ref_regex ref) "" O None cleaned_text.

Definition removeFileReferences (text : string) : string :=
  let cleaned_text := replace_all backtick_regex "" O None text in
  let extracted_refs := sort_by_length (extractFileReferences text) in
  let cleaned_text := fold_left (strip_ref text) extracted_refs cleaned_text in
  Js.trim (replace_all ws1 " " O None cleaned_text).

(** *** [analyze_conversation_context] *)

Definition stopwords : list string :=
  ["what"; "when"; "where"; "which"; "this"; "that"; "there"; "their";
   "about"].

Definition longer_than_3 (word : string) : bool :=
  (3 <? String.length word)%nat.

Definition not_stopword (word : string) : bool :=
  negb (existsb (String.eqb word) stopwords).

(** The [words] array: lower-case the message, delete every character
    that is neither a word character nor white space, split on white
    space, keep the words longer than 3 that are not stop words. *)
Definition context_words (message : string) : list string :=
  List.filter not_stopword
    (List.filter longer_than_3
       (Js.split_ws
          (Js.sfilter (fun c => Js.is_word c || Js.is_space c)
             (Js.toLowerCase message)))).

(** A value stored in [word_counts]: a number, or the string that
    [(word_counts[word] || 0) + 1] produces when the property read is not
    a number. *)
Inductive jsval : Type :=
| Num (n : Z)
| Str (s : string).

(** [word_counts] is an ordinary object: its own properties in creation
    order, and behind them the properties inherited from
    [Object.prototype].  All words are lower case, so the only inherited
    names a word can hit are [constructor] and [__proto__]. *)
Definition object : Type := list (string * jsval).

Fixpoint own (key : string) (o : object) : option jsval :=
  match o with
  | [] => None
  | (k, v) :: o' => if String.eqb k key then Some v else own key o'
  end.

Fixpoint update (key : string) (v : jsval) (o : object) : object :=
  match o with
  | [] => []
  | (k, w) :: o' =>
      if String.eqb k key then (k, v) :: o' else (k, w) :: update key v o'
  end.

(** [o[key] = v] for a key other than [__proto__]. *)
Definition set_property (key : string) (v : jsval) (o : object) : object :=
  match own key o with
  | Some _ => update key v o
  | None => o ++ [(key, v)]
  end.

(** [word_counts[word] = (word_counts[word] || 0) + 1].  A stored number
    is at least 1 and a stored string is not empty, so an own property is
    always truthy.  The inherited [constructor] is a function and the
    inherited [__proto__] an object: both are truthy and [+ 1] turns them
    into strings; assigning a string to [__proto__] is ignored. *)
Definition count_word (o : object) (word : string) : object :=
  match own word o with
  | Some (Num n) => set_property word (Num (n + 1)) o
  | Some (Str s) => set_property word (Str (s +:+ "1")) o
  | None =>
      if String.eqb word "__proto__" then o
      else if String.eqb word "constructor" then
        set_property word (Str "function Object() { [native code] }1") o
      else set_property word (Num 1) o
  end.

(** The number a key denotes when it is an array index: a decimal numeral
    without leading zero, at most 2^32 - 2. *)
Definition array_index (key : string) : option Z :=
  match key with
  | EmptyString => None
  | String c rest =>
      if Js.sforall Js.is_digit key
         && (negb (Ascii.eqb c "0") || Js.is_empty rest)
         && (Js.parseInt key <=? 4294967294)
      then Some (Js.parseInt key)
      else None
  end.

Fixpoint insert_index (e : Z * (string * jsval))
    (l : list (Z * (string * jsval))) : list (Z * (string * jsval)) :=
  match l with
  | [] => [e]
  | f :: l' => if fst e <? fst f then e :: l else f :: insert_index e l'
  end.

Fixpoint index_entries (o : object) : list (Z * (string * jsval)) :=
  match o with
  | [] => []
  | (k, v) :: o' =>
      match array_index k with
      | Some i => insert_index (i, (k, v)) (index_entries o')
      | None => index_entries o'
      end
  end.

Definition named_entries (o : object) : object :=
  List.filter (fun e => match array_index (fst e) with
                        | Some _ => false
                        | None => true
                        end) o.

(** [Object.entries(o)]: the array-index keys in ascending numeric order,
    then the other keys in creation order. *)
Definition entries (o : object) : object :=
  map snd (index_entries o) ++ named_entries o.

(** [b[1] - a[1]] as the sort sees it: positive when [a] must come after
    [b].  A string operand makes the difference [NaN], which the sort
    reads as 0. *)
Definition compare_counts (a b : string * jsval) : Z :=
  match snd a, snd b with
  | Num x, Num y => y - x
  | _, _ => 0
  end.

(** [Array.prototype.sort] is stable: an entry moves in front of the
    entries it strictly precedes. *)
Fixpoint insert_entry (a : string * jsval) (l : object) : object :=
  match l with
  | [] => [a]
  | b :: l' =>
      if 0 <? compare_counts a b then b :: insert_entry a l' else a :: l
  end.

Fixpoint sort_entries (l : object) : object :=
  match l with
  | [] => []
  | a :: l' => insert_entry a (sort_entries l')
  end.

Definition word_counts (words : list string) : object :=
  fold_left count_word words [].

Definition top_words (message : string) : list string :=
  map fst
    (firstn 5
       (sort_entries (entries (word_counts (context_words message))))).

(** The new value of [this.conversation_context]. *)
Definition analyze_conversation_context (message : string) : string :=
  Js.join ", " (top_words message).

(** *** [prepareMessage] *)

Inductive Role : Type := user | assistant.

Record Turn : Type := { role : Role; turn_content : string }.

(** The fields of the view that the modelled methods read and write.
    An unset [conversation_id] is the empty string (falsy). *)
Record View : Type :=
  { chatHistory : list Turn;
    conversation_id : string;
    awaiting_user_response : bool;
    conversation_context : string }.

Record Settings : Type :=
  { perplexityApiKey : string;
    currentModel : string;
    includeCurrentFile : bool }.

Definition same_name (a b : string) : bool :=
  String.eqb (Js.toLowerCase a) (Js.toLowerCase b).

Definition named_by (fileReferences : list string) (file_name : string)
  : bool :=
  existsb (fun ref => same_name ref file_name) fileReferences.

Definition fuzzy (fileName : string) (f : TFile) : bool :=
  Js.includes (Js.toLowerCase (basename f)) (Js.toLowerCase fileName)
  || Js.includes (Js.toLowerCase fileName) (Js.toLowerCase (basename f)).

(** One round of the loop over [fileReferences]: the file pushed to
    [includedFiles], if any, and the notice shown, if any. *)
Definition resolve_reference (files : list TFile) (fileName : string)
  : list note * list string :=
  match find (fun f => same_name (basename f) fileName) files with
  | Some file =>
      match content file with
      | Some c => ([{| name := basename file; note_content := c |}], [])
      | None => ([], ["Could not read file: " +:+ fileName])
      end
  | None =>
      match find (fuzzy fileName) files with
      | Some fuzzy_match =>
          match content fuzzy_match with
          | Some c =>
              ([{| name := basename fuzzy_match; note_content := c |}], [])
          | None =>
              ([], ["Could not read file: " +:+ basename fuzzy_match])
          end
      | None => ([], ["File not found: " +:+ fileName])
      end
  end.

Fixpoint resolve_references (files : list TFile) (refs : list string)
  : list note * list string :=
  match refs with
  | [] => ([], [])
  | fileName :: rest =>
      let '(found, notices) := resolve_reference files fileName in
      let '(found', notices') := resolve_references files rest in
      (found ++ found', notices ++ notices')
  end.

(** The block guarded by [settings.includeCurrentFile]. *)
Definition current_file (include : bool) (activeFile : option TFile)
    (fileReferences : list string) : list note * list string :=
  if include then
    match activeFile with
    | None => ([], [])
    | Some currentFile =>
        match content currentFile with
        | None => ([], ["Could not read current file"])
        | Some EmptyString => ([], [])
        | Some fileContent =>
            if named_by fileReferences (basename currentFile) then ([], [])
            else ([{| name := basename currentFile;
                      note_content := fileContent |}], [])
        end
    end
  else ([], []).

(** The time-related files that no reference names. *)
Definition time_related (fileReferences : list string)
    (time_related_files : list note) : list note :=
  List.filter (fun file => negb (named_by fileReferences (name file)))
    time_related_files.

(** The array [includedFiles] at the end of the three blocks that fill
    it, and the notices shown on the way. *)
Definition included_files (files : list TFile) (today : Z)
    (include : bool) (activeFile : option TFile) (userInput : string)
  : list note * list string :=
  let fileReferences := extractFileReferences userInput in
  let time_related_files :=
    Dive.check_time_related_query files today userInput in
  let '(explicit, notices) := resolve_references files fileReferences in
  let '(current, notices') := current_file include activeFile fileReferences in
  (time_related fileReferences time_related_files ++ explicit ++ current,
   notices ++ notices').

Definition nl : string := String (ascii_of_nat 10) "".
Definition fence : string := "```".

(** [/(\d{4})-(\d{2})-(\d{2})/] *)
Definition date_in_name : regex :=
  seqs [Grp 1 (digits 4 4); lit_cs "-"; Grp 2 (digits 2 2); lit_cs "-";
        Grp 3 (digits 2 2)].

(** [/\b(mon|tue|wed|thu|fri|sat|sun)/] *)
Definition weekday_in_name : regex :=
  seqs [Bow;
        Grp 1 (alts (map lit_cs
                       ["mon"; "tue"; "wed"; "thu"; "fri"; "sat"; "sun"]))].

Definition is_daily_note (file_name : string) : bool :=
  test date_in_name file_name
  || Js.includes (Js.toLowerCase file_name) "daily"
  || Js.includes (Js.toLowerCase file_name) "journal"
  || test weekday_in_name (Js.toLowerCase file_name).

Definition or_empty (o : option string) : string :=
  match o with Some s => s | None => "" end.

Definition file_block (file : note) : string :=
  if is_daily_note (name file) then
    let date_str :=
      match exec date_in_name (name file) with
      | Some m =>
          or_empty (group 1 m) +:+ "-" +:+ or_empty (group 2 m) +:+ "-"
          +:+ or_empty (group 3 m)
      | None => name file
      end in
    "Your daily note for " +:+ date_str
    +:+ ". This contains your activities and notes for this day:" +:+ nl
    +:+ fence +:+ nl +:+ note_content file +:+ nl +:+ fence +:+ nl +:+ nl
  else
    "File: " +:+ name file +:+ nl +:+ fence +:+ nl +:+ note_content file
    +:+ nl +:+ fence +:+ nl +:+ nl.

Inductive display : Type :=
| Plain (text : string)
| WithFiles (text : string) (fileNames : list string).

Record prepared : Type :=
  { displayText : display;
    apiText : string;
    notices : list string;
    view_after : View }.

Definition prepareMessage (files : list TFile) (today : Z)
    (settings : Settings) (activeFile : option TFile) (view : View)
    (userInput : string) : prepared :=
  let '(includedFiles, shown) :=
    included_files files today (includeCurrentFile settings) activeFile
      userInput in
  let '(displayText, apiText) :=
    match includedFiles with
    | [] => (Plain userInput, userInput)
    | _ =>
        let filesContent :=
          fold_left (fun acc file => acc +:+ file_block file)
            includedFiles "" in
        (WithFiles (removeFileReferences userInput)
           (map name includedFiles),
         filesContent +:+ nl +:+ nl +:+ "User question:" +:+ nl
         +:+ userInput +:+ nl +:+ nl
         +:+ "Please answer based on the content of the provided files.")
    end in
  let context := analyze_conversation_context userInput in
  let apiText :=
    if negb (Js.is_empty context)
       && negb (Nat.eqb (length (chatHistory view)) 0)
    then apiText +:+ nl +:+ nl +:+ "Conversation context: " +:+ context
    else apiText in
  {| displayText := displayText;
     apiText := apiText;
     notices := shown;
     view_after :=
       {| chatHistory := chatHistory view;
          conversation_id := conversation_id view;
          awaiting_user_response := awaiting_user_response view;
          conversation_context := context |} |}.

(** *** [sendToPerplexity] and [save_chat_history] *)

(** The five patterns of [detect_question_in_response]. *)
Definition question_patterns : list regex :=
  [ seqs [lit_cs "?"; ws0; Eol];
    alts (map (fun w => seqs [Bow; lit w; Bow])
            ["what"; "how"; "why"; "when"; "where"; "which"]);
    alts (map (fun w => seqs [Bow; lit w; Bow])
            ["can you"; "could you"; "would you"]);
    lit "let me know";
    seqs [Bow; lit "thoughts"; Bow] ].

Definition detect_question_in_response (content : string) : bool :=
  existsb (fun pattern => test pattern content) question_patterns.

(** What the plugin's data file holds: the three keys written by
    [save_chat_history] once a save has happened, and the other keys,
    which a save carries over. *)
Record saved_chat : Type :=
  { chat_history : list Turn;
    saved_conversation_id : string;
    saved_awaiting_user_response : bool }.

Record plugin_data : Type :=
  { chat : option saved_chat; other_keys : list (string * string) }.

(** [save_chat_history]: [io_ok] tells whether [loadData] and [saveData]
    both return; when one throws, the error is logged and nothing is
    written. *)
Definition save_chat_history (io_ok : bool) (view : View)
    (data : plugin_data) : plugin_data :=
  if io_ok then
    {| chat := Some {| chat_history := chatHistory view;
                       saved_conversation_id := conversation_id view;
                       saved_awaiting_user_response :=
                         awaiting_user_response view |};
       other_keys := other_keys data |}
  else data.

(** What the call to the completions endpoint does. *)
Inductive fetch_outcome : Type :=
| Throws (message : string)       (* fetch or the decoding of the reply throws *)
| Status (status : Z)             (* a reply with [response.ok] false *)
| Reply (content : string) (citations : list string).

Record reply : Type :=
  { reply_content : string;
    reasoning : string;
    reply_citations : list string }.

Definition empty_reply : reply :=
  {| reply_content := ""; reasoning := ""; reply_citations := [] |}.

(** [s.split(sep)[0]] and what follows the first [sep], if any. *)
Fixpoint cut (sep s : string) : string * option string :=
  match Js.strip_prefix sep s with
  | Some after => (EmptyString, Some after)
  | None =>
      match s with
      | EmptyString => (EmptyString, None)
      | String c s' => let '(a, b) := cut sep s' in (String c a, b)
      end
  end.

Definition emphasize (line : string) : string :=
  if Js.is_empty (Js.trim line) then ""
  else "*" +:+ Js.trim line +:+ "*".

(** The splitting of a reasoning model's reply at [</think>]. *)
Definition split_reasoning (model content : string) : string * string :=
  if Js.includes model "reasoning" && Js.includes content "<think>" then
    match cut "</think>" content with
    | (part0, Some after) =>
        let thinkPart :=
          match cut "<think>" part0 with
          | (a, Some b) => Js.trim (a +:+ b)
          | (a, None) => Js.trim a
          end in
        (Js.trim (fst (cut "</think>" after)),
         Js.join nl (map emphasize (Js.split_char (ascii_of_nat 10) thinkPart)))
    | (_, None) => (content, "")
    end
  else (content, "").

Record sent : Type :=
  { response : reply;
    send_notices : list string;
    send_view : View;
    send_data : plugin_data }.

Definition with_history (view : View) (id : string) (h : list Turn) : View :=
  {| chatHistory := h;
     conversation_id := id;
     awaiting_user_response := awaiting_user_response view;
     conversation_context := conversation_context view |}.

(** [fresh_id] is the value [generate_conversation_id] would return,
    [outcome] what the network call does, [io_ok] whether the save at the
    end can read and write the data file. *)
Definition sendToPerplexity (settings : Settings) (fresh_id : string)
    (outcome : fetch_outcome) (io_ok : bool) (view : View)
    (data : plugin_data) (message : string) : sent :=
  if Js.is_empty (perplexityApiKey settings) then
    {| response := empty_reply;
       send_notices := ["Please set your Perplexity API key in settings"];
       send_view := view;
       send_data := data |}
  else
    let id :=
      if Js.is_empty (conversation_id view) then fresh_id
      else conversation_id view in
    let pushed :=
      with_history view id
        (chatHistory view ++ [{| role := user; turn_content := message |}]) in
    let failed (error_message : string) :=
      {| response := empty_reply;
         send_notices := ["Error: " +:+ error_message];
         send_view := pushed;
         send_data := data |} in
    match outcome with
    | Throws error_message => failed error_message
    | Status status => failed ("API error: " +:+ Js.of_Z status)
    | Reply raw citations =>
        let '(content, reasoning) :=
          split_reasoning (currentModel settings) raw in
        let answered :=
          {| chatHistory :=
               chatHistory pushed
               ++ [{| role := assistant; turn_content := content |}];
             conversation_id := id;
             awaiting_user_response := detect_question_in_response content;
             conversation_context := conversation_context view |} in
        {| response := {| reply_content := content;
                          reasoning := reasoning;
                          reply_citations := citations |};
           send_notices := [];
           send_view := answered;
           send_data := save_chat_history io_ok answered data |}
    end.

(** [onClose] *)
Definition onClose (io_ok : bool) (view : View) (data : plugin_data)
  : plugin_data :=
  save_chat_history io_ok view data.

(** A session: sends and, at the end of the view's life, its closing. *)
Inductive event : Type :=
| Send (message : string) (outcome : fetch_outcome)
| Close.

Definition step (settings : Settings) (fresh_id : string)
    (st : View * plugin_data) (e : event) : View * plugin_data :=
  match e with
  | Send message outcome =>
      let r := sendToPerplexity settings fresh_id outcome true
                 (fst st) (snd st) message in
      (send_view r, send_data r)
  | Close => (fst st, onClose true (fst st) (snd st))
  end.

Definition run (settings : Settings) (fresh_id : string)
    (st : View * plugin_data) (trace : list event) : View * plugin_data :=
  fold_left (step settings fresh_id) trace st.

(** *** The input field: [insertFileReference], [setInputText] *)

(** The text of the input field and the position of the cursor in it. *)
Record InputField : Type := { value : string; selectionStart : Z }.

(** [setSelectionRange(n, n)] for [n] not below 0: a position beyond the
    end of the text is the end of the text. *)
Definition setSelectionRange (text : string) (n : Z) : Z :=
  Z.min n (Z.of_nat (String.length text)).

Definition insertFileReference (field : InputField) (file : TFile)
  : InputField :=
  let text := value field in
  let cursorPosition := selectionStart field in
  let textBeforeCursor := Js.substring text 0 cursorPosition in
  let textAfterCursor := Js.substring_from text cursorPosition in
  let atIndex := Js.lastIndexOf at_sign textBeforeCursor in
  let needs_backticks := Js.includes (basename file) " " || true in
  let newText :=
    Js.substring textBeforeCursor 0 atIndex
    +:+ (if needs_backticks then wrapped (basename file)
         else String at_sign (basename file))
    +:+ (if Js.startsWith textAfterCursor " " then "" else " ")
    +:+ textAfterCursor in
  let reference_length :=
    if needs_backticks then Z.of_nat (String.length (basename file)) + 2
    else Z.of_nat (String.length (basename file)) in
  let newCursorPosition :=
    atIndex + 1 + reference_length
    + (if Js.startsWith textAfterCursor " " then 0 else 1) in
  {| value := newText;
     selectionStart := setSelectionRange newText newCursorPosition |}.

(** [s.split('\n').map(line => `> ${line}`).join('\n')] *)
Definition quote_lines (s : string) : string :=
  Js.join nl
    (map (fun line => "> " +:+ line) (Js.split_char (ascii_of_nat 10) s)).

Definition blank_line : string := nl +:+ nl.

(** [setInputText]: nothing happens while the view has no input field
    ([None]).  The destructuring [[prefix, content] = text.split(...)]
    takes the first two pieces; it has two pieces to take whenever the
    text includes the separator. *)
Definition setInputText (inputField : option InputField) (text : string)
  : option InputField :=
  match inputField with
  | None => None
  | Some field =>
      let formattedText :=
        if Js.includes text blank_line then
          match Js.split blank_line O text with
          | prefix :: content :: _ =>
              prefix +:+ blank_line +:+ quote_lines content +:+ nl
          | _ => ""
          end
        else quote_lines text +:+ nl in
      let currentText := value field in
      let newText :=
        if Js.is_empty currentText then formattedText
        else currentText +:+ nl +:+ formattedText in
      Some {| value := newText;
              selectionStart :=
                setSelectionRange newText
                  (Z.of_nat (String.length newText)) |}
  end.

(** The texts that the two editor-menu items of [onload] pass to
    [setInputText], [selection] being the selected text. *)
Definition understand_request (selection : string) : string :=
  "Help me understand this text:" +:+ blank_line +:+ selection.

Definition expand_request (selection : string) : string :=
  "Please expand and elaborate on this text:" +:+ blank_line +:+ selection.

(** *** The suggestion list: [selectSuggestion], [navigateSuggestion] *)

(** The items of the suggestion list, by the names they show, and the
    index of the item marked as selected. *)
Record Suggestions : Type :=
  { fileSuggestions : list string; currentSuggestionIndex : Z }.

Definition selectSuggestion (s : Suggestions) (index : Z) : Suggestions :=
  if (0 <=? index) && (index <? Z.of_nat (length (fileSuggestions s)))
  then {| fileSuggestions := fileSuggestions s;
          currentSuggestionIndex := index |}
  else s.

(** [navigateSuggestion]: [%] is the remainder with the sign of the
    dividend.  The first statement reads the item at the current index
    and throws when there is none ([None]). *)
Definition navigateSuggestion (s : Suggestions) (direction : Z)
  : option Suggestions :=
  match fileSuggestions s with
  | [] => Some s
  | _ :: _ =>
      let len := Z.of_nat (length (fileSuggestions s)) in
      if (0 <=? currentSuggestionIndex s) && (currentSuggestionIndex s <? len)
      then
        let index := Z.rem (currentSuggestionIndex s + direction + len) len in
        Some (selectSuggestion
                {| fileSuggestions := fileSuggestions s;
                   currentSuggestionIndex := index |} index)
      else None
  end.

(** *** The title of a note created from a reply *)

(** The characters of the first replacement: [< > : / | ? *], the double
    quote and the backslash. *)
Definition is_reserved (c : ascii) : bool :=
  existsb (Ascii.eqb c)
    [ "<"%char; ">"%char; ":"%char; ascii_of_nat 34; "/"%char;
      ascii_of_nat 92; "|"%char; "?"%char; "*"%char ].

(** [s.replace(/a/g, b)] for single characters [a] and [b]. *)
Definition replace_char (a b : ascii) (s : string) : string :=
  Js.smap (fun c => if Ascii.eqb c a then b else c) s.

(** The click handler of the create-note button, from
    [title = title.substring(0, 40).trim()] on: [title] is the candidate
    chosen before (the first heading, the first sentence or the first
    line of the reply) and [heading_match] tells whether it is a
    heading. *)
Definition note_title (heading_match : bool) (title : string) : string :=
  let title := Js.trim (Js.substring title 0 40) in
  let title :=
    if Js.is_empty title
       || Js.is_empty
            (Js.trim
               (Js.sfilter (fun c => Js.is_word c || Js.is_space c) title))
    then "ai_note" else title in
  let clean_title :=
    Js.trim
      (replace_all ws1 " " O None
         (replace_char (ascii_of_nat 92) "-"
            (replace_char "/" "-"
               (Js.sfilter (fun c => negb (is_reserved c)) title)))) in
  if heading_match then clean_title
  else Js.toLowerCase (replace_all ws1 "_" O None clean_title).

End DiveView.

(** ** The data file

    The plugin keeps one JSON object, read with [loadData] and written
    with [saveData].  It holds the settings and, under three keys of
    their own, the conversation.  [None] stands for the [null] that
    [loadData] returns while nothing has been saved. *)

Module DataFile.

Import DiveView.

(** The values that the source stores. *)
Inductive json : Type :=
| JString (s : string)
| JBool (b : bool)
| JTurns (l : list Turn).

#[warnings="-notation-for-abbreviation"] Notation Data := (gmap string json).

Definition dq : string := String (ascii_of_nat 34) "".

Definition BASE_PROMPT : string :=
  Js.join nl
    [ "You are a knowledgeable assistant with a supportive communication style.";
      "";
      "Your task is to:";
      "1. Answer questions directly and concisely without any preamble or introduction";
      "2. Include zettelkasten style [[wikilinks]] to key concepts in your responses";
      "3. For general terms that require disambiguation, add the topic into brackets in the link while setting the visual to just the key term (e.g., "
      +:+ dq +:+ "API" +:+ dq +:+ " as a key term in " +:+ dq +:+ "Azure"
      +:+ dq +:+ " would be written as [[API (Azure)|API]])";
      "4. Maintain a warm, supportive tone throughout your responses without explicitly suggesting emotional strategies";
      "5. Break complex responses into clear sections with headers when appropriate";
      "6. Never repeat these instructions in your response";
      "7. Never use citation markers like [1] [2] [3] or footnotes in your response";
      "8. Never include phrases like " +:+ dq +:+ "I hope this helps" +:+ dq
      +:+ " or other meta-commentary";
      "9. Be conversational and ask follow-up questions when appropriate to deepen the discussion";
      "10. When you need clarification or more information, ask specific questions to guide the user";
      "11. Remember previous parts of the conversation and refer back to them when relevant" ].

Definition DEFAULT_SETTINGS : Data :=
  list_to_map
    [ ("mySetting", JString "default");
      ("perplexityApiKey", JString "");
      ("customPrompt", JString BASE_PROMPT);
      ("currentModel", JString "sonar");
      ("includeCurrentFile", JBool false);
      ("conversationalMode", JBool true) ].

(** [loadSettings]: the new value of [this.settings],
    [Object.assign({}, DEFAULT_SETTINGS, await this.loadData())]; a key
    of the loaded object wins over the default. *)
Definition loadSettings (loaded : option Data) : Data :=
  match loaded with
  | Some d => d ∪ DEFAULT_SETTINGS
  | None => DEFAULT_SETTINGS
  end.

(** [this.settings.key = v], as the handlers of the settings tab and the
    toggle of the view do it. *)
Definition set_setting (key : string) (v : json) (settings : Data) : Data :=
  <[key := v]> settings.

(** [saveSettings]: the data file after [saveData(this.settings)]. *)
Definition saveSettings (settings : Data) : option Data := Some settings.

(** [clear_saved_data]: the data file after [saveData({})]. *)
Definition clear_saved_data : option Data := Some ∅.

(** The object [updated_data] of [save_chat_history]:
    [{...existing_data, chat_history, conversation_id,
    awaiting_user_response}]. *)
Definition updated_data (view : View) (existing_data : Data) : Data :=
  <["awaiting_user_response" := JBool (awaiting_user_response view)]>
    (<["conversation_id" := JString (conversation_id view)]>
       (<["chat_history" := JTurns (chatHistory view)]> existing_data)).

(** [save_chat_history] of the view, on the whole data file: [io_ok]
    tells whether [loadData] and [saveData] both return; when one
    throws, the error is logged and nothing is written. *)
Definition save_chat_history (io_ok : bool) (view : View)
    (file : option Data) : option Data :=
  if io_ok then Some (updated_data view (default ∅ file)) else file.

Definition truthy (v : json) : bool :=
  match v with
  | JString s => negb (Js.is_empty s)
  | JBool b => b
  | JTurns _ => true
  end.

(** [data.conversation_id || this.generate_conversation_id()]; [None]
    when the value is neither a string nor falsy. *)
Definition loaded_id (fresh_id : string) (d : Data) : option string :=
  match d !! "conversation_id" with
  | Some (JString s) => Some (if Js.is_empty s then fresh_id else s)
  | Some v => if truthy v then None else Some fresh_id
  | None => Some fresh_id
  end.

(** [data.awaiting_user_response || false]; [None] when the value is
    neither a boolean nor falsy. *)
Definition loaded_awaiting (d : Data) : option bool :=
  match d !! "awaiting_user_response" with
  | Some (JBool b) => Some b
  | Some v => if truthy v then None else Some false
  | None => Some false
  end.

(** [load_chat_history]: [fresh_id] is the value
    [generate_conversation_id] would return, [io_ok] tells whether
    [loadData] returns.  The result is the view afterwards; it is [None]
    when the file holds, under one of the three keys, a truthy value of
    another type than the one [save_chat_history] writes, which the
    fields of [View] cannot hold. *)
Definition load_chat_history (fresh_id : string) (io_ok : bool)
    (view : View) (file : option Data) : option View :=
  if io_ok then
    match file with
    | None => Some view
    | Some d =>
        match d !! "chat_history" with
        | None => Some view
        | Some (JTurns h) =>
            match loaded_id fresh_id d, loaded_awaiting d with
            | Some id, Some awaiting =>
                Some {| chatHistory := h;
                        conversation_id := id;
                        awaiting_user_response := awaiting;
                        conversation_context := conversation_context view |}
            | _, _ => None
            end
        | Some v => if truthy v then None else Some view
        end
    end
  else Some view.

(** The view with the conversation forgotten, as [reset_chat] and the
    new-conversation button set it before they save. *)
Definition cleared (fresh_id : string) (view : View) : View :=
  {| chatHistory := [];
     conversation_id := fresh_id;
     awaiting_user_response := false;
     conversation_context := conversation_context view |}.

(** [reset_chat] of the view: the fields are cleared and saved, then
    [onOpen] loads the chat history again.  [fresh_id] and [reload_id]
    are the values of the two calls of [generate_conversation_id] that
    may happen, [save_ok] and [load_ok] tell whether the save and the
    load can use the data file. *)
Definition reset_chat (fresh_id reload_id : string) (save_ok load_ok : bool)
    (view : View) (file : option Data) : option View * option Data :=
  let file' := save_chat_history save_ok (cleared fresh_id view) file in
  (load_chat_history reload_id load_ok (cleared fresh_id view) file', file').

(** The conversation as [DiveView.save_chat_history] keeps it, read off
    the data file. *)
Definition chat_of (file : option Data) : option saved_chat :=
  match file with
  | None => None
  | Some d =>
      match d !! "chat_history", d !! "conversation_id",
            d !! "awaiting_user_response" with
      | Some (JTurns h), Some (JString id), Some (JBool b) =>
          Some {| chat_history := h;
                  saved_conversation_id := id;
                  saved_awaiting_user_response := b |}
      | _, _, _ => None
      end
  end.

End DataFile.

(** ** The mention patterns as scanners

    The matches of the three mention patterns and of [/\s+/g], written as
    recursive functions over the text.  They are shown below to compute
    what the matcher computes on these patterns, and the properties of
    the extractor and of the stripper are proved on them. *)

Module Scan.

Import DiveView.

(** A match of [/@`([^`]+)`/] at the head of [s]: the captured span. *)
Definition backtick_at (s : string) : option string :=
  match s with
  | String a (String b r) =>
      if Ascii.eqb a at_sign && Ascii.eqb b backtick then
        let '(span, after) := Js.span not_backtick r in
        match span, after with
        | String _ _, String _ _ => Some span
        | _, _ => None
        end
      else None
  | _ => None
  end.

(** The captures of the successive matches of [/@`([^`]+)`/g]; [skip]
    counts the characters of the last match still to pass. *)
Fixpoint backtick_matches (skip : nat) (s : string) : list string :=
  match s with
  | EmptyString => []
  | String _ s' =>
      match skip with
      | S k => backtick_matches k s'
      | O =>
          match backtick_at s with
          | Some span =>
              span :: backtick_matches (S (S (String.length span))) s'
          | None => backtick_matches O s'
          end
      end
  end.

(** A match of [/@([^\s@`.,;!?]+)/] at the head of [s]: the captured
    run, which the greedy quantifier makes maximal. *)
Definition simple_at (s : string) : option string :=
  match s with
  | String a r =>
      if Ascii.eqb a at_sign then
        match fst (Js.span is_ref_char r) with
        | EmptyString => None
        | tok => Some tok
        end
      else None
  | EmptyString => None
  end.

(** The captures of the successive matches of [/@([^\s@`.,;!?]+)/g]. *)
Fixpoint simple_matches (skip : nat) (s : string) : list string :=
  match s with
  | EmptyString => []
  | String _ s' =>
      match skip with
      | S k => simple_matches k s'
      | O =>
          match simple_at s with
          | Some tok => tok :: simple_matches (String.length tok) s'
          | None => simple_matches O s'
          end
      end
  end.

Definition extract (text : string) : list string :=
  let mentions_set := fold_left add_backtick (backtick_matches O text) [] in
  fold_left set_add (simple_matches O text) mentions_set.

(** [text.replace(/@`[^`]+`/g, '')] *)
Fixpoint remove_backticks (skip : nat) (s : string) : string :=
  match s with
  | EmptyString => EmptyString
  | String c s' =>
      match skip with
      | S k => remove_backticks k s'
      | O =>
          match backtick_at s with
          | Some span => remove_backticks (S (S (String.length span))) s'
          | None => String c (remove_backticks O s')
          end
      end
  end.

(** The lookahead [(?=\s|$|[.,;!?])]. *)
Definition at_boundary (s : string) : bool :=
  match s with
  | EmptyString => true
  | String c _ => Js.is_space c || is_punct c
  end.

(** A match of [@<ref>(?=\s|$|[.,;!?])] at the head of [s]. *)
Definition ref_at (ref s : string) : bool :=
  match Js.strip_prefix (String at_sign ref) s with
  | Some after => at_boundary after
  | None => false
  end.

(** [cleaned_text.replace(ref_regex, '')] *)
Fixpoint remove_ref (ref : string) (skip : nat) (s : string) : string :=
  match s with
  | EmptyString => EmptyString
  | String c s' =>
      match skip with
      | S k => remove_ref ref k s'
      | O =>
          if ref_at ref s then remove_ref ref (String.length ref) s'
          else String c (remove_ref ref O s')
      end
  end.

Definition strip (text cleaned_text ref : string) : string :=
  if Js.includes text (wrapped ref) then cleaned_text
  else remove_ref ref O cleaned_text.

Definition remove (text : string) : string :=
  let cleaned_text := remove_backticks O text in
  let extracted_refs := sort_by_length (extract text) in
  let cleaned_text := fold_left (strip text) extracted_refs cleaned_text in
  Js.trim (Js.collapse_ws cleaned_text).

End Scan.

(** ** Vocabulary of the statements *)

Module Statements.

(** A query that names an impossible date and a weekday. *)
Definition bad_literal_query : string :=
  "tell me about 2024-13-01 last monday".

Import DiveView Scan.

(** *** Mentions *)

(** The character before the position behind [run], [pv] being the
    character before [run]. *)
Fixpoint last_of (pv : option ascii) (run : string) : option ascii :=
  match run with
  | EmptyString => pv
  | String c run' => last_of (Some c) run'
  end.

(** A text without the character [@]. *)
Definition no_at (s : string) : bool :=
  Js.sforall (fun c => negb (Ascii.eqb c at_sign)) s.

(** A bare token: a non-empty run of characters of the bare-mention
    class. *)
Definition bare (tok : string) : bool :=
  negb (Js.is_empty tok) && Js.sforall is_ref_char tok.

(** The character that follows a run, if any, is outside the class. *)
Definition ends_run (p : ascii -> bool) (s : string) : bool :=
  match s with
  | EmptyString => true
  | String c _ => negb (p c)
  end.

(** A list with every element kept at its first occurrence only. *)
Fixpoint dedup (l : list string) : list string :=
  match l with
  | [] => []
  | x :: l' => x :: List.filter (fun y => negb (String.eqb x y)) (dedup l')
  end.

(** The trimmed, non-empty contents of the backtick-wrapped mentions. *)
Definition backtick_tokens (text : string) : list string :=
  List.filter (fun t => negb (Js.is_empty t))
    (map Js.trim (backtick_matches O text)).

(** A text in which no [@] is followed by a backtick. *)
Fixpoint no_at_backtick (s : string) : bool :=
  match s with
  | EmptyString => true
  | String a s' =>
      negb (Ascii.eqb a at_sign
            && match s' with
               | String b _ => Ascii.eqb b backtick
               | EmptyString => false
               end)
      && no_at_backtick s'
  end.

(** The extractor as the specification words it: one scan from left to
    right; a backtick-wrapped mention gives the contents of its span as
    they stand; a bare mention gives the run of characters after [@]
    other than white space, [@] and backtick, without the sentence
    punctuation at its end. *)
Definition is_bare_char (c : ascii) : bool :=
  negb (Js.is_space c || Ascii.eqb c at_sign || Ascii.eqb c backtick).

Fixpoint strip_trailing_punct (s : string) : string :=
  match s with
  | EmptyString => EmptyString
  | String c s' =>
      let r := strip_trailing_punct s' in
      if is_punct c && Js.is_empty r then EmptyString else String c r
  end.

Fixpoint spec_matches (skip : nat) (s : string) : list string :=
  match s with
  | EmptyString => []
  | String c s' =>
      match skip with
      | S k => spec_matches k s'
      | O =>
          match backtick_at s with
          | Some span => span :: spec_matches (S (S (String.length span))) s'
          | None =>
              if Ascii.eqb c at_sign then
                let run := fst (Js.span is_bare_char s') in
                match strip_trailing_punct run with
                | EmptyString => spec_matches (String.length run) s'
                | tok => tok :: spec_matches (String.length run) s'
                end
              else spec_matches O s'
          end
      end
  end.

Definition extract_spec (text : string) : list string :=
  dedup (spec_matches O text).

Definition extraction_as_specified : Prop :=
  forall text, extractFileReferences text = extract_spec text.


(** The stripper as the specification words it: the backtick-wrapped
    mentions are deleted, then the mentions of every extracted token,
    longest token first, where a token boundary follows, then white space
    is collapsed and trimmed. *)
Definition remove_spec (text : string) : string :=
  Js.trim
    (Js.collapse_ws
       (fold_left (fun cleaned ref => remove_ref ref O cleaned)
          (sort_by_length (extractFileReferences text))
          (remove_backticks O text))).

Definition stripping_as_specified : Prop :=
  forall text, removeFileReferences text = remove_spec text.

(** White space in normal form: every white-space character is a single
    space between two other characters.  [after_space] tells that the
    previous character was a space (or that the text starts here). *)
Fixpoint spaced (after_space : bool) (s : string) : bool :=
  match s with
  | EmptyString => negb after_space
  | String c s' =>
      if Js.is_space c then
        Ascii.eqb c " " && negb after_space && spaced true s'
      else spaced false s'
  end.

Definition normalized (s : string) : bool := Js.is_empty s || spaced true s.

(** An element that the set [acc] does not hold yet. *)
Definition absent (acc : list string) (y : string) : bool :=
  negb (existsb (String.eqb y) acc).

(** Longest first. *)
Definition longer_first (a b : string) : Prop :=
  (String.length b <= String.length a)%nat.

(** White space collapsed: every white-space character is one space. *)
Fixpoint single_spaced (after_space : bool) (s : string) : bool :=
  match s with
  | EmptyString => true
  | String c s' =>
      if Js.is_space c then
        Ascii.eqb c " " && negb after_space && single_spaced true s'
      else single_spaced false s'
  end.

(** [A] is a prefix of [B]. *)
Definition prefix_of (A B : string) : Prop := exists X, B = A +:+ X.

(** *** The keyword summary *)

(** How often [w] occurs among the words, and where it occurs first. *)
Definition count (words : list string) (w : string) : nat :=
  count_occ String.string_dec words w.

Fixpoint first_index (w : string) (words : list string) : nat :=
  match words with
  | [] => O
  | x :: words' => if String.eqb x w then O else S (first_index w words')
  end.

(** The ranking as the specification words it: more frequent first, and
    among equally frequent words the one that occurs first. *)
Definition ranked_by_first_occurrence (words : list string)
    (a b : string) : Prop :=
  (count words b < count words a)%nat
  \/ (count words a = count words b
      /\ (first_index a words < first_index b words)%nat).

Definition first_occurrence_ties : Prop :=
  forall message,
    StronglySorted (ranked_by_first_occurrence (context_words message))
      (top_words message).

(** The order of the keys of the counting object: a key that is an array
    index comes before a key that is not; two array indices come in
    numeric order, two other keys in the order of their first
    occurrence. *)
Definition key_before (words : list string) (a b : string) : Prop :=
  match array_index a, array_index b with
  | Some i, Some j => i <= j
  | Some _, None => True
  | None, Some _ => False
  | None, None => (first_index a words < first_index b words)%nat
  end.

(** The ranking of the code: more frequent first, and among equally
    frequent words the one whose key comes first. *)
Definition ranked_before (words : list string) (a b : string) : Prop :=
  (count words b < count words a)%nat
  \/ (count words a = count words b /\ key_before words a b).

(** No word is a name that the counting object inherits. *)
Definition ordinary (words : list string) : bool :=
  forallb (fun w => negb (String.eqb w "constructor")
                    && negb (String.eqb w "__proto__")) words.

(** The counting object after the words [seen], when these are
    ordinary. *)
Definition counted (seen : list string) (w : string) : string * jsval :=
  (w, Num (Z.of_nat (count seen w))).

Definition counts_of (seen : list string) : object :=
  map (counted seen) (dedup seen).

(** The two orders on the entries of the counting object. *)
Definition entry_before (words : list string) (a b : string * jsval)
  : Prop := key_before words (fst a) (fst b).

Definition entry_ranked (words : list string) (a b : string * jsval)
  : Prop := ranked_before words (fst a) (fst b).

Definition earlier (words : list string) (a b : string) : Prop :=
  (first_index a words < first_index b words)%nat.

(** A key that is no array index. *)
Definition is_named (w : string) : bool :=
  match array_index w with Some _ => false | None => true end.

(** The entries with an array index as key, each under its index. *)
Definition tag_le (a b : Z * (string * jsval)) : Prop := fst a <= fst b.

Definition tagged (a : Z * (string * jsval)) : Prop :=
  array_index (fst (snd a)) = Some (fst a).

(** An entry that holds the count of its key. *)
Definition is_counted (words : list string) (e : string * jsval) : Prop :=
  snd e = Num (Z.of_nat (count words (fst e))).

(** The keys of the counting object in the order in which the sort
    leaves them. *)
Definition ranking (words : list string) : list string :=
  map fst (sort_entries (entries (counts_of words))).

(** *** The send path *)

Definition successful (e : event) : bool :=
  match e with
  | Send _ (Reply _ _) => true
  | _ => false
  end.

(** The history in the data file; nothing saved yet counts as empty. *)
Definition saved_history (data : plugin_data) : list Turn :=
  match chat data with
  | Some c => chat_history c
  | None => []
  end.



Definition a_key : Settings :=
  {| perplexityApiKey := "key"; currentModel := "sonar";
     includeCurrentFile := false |}.

Definition new_view : View :=
  {| chatHistory := []; conversation_id := "";
     awaiting_user_response := false; conversation_context := "" |}.

Definition no_data : plugin_data := {| chat := None; other_keys := [] |}.

(** *** The message assembler *)

(** The order of the resolved list as the specification words it: the
    explicit documents first, the temporal document after them. *)
Definition explicit_before_temporal : Prop :=
  forall files today userInput t,
    Dive.check_time_related_query files today userInput = [t] ->
    named_by (extractFileReferences userInput) (name t) = false ->
    fst (included_files files today false None userInput)
    = fst (resolve_references files (extractFileReferences userInput))
      ++ [t].

(** The end-to-end example: 2024-01-06 is the day of the question. *)
Definition example_today : Z := JsDate.days_from_civil 2024 1 6.

Definition example_vault : list TFile :=
  [ {| basename := "Daily Log"; path := "Daily Log.md";
       content := Some "log" |};
    {| basename := "2024-01-05"; path := "2024-01-05.md";
       content := Some "notes of the fifth" |} ].

Definition example_input : string := "@`Daily Log` what happened yesterday".

(** The name YYYY-MM-DD of the note of a day, and a vault that holds
    [Daily Log] and the note of the day before [today]. *)
Definition iso_name (date : Z) : string :=
  Js.of_Z (JsDate.getFullYear date) +:+ "-"
  +:+ Js.padStart2 (Js.of_Z (JsDate.getMonth date + 1)) +:+ "-"
  +:+ Js.padStart2 (Js.of_Z (JsDate.getDate date)).

Definition vault_of (today : Z) (log notes : string) : list TFile :=
  [ {| basename := "Daily Log"; path := "Daily Log.md";
       content := Some log |};
    {| basename := iso_name (today - 1);
       path := iso_name (today - 1) +:+ ".md";
       content := Some notes |} ].

(** *** Calendar dates and their names *)

Definition is_leap (y : Z) : bool :=
  ((y mod 4 =? 0) && negb (y mod 100 =? 0)) || (y mod 400 =? 0).

Definition days_in_month (y m : Z) : Z :=
  if m =? 2 then (if is_leap y then 29 else 28)
  else if (m =? 4) || (m =? 6) || (m =? 9) || (m =? 11) then 30
  else 31.

(** A date of the calendar. *)
Definition valid_date (y m d : Z) : bool :=
  (1 <=? m) && (m <=? 12) && (1 <=? d) && (d <=? days_in_month y m).

(** A year written with four digits. *)
Definition four_digit_year (y : Z) : bool := (1000 <=? y) && (y <=? 9999).

(** The numbers from [lo] on, [n] of them. *)
Definition range (lo : Z) (n : nat) : list Z :=
  map (fun i => lo + Z.of_nat i) (seq 0 n).

(** The check that a date is read back from its day number. *)
Definition reads_back (y m d : Z) : bool :=
  negb (valid_date y m d)
  || match JsDate.civil_from_days (JsDate.days_from_civil y m d) with
     | (y', m', d') => (y' =? y) && (m' =? m) && (d' =? d)
     end.

(** The numeral of [n] has four digits, two digits once padded, or one
    or two digits, and reads back as [n]. *)
Definition year_numeral (n : Z) : bool :=
  match Js.of_Z n with
  | String a (String b (String c (String d EmptyString))) =>
      Js.is_digit a && Js.is_digit b && Js.is_digit c && Js.is_digit d
      && (Js.parseInt (Js.of_Z n) =? n)
  | _ => false
  end.

Definition padded_numeral (n : Z) : bool :=
  match Js.padStart2 (Js.of_Z n) with
  | String a (String b EmptyString) =>
      Js.is_digit a && Js.is_digit b
      && (Js.parseInt (Js.padStart2 (Js.of_Z n)) =? n)
  | _ => false
  end.

Definition short_numeral (n : Z) : bool :=
  match Js.of_Z n with
  | String a EmptyString => Js.is_digit a && (Js.parseInt (Js.of_Z n) =? n)
  | String a (String b EmptyString) =>
      Js.is_digit a && Js.is_digit b && (Js.parseInt (Js.of_Z n) =? n)
  | _ => false
  end.

(** A string of [lo] to [hi] digits. *)
Definition digit_string (lo hi : nat) (s : string) : bool :=
  Js.sforall Js.is_digit s
  && Nat.leb lo (String.length s) && Nat.leb (String.length s) hi.

(** *** Attached documents *)

(** A note that is a file among [files] under its own name and with its
    own content. *)
Definition from_files (files : list TFile) (n : note) : Prop :=
  exists f, In f files /\ name n = basename f
            /\ content f = Some (note_content n).

(** The files that a message can draw from: the vault and the active
    file. *)
Definition sources (files : list TFile) (activeFile : option TFile)
  : list TFile :=
  match activeFile with
  | Some f => f :: files
  | None => files
  end.

(** [s] occurs in [t]. *)
Definition inside (s t : string) : Prop := exists a b, t = a +:+ s +:+ b.

(** A basename without the character [/]. *)
Definition no_slash (f : TFile) : bool :=
  Js.sforall (fun c => negb (Ascii.eqb c "/")) (basename f).

(** The block of a note presented as the daily note of [date_str]. *)
Definition daily_block (date_str content : string) : string :=
  "Your daily note for " +:+ date_str
  +:+ ". This contains your activities and notes for this day:" +:+ nl
  +:+ fence +:+ nl +:+ content +:+ nl +:+ fence +:+ nl +:+ nl.

(** *** Queries without white space *)

Definition no_space (s : string) : bool :=
  Js.sforall (fun c => negb (Js.is_space c)) s.

Definition all_ascii : list ascii := map ascii_of_nat (seq 0 256).

(** A class that holds white space only. *)
Definition only_spaces (p : ascii -> bool) : bool :=
  forallb (fun c => implb (p c) (Js.is_space c)) all_ascii.

(** A pattern whose every match passes a white-space character. *)
Fixpoint needs_space (r : Regex.regex) : bool :=
  match r with
  | Regex.Chr p => only_spaces p
  | Regex.Seq a b => needs_space a || needs_space b
  | Regex.Alt a b => needs_space a && needs_space b
  | Regex.Rep lo hi a =>
      negb (Nat.eqb lo 0) && negb (Nat.eqb hi 0) && needs_space a
  | Regex.Many lo p => negb (Nat.eqb lo 0) && only_spaces p
  | Regex.Grp _ a => needs_space a
  | Regex.Look a => needs_space a
  | _ => false
  end.

(** A continuation that refuses every position of a text without white
    space. *)
Definition refuses (k : Regex.cont) : Prop :=
  forall y cs, no_space (Regex.rest y) = true -> k y cs = None.

(** The loop of a bounded repetition, [m] being the matcher of the
    repeated pattern. *)
Section RepMatch.

Variable m : Regex.pos -> Regex.caps -> Regex.cont
             -> option (Regex.pos * Regex.caps).
Variable k : Regex.cont.

Fixpoint rep_match (n lo : nat) (x : Regex.pos) (cs : Regex.caps)
    {struct n} : option (Regex.pos * Regex.caps) :=
  match n with
  | O => k x cs
  | S n' =>
      let d : Regex.cont := fun y cs' =>
        if Nat.eqb lo 0
           && Nat.eqb (String.length (Regex.rest y))
                (String.length (Regex.rest x))
        then None
        else rep_match n' (Nat.pred lo) y cs' in
      if Nat.eqb lo 0 then
        match m x cs d with
        | Some res => Some res
        | None => k x cs
        end
      else m x cs d
  end.

End RepMatch.

(** *** The data file *)

(** The three keys under which the conversation is stored. *)
Definition chat_keys : list string :=
  ["chat_history"; "conversation_id"; "awaiting_user_response"].

(** The settings object after the assignments [l], made in order. *)
Definition assigned (l : list (string * DataFile.json))
    (settings : DataFile.Data) : DataFile.Data :=
  fold_left (fun s a => DataFile.set_setting (fst a) (snd a) s) l settings.

(** The identifier a view gets from a stored one: a fresh one when the
    stored one is empty. *)
Definition id_or (fresh_id id : string) : string :=
  if Js.is_empty id then fresh_id else id.

(** *** Sessions *)

Definition is_send (e : event) : bool :=
  match e with
  | Send _ _ => true
  | Close => false
  end.

(** The turns that an answered send adds to the history. *)
Definition turns_of (model : string) (e : event) : list Turn :=
  match e with
  | Send message (Reply raw _) =>
      [ {| role := user; turn_content := message |};
        {| role := assistant;
           turn_content := fst (split_reasoning model raw) |} ]
  | _ => []
  end.

(** The awaiting flag in the data file. *)
Definition saved_awaiting (data : plugin_data) : option bool :=
  match chat data with
  | Some c => Some (saved_awaiting_user_response c)
  | None => None
  end.

(** A reply of a reasoning model: the reasoning between the two tags,
    then the answer. *)
Definition reasoned (r c : string) : string :=
  "<think>" +:+ r +:+ "</think>" +:+ c.

Definition no_lt (s : string) : bool :=
  Js.sforall (fun c => negb (Ascii.eqb c "<")) s.

(** *** The input field and the suggestion list *)

(** [n] steps through the suggestion list in one direction. *)
Fixpoint navigate_times (n : nat) (direction : Z) (s : Suggestions)
  : option Suggestions :=
  match n with
  | O => Some s
  | S n' =>
      match navigateSuggestion s direction with
      | Some s' => navigate_times n' direction s'
      | None => None
      end
  end.

(** The suggestion list of [s] with the item [i] selected. *)
Definition selected (s : Suggestions) (i : Z) : Suggestions :=
  {| fileSuggestions := fileSuggestions s; currentSuggestionIndex := i |}.

Definition no_newline (s : string) : bool :=
  Js.sforall (fun c => negb (Ascii.eqb c (ascii_of_nat 10))) s.

(** A paragraph: a text that holds no empty line and does not end in a
    line break. *)
Definition paragraph (s : string) : bool :=
  negb (Js.includes (s +:+ nl) blank_line).

(** An input field holding [text], the cursor at its end. *)
Definition field_with (text : string) : InputField :=
  {| value := text; selectionStart := Z.of_nat (String.length text) |}.

(** *** The title of a note *)

(** A text with every run of white space turned into [repl]. *)
Fixpoint collapse_with (repl : string) (in_ws : bool) (s : string) : string :=
  match s with
  | EmptyString => EmptyString
  | String c s' =>
      if Js.is_space c then
        if in_ws then collapse_with repl true s'
        else repl +:+ collapse_with repl true s'
      else String c (collapse_with repl false s')
  end.

(** Some character of the text is in the class. *)
Fixpoint sexists (p : ascii -> bool) (s : string) : bool :=
  match s with
  | EmptyString => false
  | String c s' => p c || sexists p s'
  end.

(** A name free of the characters that the title drops. *)
Definition unreserved (s : string) : bool :=
  Js.sforall (fun c => negb (is_reserved c)) s.

(** *** Questions about a weekday *)

Definition question_verbs : list string :=
  ["did"; "happened"; "occurred"; "took place"].

(** The questions [what <verb> this <day>] and
    [tell me about this <day>]. *)
Definition what_this (verb day : string) : string :=
  "what " +:+ verb +:+ " this " +:+ day.

Definition tell_this (day : string) : string := "tell me about this " +:+ day.

(** The keys of a counting object. *)
Definition keys (o : object) : list string := map fst o.

End Statements.

(** * Properties *)

(** ** Calendar arithmetic *)

Module JsDateFacts.

Import JsDate.

(** The day number is recovered from the civil date it decodes to. *)
Lemma civil_round_trip (n : Z) :
  let '(y, m, d) := civil_from_days n in
  days_from_civil y m 1 + (d - 1) = n /\ 1 <= m <= 12 /\ 1 <= d <= 31.
Proof.
  unfold civil_from_days, days_from_civil; cbv zeta.
  repeat match goal with
         | |- context [if ?b then _ else _] => destruct b eqn:?
         end;
    Z.div_mod_to_equations; lia.
Qed.

(** [t.setDate(t.getDate() + k)] moves [t] by [k] days. *)
Lemma setDate_shift (t k : Z) : setDate t (getDate t + k) = t + k.
Proof.
  unfold setDate, MakeDay, getFullYear, getMonth, getDate.
  pose proof (civil_round_trip t) as H.
  destruct (civil_from_days t) as [[y m] d]; cbn [fst snd].
  destruct H as (H & Hm & _).
  replace ((m - 1) / 12) with 0 by (Z.div_mod_to_equations; lia).
  replace ((m - 1) mod 12 + 1) with m by (Z.div_mod_to_equations; lia).
  replace (y + 0) with y by lia.
  lia.
Qed.

Lemma getDay_range (t : Z) : 0 <= getDay t <= 6.
Proof. unfold getDay. Z.div_mod_to_equations. lia. Qed.

End JsDateFacts.

Module DayOfWeek.

Import Regex JsDate Dive JsDateFacts.




End DayOfWeek.

(** ** The temporal resolver *)

Module Resolver.

Import Regex JsDate Dive JsDateFacts.

Lemma test_exec (r : regex) (s : string) :
  test r s = true <-> exists m, exec r s = Some m.
Proof.
  unfold test. destruct (exec r s); split; eauto; try discriminate.
  intros [m H]; discriminate.
Qed.

Lemma test_false_exec (r : regex) (s : string) :
  test r s = false <-> exec r s = None.
Proof.
  unfold test. destruct (exec r s); split; congruence.
Qed.

(** C3.  The resolver tries its categories in the order yesterday, today,
    explicit date literal, day of week, and only the first one whose
    pattern matches is used: a yesterday match gives the day before today;
    otherwise a today match gives today; otherwise a literal match gives
    whatever the captured literal parses to, and nothing when it does not
    parse, whether or not the day-of-week pattern matches as well;
    otherwise a day-of-week match gives the date of that weekday; and
    without any match there is no date. *)
Theorem target_date_priority (today : Z) (query : string) :
  (test yesterday_pattern query = true ->
   target_date today query = Some (today - 1))
  /\ (test yesterday_pattern query = false ->
      test today_pattern query = true ->
      target_date today query = Some today)
  /\ (test yesterday_pattern query = false ->
      test today_pattern query = false ->
      forall m, exec specific_date_pattern query = Some m ->
      target_date today query = date_of_literal m
      /\ (forall g, group 1 m = Some g -> parse_date_string g = None ->
          target_date today query = None))
  /\ (test yesterday_pattern query = false ->
      test today_pattern query = false ->
      test specific_date_pattern query = false ->
      forall m, exec day_of_week_pattern query = Some m ->
      target_date today query = date_of_weekday today m)
  /\ (test yesterday_pattern query = false ->
      test today_pattern query = false ->
      test specific_date_pattern query = false ->
      test day_of_week_pattern query = false ->
      target_date today query = None)
  /\ (test specific_date_pattern Statements.bad_literal_query = true
      /\ test day_of_week_pattern Statements.bad_literal_query = true
      /\ target_date today Statements.bad_literal_query = None).
Proof.
  unfold target_date.
  repeat apply conj.
  - intros ->. f_equal.
    replace (getDate today - 1) with (getDate today + -1) by lia.
    rewrite setDate_shift. lia.
  - intros -> ->. reflexivity.
  - intros -> -> m Hm.
    assert (Ht : test specific_date_pattern query = true)
      by (apply test_exec; eauto).
    rewrite Ht, Hm. split; [reflexivity|].
    intros g Hg Hparse. unfold date_of_literal. rewrite Hg.
    destruct g; cbn [truthy]; [reflexivity | exact Hparse].
  - intros -> -> -> m Hm.
    assert (Ht : test day_of_week_pattern query = true)
      by (apply test_exec; eauto).
    rewrite Ht, Hm. reflexivity.
  - intros -> -> -> ->. reflexivity.
  - vm_compute. reflexivity.
  - vm_compute. reflexivity.
  - assert (H1 : test yesterday_pattern Statements.bad_literal_query = false)
      by (vm_compute; reflexivity).
    assert (H2 : test today_pattern Statements.bad_literal_query = false)
      by (vm_compute; reflexivity).
    assert (H3 : test specific_date_pattern Statements.bad_literal_query = true)
      by (vm_compute; reflexivity).
    rewrite H1, H2, H3. vm_compute. reflexivity.
Qed.

(** C4.  The slash form with month 13 is not rejected: the month carries
    into the next year and the literal parses to 5 January 2025, while
    the same month in the ISO form parses to nothing; a two-digit year
    [yy] is read as 2000 + [yy]. *)
Theorem parse_date_string_month_13 :
  parse_date_string "13/5/2024" = Some (days_from_civil 2025 1 5)
  /\ parse_date_string "13-5-24" = Some (days_from_civil 2025 1 5)
  /\ parse_date_string "2024-13-05" = None
  /\ parse_date_string "1/5/24" = Some (days_from_civil 2024 1 5).
Proof. repeat split; vm_compute; reflexivity. Qed.

End Resolver.

(** ** The note locator *)

Module Locator.

Import JsDate Dive.

Lemma foldl_file_map_lookup (files : list TFile) (m : gmap string TFile)
    (k : string) (f : TFile) :
  foldl (fun m f => <[Js.toLowerCase (basename f) := f]> m) m files !! k
  = Some f ->
  m !! k = Some f \/ (In f files /\ Js.toLowerCase (basename f) = k).
Proof.
  revert m. induction files as [|g files IH]; intros m; cbn [foldl].
  - auto.
  - intros H. apply IH in H as [H|[H1 H2]].
    + destruct (decide (Js.toLowerCase (basename g) = k)) as [E|E].
      * subst k. rewrite lookup_insert_eq in H. inversion H; subst.
        right. split; [left|]; reflexivity.
      * rewrite lookup_insert_ne in H by exact E. auto.
    + right. split; [right|]; assumption.
Qed.


(** A lookup in the index hits exactly the lower-cased basenames of the
    vault, and returns a file with that lower-cased basename. *)
Lemma build_file_map_lookup (files : list TFile) (k : string) (f : TFile) :
  build_file_map files !! k = Some f ->
  In f files /\ Js.toLowerCase (basename f) = k.
Proof.
  intros H. apply foldl_file_map_lookup in H as [H|H]; [|exact H].
  rewrite lookup_empty in H. discriminate.
Qed.


Lemma build_file_map_miss (files : list TFile) (k : string) :
  (forall g, In g files -> Js.toLowerCase (basename g) <> k) ->
  build_file_map files !! k = None.
Proof.
  intros H. destruct (build_file_map files !! k) as [f|] eqn:E; [|reflexivity].
  apply build_file_map_lookup in E as [E1 E2]. elim (H f E1 E2).
Qed.


Lemma first_note_sound (m : gmap string TFile) (fmts : list string)
    (n : note) :
  first_note m fmts = Some n ->
  exists fmt f, In fmt fmts /\ m !! Js.toLowerCase fmt = Some f
                /\ name n = basename f /\ content f = Some (note_content n).
Proof.
  induction fmts as [|fmt fmts IH]; cbn [first_note]; [discriminate|].
  intros H.
  destruct (m !! Js.toLowerCase fmt) as [f|] eqn:E.
  - destruct (content f) as [c|] eqn:Ec.
    + inversion H; subst; clear H. exists fmt, f. cbn. auto.
    + destruct (IH H) as (fmt' & f' & H1 & H2). exists fmt', f'. cbn. auto.
  - destruct (IH H) as (fmt' & f' & H1 & H2). exists fmt', f'. cbn. auto.
Qed.


(** The two cases of the locator on a small vault, and the lookup
    regardless of case. *)
Example find_daily_note_hit :
  find_daily_note
    [ {| basename := "Daily Log"; path := "Daily Log.md";
         content := Some "log" |};
      {| basename := "2024-01-05"; path := "2024-01-05.md";
         content := Some "notes" |} ]
    (days_from_civil 2024 1 5)
  = Some {| name := "2024-01-05"; note_content := "notes" |}.
Proof. vm_compute. reflexivity. Qed.

Example find_daily_note_miss :
  find_daily_note
    [ {| basename := "Daily Log"; path := "Daily Log.md";
         content := Some "log" |} ]
    (days_from_civil 2024 1 5)
  = None.
Proof. vm_compute. reflexivity. Qed.

Example find_daily_note_case :
  find_daily_note
    [ {| basename := "Journal/2024-01-05"; path := "j.md";
         content := Some "journal" |};
      {| basename := "DAILY/2024-01-05"; path := "d.md";
         content := Some "daily" |} ]
    (days_from_civil 2024 1 5)
  = Some {| name := "DAILY/2024-01-05"; note_content := "daily" |}.
Proof. vm_compute. reflexivity. Qed.

End Locator.

(** ** Sending and saving *)

Module Chat.

Import DiveView Statements.




End Chat.

(** ** The message assembler *)

Module Assembler.

Import DiveView Statements.

(** The claim as worded fails on the end-to-end example: the note of the
    day before comes first, the explicitly mentioned file second. *)
Lemma explicit_before_temporal_fails : ~ explicit_before_temporal.
Proof.
  intros H.
  specialize (H example_vault example_today example_input
                {| name := "2024-01-05";
                   note_content := "notes of the fifth" |}
                eq_refl eq_refl).
  vm_compute in H. discriminate H.
Qed.

Lemma of_Z_head (n : Z) :
  exists c s,
    Js.of_Z n = String c s /\ (Js.is_digit c = true \/ c = "-"%char).
Proof.
  unfold Js.of_Z. destruct (Z.to_int n) as [d|d].
  - destruct d; cbn; eauto 6.
  - cbn. eauto 6.
Qed.

Lemma digit_not_d (c : ascii) :
  Js.is_digit c = true \/ c = "-"%char ->
  Ascii.eqb "d" (Js.lower_char c) = false.
Proof.
  intros [H| ->]; [|reflexivity].
  destruct c as [[] [] [] [] [] [] [] []]; try discriminate H; reflexivity.
Qed.

(** A note named YYYY-MM-DD is not named by the token [Daily Log]. *)
Lemma iso_name_not_daily_log (date : Z) :
  named_by ["Daily Log"] (iso_name date) = false.
Proof.
  unfold named_by, same_name, iso_name. cbn [existsb].
  destruct (of_Z_head (JsDate.getFullYear date)) as (c & s & -> & Hc).
  rewrite orb_false_r.
  change (Js.toLowerCase "Daily Log") with "daily log".
  change (String c s +:+ ?x) with (String c (s +:+ x)).
  cbn [Js.toLowerCase Js.smap String.eqb].
  now rewrite (digit_not_d c Hc).
Qed.

(** The end-to-end example on any day. *)
Lemma daily_log_yesterday (today : Z) (log notes : string) :
  fst (included_files (vault_of today log notes) today false None
         example_input)
  = [ {| name := iso_name (today - 1); note_content := notes |};
      {| name := "Daily Log"; note_content := log |} ].
Proof.
  assert (Hq : Dive.check_time_related_query (vault_of today log notes) today
                 example_input
               = [{| name := iso_name (today - 1); note_content := notes |}]).
  { unfold Dive.check_time_related_query, Dive.target_date.
    replace (Regex.test Dive.yesterday_pattern example_input) with true
      by (vm_compute; reflexivity).
    replace (JsDate.getDate today - 1) with (JsDate.getDate today + -1)
      by lia.
    rewrite JsDateFacts.setDate_shift.
    replace (today + -1) with (today - 1) by lia.
    unfold Dive.find_daily_note, Dive.build_file_map, vault_of.
    cbn [foldl basename].
    change (Dive.formats (today - 1))
      with (iso_name (today - 1) :: tl (Dive.formats (today - 1))).
    cbn [Dive.first_note]. rewrite lookup_insert_eq. reflexivity. }
  assert (He : extractFileReferences example_input = ["Daily Log"])
    by (vm_compute; reflexivity).
  unfold included_files. rewrite Hq, He.
  unfold time_related. cbn [List.filter name].
  rewrite iso_name_not_daily_log.
  unfold vault_of.
  cbn [resolve_references resolve_reference find basename content
       current_file fst negb app].
  replace (same_name "Daily Log" "Daily Log") with true
    by (vm_compute; reflexivity).
  reflexivity.
Qed.

(** C1, amended.  When the temporal resolution locates a document that no
    mention token names, the resolved list is that document first, then
    the documents of the explicit mentions in token order, then the
    current file if it is included.  For the input
    [@`Daily Log` what happened yesterday] over a vault holding
    [Daily Log] and the note of the day before, the resolved list is the
    note of the day before followed by [Daily Log], whatever the day,
    and the display text is [what happened yesterday]. *)
Theorem temporal_before_explicit (files : list TFile) (today : Z)
    (include : bool) (activeFile : option TFile) (userInput : string)
    (t : note) :
  Dive.check_time_related_query files today userInput = [t] ->
  named_by (extractFileReferences userInput) (name t) = false ->
  fst (included_files files today include activeFile userInput)
  = t :: fst (resolve_references files (extractFileReferences userInput))
      ++ fst (current_file include activeFile
                (extractFileReferences userInput))
  /\ (forall day log notes,
        fst (included_files (vault_of day log notes) day false None
               example_input)
        = [ {| name := iso_name (day - 1); note_content := notes |};
            {| name := "Daily Log"; note_content := log |} ])
  /\ displayText (prepareMessage example_vault example_today a_key None
                    new_view example_input)
     = WithFiles "what happened yesterday" ["2024-01-05"; "Daily Log"].
Proof.
  intros Ht Hnamed.
  split; [|split; [apply daily_log_yesterday|vm_compute; reflexivity]].
  unfold included_files. rewrite Ht.
  destruct (resolve_references files (extractFileReferences userInput))
    as [explicit shown].
  destruct (current_file include activeFile (extractFileReferences userInput))
    as [current shown'].
  cbn [fst time_related List.filter]. rewrite Hnamed. reflexivity.
Qed.

Lemma temporal_before_explicit_witness :
  fst (included_files example_vault example_today false None example_input)
  = [ {| name := "2024-01-05"; note_content := "notes of the fifth" |};
      {| name := "Daily Log"; note_content := "log" |} ].
Proof.
  exact (proj1 (temporal_before_explicit example_vault example_today false
                  None example_input
                  {| name := "2024-01-05";
                     note_content := "notes of the fifth" |}
                  eq_refl eq_refl)).
Defined.

End Assembler.

(** ** Mentions *)

Module Mentions.

Import Regex DiveView Scan Statements.

Local Arguments String.append : simpl nomatch.

(** *** Strings *)

Lemma sforall_app (p : ascii -> bool) (a b : string) :
  Js.sforall p (a +:+ b) = Js.sforall p a && Js.sforall p b.
Proof.
  induction a as [|c a IH]; simpl; [reflexivity|].
  rewrite IH. apply andb_assoc.
Qed.

Lemma app_assoc_s (a b c : string) : (a +:+ b) +:+ c = a +:+ (b +:+ c).
Proof. induction a as [|x a IH]; simpl; [reflexivity|]. now rewrite IH. Qed.

Lemma app_nil_r_s (a : string) : a +:+ "" = a.
Proof. induction a as [|x a IH]; simpl; [reflexivity|]. now rewrite IH. Qed.

Lemma length_app_s (a b : string) :
  String.length (a +:+ b) = (String.length a + String.length b)%nat.
Proof. induction a as [|x a IH]; simpl; [reflexivity|]. now rewrite IH. Qed.

Lemma strip_prefix_app (p s : string) : Js.strip_prefix p (p +:+ s) = Some s.
Proof.
  induction p as [|c p IH]; simpl; [reflexivity|].
  now rewrite Ascii.eqb_refl.
Qed.

Lemma strip_prefix_Some (p s r : string) :
  Js.strip_prefix p s = Some r -> s = p +:+ r.
Proof.
  revert s. induction p as [|c p IH]; intros s; cbn.
  - now intros [= ->].
  - destruct s as [|d s]; [discriminate|].
    destruct (Ascii.eqb c d) eqn:E; [|discriminate].
    apply Ascii.eqb_eq in E as ->. intros H. now rewrite (IH _ H).
Qed.

(** [span] cuts the text after the longest run of the class. *)
Lemma span_spec (p : ascii -> bool) (s : string) :
  s = fst (Js.span p s) +:+ snd (Js.span p s)
  /\ Js.sforall p (fst (Js.span p s)) = true
  /\ ends_run p (snd (Js.span p s)) = true.
Proof.
  induction s as [|c s (IH1 & IH2 & IH3)]; cbn; [auto|].
  destruct (p c) eqn:E.
  - destruct (Js.span p s) as [a b]; cbn in *.
    rewrite E. split; [now f_equal|auto].
  - cbn. rewrite E. auto.
Qed.

Lemma span_run (p : ascii -> bool) (a b : string) :
  Js.sforall p a = true -> ends_run p b = true ->
  Js.span p (a +:+ b) = (a, b).
Proof.
  intros Ha Hb. induction a as [|c a IH]; cbn in *.
  - destruct b as [|d b]; cbn in *; [reflexivity|].
    destruct (p d); [discriminate|reflexivity].
  - apply andb_prop in Ha as [Hc Ha]. rewrite Hc, (IH Ha). reflexivity.
Qed.

(** *** The matcher on the mention patterns *)

Lemma take_app (a b : string) : take (String.length a) (a +:+ b) = a.
Proof. induction a as [|c a IH]; simpl; [now destruct b|now rewrite IH]. Qed.

Lemma consumed_app (a b : string) : consumed (a +:+ b) b = a.
Proof.
  unfold consumed. rewrite length_app_s.
  replace (String.length a + String.length b - String.length b)%nat
    with (String.length a) by lia.
  apply take_app.
Qed.

(** A greedy run ends behind the longest run when the continuation
    accepts there. *)
Lemma many_match_greedy (lo : nat) (p : ascii -> bool) (k : cont)
    (cs : caps) (s : string) (pv : option ascii) (n : nat)
    (res : pos * caps) :
  (lo <= n + String.length (fst (Js.span p s)))%nat ->
  k (Pos (last_of pv (fst (Js.span p s))) (snd (Js.span p s))) cs
  = Some res ->
  many_match lo p k cs s pv n = Some res.
Proof.
  revert pv n. induction s as [|c s IH]; intros pv n; cbn [many_match Js.span].
  - cbn [fst snd String.length last_of]. intros Hlo Hk.
    apply Nat.leb_le in Hlo. rewrite Nat.add_0_r in Hlo. now rewrite Hlo.
  - destruct (p c) eqn:E.
    + destruct (Js.span p s) as [run after] eqn:Es.
      cbn [fst snd String.length last_of] in *. intros Hlo Hk.
      rewrite (IH (Some c) (S n)); [reflexivity|lia|exact Hk].
    + cbn [fst snd String.length last_of]. intros Hlo Hk.
      apply Nat.leb_le in Hlo. rewrite Nat.add_0_r in Hlo. now rewrite Hlo.
Qed.

(** A run that is too short does not match. *)
Lemma many_match_short (lo : nat) (p : ascii -> bool) (k : cont)
    (cs : caps) (s : string) (pv : option ascii) (n : nat) :
  (n + String.length (fst (Js.span p s)) < lo)%nat ->
  many_match lo p k cs s pv n = None.
Proof.
  revert pv n. induction s as [|c s IH]; intros pv n; cbn [many_match Js.span].
  - cbn [fst String.length]. intros H.
    assert (E : Nat.leb lo n = false) by (apply Nat.leb_gt; lia).
    now rewrite E.
  - destruct (p c) eqn:Ep.
    + destruct (Js.span p s) as [run after] eqn:Es.
      cbn [fst String.length] in *. intros H.
      rewrite (IH (Some c) (S n)) by lia.
      assert (E : Nat.leb lo n = false) by (apply Nat.leb_gt; lia).
      now rewrite E.
    + cbn [fst String.length]. intros H.
      assert (E : Nat.leb lo n = false) by (apply Nat.leb_gt; lia).
      now rewrite E.
Qed.

(** When the continuation refuses every position in front of a character
    of the class, only the end of the longest run can match. *)
Lemma many_match_blocked (lo : nat) (p : ascii -> bool) (k : cont)
    (cs : caps) (s : string) (pv : option ascii) (n : nat) :
  (forall pv' c r, p c = true -> k (Pos pv' (String c r)) cs = None) ->
  many_match lo p k cs s pv n
  = if Nat.leb lo (n + String.length (fst (Js.span p s)))
    then k (Pos (last_of pv (fst (Js.span p s))) (snd (Js.span p s))) cs
    else None.
Proof.
  intros Hk. revert pv n.
  induction s as [|c s IH]; intros pv n; cbn [many_match Js.span].
  - cbn [fst snd String.length last_of]. now rewrite Nat.add_0_r.
  - destruct (p c) eqn:Ep.
    + rewrite (IH (Some c) (S n)).
      destruct (Js.span p s) as [run after] eqn:Es.
      cbn [fst snd String.length last_of].
      replace (n + S (String.length run))%nat
        with (S n + String.length run)%nat by lia.
      destruct (Nat.leb lo (S n + String.length run));
        [destruct (k _ cs); [reflexivity|]|];
        rewrite (Hk pv c s Ep); now destruct (Nat.leb lo n).
    + cbn [fst snd String.length last_of]. now rewrite Nat.add_0_r.
Qed.

Lemma ends_run_not_backtick (s : string) :
  ends_run not_backtick s = true ->
  s = "" \/ exists post, s = String backtick post.
Proof.
  destruct s as [|c s]; cbn; [auto|].
  unfold not_backtick. rewrite negb_involutive. intros E.
  apply Ascii.eqb_eq in E as ->. eauto.
Qed.

(** The backtick pattern at the head of a text. *)
Lemma rmatch_backtick (pv : option ascii) (s : string) :
  match backtick_at s with
  | Some span =>
      exists post,
        s = wrapped span +:+ post
        /\ rmatch backtick_regex (Pos pv s) [] accept
           = Some (Pos (Some backtick) post, [(1%nat, span)])
  | None => rmatch backtick_regex (Pos pv s) [] accept = None
  end.
Proof.
  unfold backtick_at, backtick_regex. cbn [seqs rmatch rest prev].
  destruct s as [|a [|b r]]; [reflexivity| |].
  - rewrite (Ascii.eqb_sym at_sign a). now destruct (Ascii.eqb a at_sign).
  - rewrite (Ascii.eqb_sym at_sign a), (Ascii.eqb_sym backtick b).
    destruct (Ascii.eqb a at_sign) eqn:Ea; [|reflexivity].
    destruct (Ascii.eqb b backtick) eqn:Eb; [|reflexivity].
    cbn [andb]. apply Ascii.eqb_eq in Ea, Eb. subst a b.
    rewrite many_match_blocked.
    2:{ intros pv' c r' Hc. cbn [rmatch rest].
        unfold not_backtick in Hc. apply negb_true_iff in Hc.
        now rewrite Ascii.eqb_sym, Hc. }
    pose proof (span_spec not_backtick r) as (H1 & H2 & H3).
    destruct (Js.span not_backtick r) as [run after]; cbn [fst snd] in *.
    destruct run as [|c run].
    + reflexivity.
    + cbn [String.length Nat.add Nat.leb].
      apply ends_run_not_backtick in H3 as [->|[post ->]].
      * reflexivity.
      * cbn [rmatch rest]. rewrite Ascii.eqb_refl.
        exists post. split.
        -- unfold wrapped. simpl. rewrite H1. simpl.
           now rewrite app_assoc_s.
        -- unfold accept. rewrite H1. now rewrite consumed_app.
Qed.

(** The bare pattern at the head of a text. *)
Lemma rmatch_simple (pv : option ascii) (s : string) :
  match simple_at s with
  | Some tok =>
      exists post y,
        s = String at_sign tok +:+ post
        /\ rest y = post
        /\ rmatch simple_regex (Pos pv s) [] accept
           = Some (y, [(1%nat, tok)])
  | None => rmatch simple_regex (Pos pv s) [] accept = None
  end.
Proof.
  unfold simple_at, simple_regex. cbn [seqs rmatch rest prev].
  destruct s as [|a r]; [reflexivity|].
  rewrite (Ascii.eqb_sym at_sign a).
  destruct (Ascii.eqb a at_sign) eqn:Ea; [|reflexivity].
  apply Ascii.eqb_eq in Ea. subst a.
  pose proof (span_spec is_ref_char r) as (H1 & H2 & H3).
  destruct (fst (Js.span is_ref_char r)) as [|c run] eqn:Erun.
  - apply many_match_short. rewrite Erun. cbn. lia.
  - exists (snd (Js.span is_ref_char r)).
    eexists (Pos _ (snd (Js.span is_ref_char r))).
    split; [simpl; now f_equal|]. split; [reflexivity|].
    assert (Hc : consumed r (snd (Js.span is_ref_char r)) = String c run)
      by (rewrite H1 at 1; apply consumed_app).
    apply many_match_greedy; [rewrite Erun; cbn; lia|].
    unfold accept. cbn [rest]. now rewrite Erun, Hc.
Qed.

(** A literal. *)
Lemma rmatch_lit_cs (p : string) (x : pos) (cs : caps) (k : cont) :
  rmatch (lit_cs p) x cs k
  = match Js.strip_prefix p (rest x) with
    | Some r => k (Pos (last_of (prev x) p) r) cs
    | None => None
    end.
Proof.
  revert x. induction p as [|c p IH]; intros [pv s]; [reflexivity|].
  destruct p as [|c' p'].
  - cbn [lit_cs rmatch rest prev Js.strip_prefix last_of].
    destruct s as [|d s]; [reflexivity|].
    destruct (Ascii.eqb c d) eqn:E; [|reflexivity].
    apply Ascii.eqb_eq in E. now subst.
  - change (lit_cs (String c (String c' p')))
      with (Seq (Chr (Ascii.eqb c)) (lit_cs (String c' p'))).
    cbn [rmatch rest prev]. destruct s as [|d s]; [reflexivity|].
    cbn [Js.strip_prefix].
    destruct (Ascii.eqb c d) eqn:E; [|reflexivity].
    apply Ascii.eqb_eq in E. subst d. rewrite IH. reflexivity.
Qed.

(** The pattern of a reference at the head of a text. *)
Lemma rmatch_ref (ref : string) (pv : option ascii) (s : string) :
  rmatch (ref_regex ref) (Pos pv s) [] accept
  = match Js.strip_prefix (String at_sign ref) s with
    | Some after =>
        if at_boundary after
        then Some (Pos (last_of pv (String at_sign ref)) after, [])
        else None
    | None => None
    end.
Proof.
  unfold ref_regex. cbn [seqs]. cbn [rmatch]. rewrite rmatch_lit_cs.
  cbn [rest prev].
  destruct (Js.strip_prefix (String at_sign ref) s) as [after|]; [|reflexivity].
  cbn [alts rmatch rest]. unfold at_boundary.
  destruct after as [|c after]; [reflexivity|].
  destruct (Js.is_space c); [reflexivity|].
  now destruct (is_punct c).
Qed.

Lemma length_wrapped (span : string) :
  String.length (wrapped span) = S (S (S (String.length span))).
Proof. unfold wrapped. simpl. rewrite length_app_s. simpl. lia. Qed.

(** The two loops of the extractor see the matches of the scanners. *)
Lemma exec_all_backtick (s : string) (k : nat) (pv : option ascii) :
  first_groups (exec_all backtick_regex k pv s) = backtick_matches k s.
Proof.
  revert k pv. induction s as [|c s IH]; intros k pv; [reflexivity|].
  cbn [exec_all backtick_matches]. destruct k; [|apply IH].
  pose proof (rmatch_backtick pv (String c s)) as H.
  destruct (backtick_at (String c s)) as [span|].
  - destruct H as (post & E & ->). cbn [rest].
    assert (Hc : consumed (String c s) post = wrapped span)
      by (rewrite E at 1; apply consumed_app).
    rewrite !Hc, length_wrapped. cbn [Nat.pred].
    unfold first_groups at 1. cbn [map snd capture Nat.eqb]. f_equal.
    apply IH.
  - rewrite H. apply IH.
Qed.

Lemma exec_all_simple (s : string) (k : nat) (pv : option ascii) :
  first_groups (exec_all simple_regex k pv s) = simple_matches k s.
Proof.
  revert k pv. induction s as [|c s IH]; intros k pv; [reflexivity|].
  cbn [exec_all simple_matches]. destruct k; [|apply IH].
  pose proof (rmatch_simple pv (String c s)) as H.
  destruct (simple_at (String c s)) as [tok|].
  - destruct H as (post & y & E & Ey & ->). rewrite Ey.
    assert (Hc : consumed (String c s) post = String at_sign tok)
      by (rewrite E at 1; apply consumed_app).
    rewrite !Hc. cbn [String.length Nat.pred].
    unfold first_groups at 1. cbn [map snd capture Nat.eqb]. f_equal.
    apply IH.
  - rewrite H. apply IH.
Qed.

(** The extractor is the scanner. *)
Lemma extract_scan (text : string) :
  extractFileReferences text = Scan.extract text.
Proof.
  unfold extractFileReferences, Scan.extract.
  now rewrite exec_all_backtick, exec_all_simple.
Qed.

(** The three replacements of the stripper are the scanners. *)
Lemma replace_all_backtick (s : string) (k : nat) (pv : option ascii) :
  replace_all backtick_regex "" k pv s = remove_backticks k s.
Proof.
  revert k pv. induction s as [|c s IH]; intros k pv; [reflexivity|].
  cbn [replace_all remove_backticks]. destruct k; [|apply IH].
  pose proof (rmatch_backtick pv (String c s)) as H.
  destruct (backtick_at (String c s)) as [span|].
  - destruct H as (post & E & ->). cbn [rest].
    assert (Hc : consumed (String c s) post = wrapped span)
      by (rewrite E at 1; apply consumed_app).
    rewrite Hc, length_wrapped. cbn [Nat.pred]. apply IH.
  - rewrite H. now rewrite IH.
Qed.

Lemma replace_all_ref (ref s : string) (k : nat) (pv : option ascii) :
  replace_all (ref_regex ref) "" k pv s = remove_ref ref k s.
Proof.
  revert k pv. induction s as [|c s IH]; intros k pv; [reflexivity|].
  cbn [replace_all remove_ref]. destruct k; [|apply IH].
  rewrite rmatch_ref. unfold ref_at.
  destruct (Js.strip_prefix (String at_sign ref) (String c s))
    as [after|] eqn:E; [|now rewrite IH].
  destruct (at_boundary after); [|now rewrite IH].
  cbn [rest]. apply strip_prefix_Some in E.
  assert (Hc : consumed (String c s) after = String at_sign ref)
    by (rewrite E at 1; apply consumed_app).
  rewrite Hc. cbn [String.length Nat.pred]. apply IH.
Qed.

Lemma replace_all_skip (r : regex) (repl run after : string)
    (pv : option ascii) :
  exists pv',
    replace_all r repl (String.length run) pv (run +:+ after)
    = replace_all r repl O pv' after.
Proof.
  revert pv. induction run as [|c run IH]; intros pv; [now exists pv|].
  simpl. apply IH.
Qed.

Lemma collapse_run (run after : string) :
  Js.sforall Js.is_space run = true -> ends_run Js.is_space after = true ->
  Js.collapse_ws_from true (run +:+ after) = Js.collapse_ws_from false after.
Proof.
  intros Hrun Hafter. induction run as [|c run IH].
  - destruct after as [|d after]; [reflexivity|]. cbn in *.
    now destruct (Js.is_space d).
  - cbn [Js.sforall] in Hrun. apply andb_prop in Hrun as [Hc Hrun].
    simpl. rewrite Hc. now apply IH.
Qed.

(** [\s+] at the head of a text. *)
Lemma rmatch_ws1 (pv : option ascii) (s : string) :
  rmatch ws1 (Pos pv s) [] accept
  = match fst (Js.span Js.is_space s) with
    | EmptyString => None
    | String c run =>
        Some (Pos (last_of pv (String c run)) (snd (Js.span Js.is_space s)),
              [])
    end.
Proof.
  unfold ws1. cbn [rmatch rest prev].
  destruct (fst (Js.span Js.is_space s)) as [|c run] eqn:E.
  - apply many_match_short. rewrite E. cbn. lia.
  - apply many_match_greedy; [rewrite E; cbn; lia|].
    now rewrite E.
Qed.

Lemma replace_all_spaces_le (n : nat) (s : string) (pv : option ascii) :
  (String.length s <= n)%nat ->
  replace_all ws1 " " O pv s = Js.collapse_ws_from false s.
Proof.
  revert s pv. induction n as [|n IH]; intros s pv Hn.
  - destruct s; [reflexivity|cbn in Hn; lia].
  - destruct s as [|c s]; [reflexivity|].
    cbn [replace_all Js.collapse_ws_from]. rewrite rmatch_ws1.
    cbn [Js.span]. cbn [String.length] in Hn.
    destruct (Js.is_space c) eqn:Ec.
    + pose proof (span_spec Js.is_space s) as (H1 & H2 & H3).
      destruct (Js.span Js.is_space s) as [run after]; cbn [fst snd] in *.
      cbn [rest].
      assert (Hc : consumed (String c s) after = String c run).
      { rewrite H1 at 1. apply (consumed_app (String c run) after). }
      rewrite Hc. cbn [String.length Nat.pred].
      destruct (replace_all_skip ws1 " " run after (Some c)) as [pv' E].
      rewrite H1. rewrite E, IH.
      * now rewrite collapse_run.
      * rewrite H1, length_app_s in Hn. lia.
    + cbn [fst]. rewrite IH; [reflexivity|lia].
Qed.

Lemma replace_all_spaces (s : string) :
  replace_all ws1 " " O None s = Js.collapse_ws s.
Proof. now apply (replace_all_spaces_le (String.length s)). Qed.

Lemma strip_ref_scan (text cleaned ref : string) :
  strip_ref text cleaned ref = Scan.strip text cleaned ref.
Proof. unfold strip_ref, Scan.strip. now rewrite replace_all_ref. Qed.

Lemma fold_strip_ref_scan (text : string) (refs : list string)
    (cleaned : string) :
  fold_left (strip_ref text) refs cleaned
  = fold_left (Scan.strip text) refs cleaned.
Proof.
  revert cleaned. induction refs as [|r refs IH]; intros cleaned; cbn;
    [reflexivity|].
  now rewrite strip_ref_scan, IH.
Qed.

(** The stripper is the scanner. *)
Lemma remove_scan (text : string) :
  removeFileReferences text = Scan.remove text.
Proof.
  unfold removeFileReferences, Scan.remove.
  now rewrite replace_all_backtick, extract_scan, fold_strip_ref_scan,
    replace_all_spaces.
Qed.

(** *** Texts without [@] *)

Lemma no_at_cons (c : ascii) (s : string) :
  no_at (String c s) = true ->
  Ascii.eqb c at_sign = false /\ no_at s = true.
Proof.
  unfold no_at; cbn. intros H. apply andb_prop in H as [H1 H2].
  split; [now apply negb_true_iff|exact H2].
Qed.

Lemma backtick_at_no_at (c : ascii) (s : string) :
  Ascii.eqb c at_sign = false -> backtick_at (String c s) = None.
Proof. intros H. unfold backtick_at. destruct s; [reflexivity|]. now rewrite H. Qed.

Lemma simple_at_no_at (c : ascii) (s : string) :
  Ascii.eqb c at_sign = false -> simple_at (String c s) = None.
Proof. intros H. unfold simple_at. now rewrite H. Qed.

Lemma ref_at_no_at (ref : string) (c : ascii) (s : string) :
  Ascii.eqb c at_sign = false -> ref_at ref (String c s) = false.
Proof.
  intros H. unfold ref_at. cbn [Js.strip_prefix].
  rewrite Ascii.eqb_sym, H. reflexivity.
Qed.

Lemma backtick_matches_no_at (s : string) (k : nat) :
  no_at s = true -> backtick_matches k s = [].
Proof.
  revert k. induction s as [|c s IH]; intros k H; [reflexivity|].
  apply no_at_cons in H as [Hc Hs]. cbn [backtick_matches].
  destruct k; [|now apply IH].
  rewrite (backtick_at_no_at _ _ Hc). now apply IH.
Qed.

Lemma simple_matches_no_at (s : string) (k : nat) :
  no_at s = true -> simple_matches k s = [].
Proof.
  revert k. induction s as [|c s IH]; intros k H; [reflexivity|].
  apply no_at_cons in H as [Hc Hs]. cbn [simple_matches].
  destruct k; [|now apply IH].
  rewrite (simple_at_no_at _ _ Hc). now apply IH.
Qed.


Lemma remove_backticks_no_at (s : string) :
  no_at s = true -> remove_backticks O s = s.
Proof.
  induction s as [|c s IH]; intros H; [reflexivity|].
  apply no_at_cons in H as [Hc Hs]. cbn [remove_backticks].
  rewrite (backtick_at_no_at _ _ Hc). now rewrite IH.
Qed.

Lemma remove_ref_no_at (ref s : string) :
  no_at s = true -> remove_ref ref O s = s.
Proof.
  induction s as [|c s IH]; intros H; [reflexivity|].
  apply no_at_cons in H as [Hc Hs]. cbn [remove_ref].
  rewrite (ref_at_no_at _ _ _ Hc). now rewrite IH.
Qed.

Lemma includes_no_at (s x : string) :
  no_at s = true -> Js.includes s (String at_sign x) = false.
Proof.
  induction s as [|c s IH]; intros H; [reflexivity|].
  apply no_at_cons in H as [Hc Hs]. cbn [Js.includes Js.strip_prefix].
  rewrite Ascii.eqb_sym, Hc. now apply IH.
Qed.








(** *** Sets in insertion order *)

Lemma existsb_eqb_In (x : string) (l : list string) :
  existsb (String.eqb x) l = true <-> In x l.
Proof.
  rewrite existsb_exists. split.
  - intros (y & Hy & E). apply String.eqb_eq in E. now subst.
  - intros H. exists x. split; [exact H|apply String.eqb_refl].
Qed.

Lemma filter_filter_comm (p q : string -> bool) (l : list string) :
  List.filter p (List.filter q l) = List.filter q (List.filter p l).
Proof.
  induction l as [|x l IH]; cbn; [reflexivity|].
  destruct (p x) eqn:Ep, (q x) eqn:Eq; cbn; rewrite ?Ep, ?Eq, IH; reflexivity.
Qed.

Lemma filter_absorb (p q : string -> bool) (l : list string) :
  (forall x, q x = true -> p x = true) ->
  List.filter q (List.filter p l) = List.filter q l.
Proof.
  intros H. induction l as [|x l IH]; cbn; [reflexivity|].
  destruct (p x) eqn:Ep; cbn.
  - now rewrite IH.
  - destruct (q x) eqn:Eq; [|exact IH].
    rewrite (H x Eq) in Ep. discriminate.
Qed.

Lemma dedup_filter (q : string -> bool) (l : list string) :
  dedup (List.filter q l) = List.filter q (dedup l).
Proof.
  induction l as [|y l IH]; cbn; [reflexivity|].
  destruct (q y) eqn:Eq; cbn.
  - rewrite IH. f_equal. apply filter_filter_comm.
  - rewrite IH. symmetry. apply filter_absorb.
    intros x Hx. apply negb_true_iff. apply String.eqb_neq.
    intros ->. congruence.
Qed.

Lemma In_dedup (x : string) (l : list string) : In x (dedup l) <-> In x l.
Proof.
  induction l as [|y l IH]; cbn; [tauto|].
  rewrite filter_In, IH, negb_true_iff, String.eqb_neq.
  destruct (String.eqb_spec y x); intuition congruence.
Qed.

Lemma NoDup_filter_s (q : string -> bool) (l : list string) :
  List.NoDup l -> List.NoDup (List.filter q l).
Proof.
  induction 1 as [|x l Hx Hl IH]; cbn; [constructor|].
  destruct (q x); [|exact IH].
  constructor; [|exact IH].
  rewrite filter_In. tauto.
Qed.

Lemma NoDup_dedup (l : list string) : List.NoDup (dedup l).
Proof.
  induction l as [|x l IH]; cbn; constructor.
  - rewrite filter_In, String.eqb_refl. cbn. intuition discriminate.
  - now apply NoDup_filter_s.
Qed.

Lemma filter_absent_snoc (acc : list string) (x : string) (l : list string) :
  List.filter (absent (acc ++ [x])) l
  = List.filter (fun y => negb (String.eqb x y)) (List.filter (absent acc) l).
Proof.
  induction l as [|y l IH]; cbn [List.filter]; [reflexivity|].
  assert (E : absent (acc ++ [x]) y = absent acc y && negb (String.eqb x y)).
  { unfold absent. rewrite existsb_app. cbn [existsb].
    now rewrite orb_false_r, negb_orb, (String.eqb_sym y x). }
  rewrite E. destruct (absent acc y); cbn [andb List.filter]; [|exact IH].
  destruct (String.eqb x y); cbn [negb]; [exact IH|now rewrite IH].
Qed.

(** Adding the elements of [l] to the set [acc] appends the new ones,
    each at its first occurrence. *)
Lemma fold_set_add (l acc : list string) :
  fold_left set_add l acc = acc ++ dedup (List.filter (absent acc) l).
Proof.
  revert acc. induction l as [|x l IH]; intros acc; cbn [fold_left].
  - cbn. now rewrite app_nil_r.
  - rewrite IH. unfold set_add. cbn [List.filter]. unfold absent at 2.
    destruct (existsb (String.eqb x) acc) eqn:E; cbn [negb]; [reflexivity|].
    cbn [dedup]. rewrite <- app_assoc. cbn [app]. do 2 f_equal.
    rewrite <- dedup_filter. f_equal. apply filter_absent_snoc.
Qed.

Lemma fold_add_backtick (spans acc : list string) :
  fold_left add_backtick spans acc
  = fold_left set_add
      (List.filter (fun t => negb (Js.is_empty t)) (map Js.trim spans)) acc.
Proof.
  revert acc. induction spans as [|x l IH]; intros acc; [reflexivity|].
  cbn [fold_left map List.filter]. unfold add_backtick at 2.
  destruct (Js.is_empty (Js.trim x)); cbn [negb fold_left]; apply IH.
Qed.

Lemma extract_dedup (text : string) :
  Scan.extract text
  = dedup (backtick_tokens text ++ simple_matches O text).
Proof.
  unfold Scan.extract. rewrite fold_add_backtick.
  fold (backtick_tokens text). rewrite <- fold_left_app, fold_set_add.
  cbn [app]. f_equal. induction (_ ++ _) as [|x l IH]; cbn; congruence.
Qed.

(** *** The matches of the two patterns *)

Lemma matches_skip_backtick (p rest : string) :
  backtick_matches (String.length p) (p +:+ rest) = backtick_matches O rest
  /\ remove_backticks (String.length p) (p +:+ rest) = remove_backticks O rest.
Proof. induction p as [|c p IH]; simpl; [split; reflexivity|exact IH]. Qed.

Lemma matches_skip_simple (p rest : string) :
  simple_matches (String.length p) (p +:+ rest) = simple_matches O rest.
Proof. induction p as [|c p IH]; simpl; [reflexivity|exact IH]. Qed.

Lemma remove_ref_skip (ref p rest : string) :
  remove_ref ref (String.length p) (p +:+ rest) = remove_ref ref O rest.
Proof. induction p as [|c p IH]; simpl; [reflexivity|exact IH]. Qed.

(** A match of the backtick pattern at the head of a text. *)
Lemma backtick_at_Some (s span : string) :
  backtick_at s = Some span ->
  exists post,
    s = wrapped span +:+ post
    /\ Js.is_empty span = false /\ Js.sforall not_backtick span = true.
Proof.
  unfold backtick_at. destruct s as [|a [|b r]]; try discriminate.
  destruct (Ascii.eqb a at_sign) eqn:Ea; [|discriminate].
  destruct (Ascii.eqb b backtick) eqn:Eb; [|discriminate]. cbn [andb].
  apply Ascii.eqb_eq in Ea as ->. apply Ascii.eqb_eq in Eb as ->.
  pose proof (span_spec not_backtick r) as (H1 & H2 & H3).
  destruct (Js.span not_backtick r) as [sp after]; cbn [fst snd] in *.
  destruct sp as [|c sp]; [discriminate|].
  destruct after as [|d after]; [discriminate|].
  intros [= <-].
  apply ends_run_not_backtick in H3 as [H3|[post H3]]; [discriminate|].
  inversion H3; subst. exists post. split; [|auto].
  unfold wrapped. simpl. rewrite app_assoc_s. reflexivity.
Qed.

Lemma backtick_at_wrapped (span rest : string) :
  Js.is_empty span = false -> Js.sforall not_backtick span = true ->
  backtick_at (wrapped span +:+ rest) = Some span.
Proof.
  intros Hne Hall. unfold wrapped, backtick_at. simpl.
  rewrite app_assoc_s.
  rewrite (span_run not_backtick span (String backtick "" +:+ rest) Hall eq_refl).
  destruct span; [discriminate|]. reflexivity.
Qed.

Lemma backtick_matches_head (span rest : string) :
  Js.is_empty span = false -> Js.sforall not_backtick span = true ->
  backtick_matches O (wrapped span +:+ rest)
  = span :: backtick_matches O rest
  /\ remove_backticks O (wrapped span +:+ rest) = remove_backticks O rest.
Proof.
  intros Hne Hall.
  pose proof (backtick_at_wrapped span rest Hne Hall) as Hat.
  pose proof (matches_skip_backtick
                (String backtick (span +:+ String backtick "")) rest) as Hs.
  simpl in Hs. rewrite length_app_s in Hs. simpl in Hs.
  replace (String.length span + 1)%nat with (S (String.length span)) in Hs
    by lia.
  unfold wrapped in *. simpl in *. rewrite Hat.
  destruct Hs as [-> ->]. split; reflexivity.
Qed.

Lemma backtick_matches_spec (s : string) (k : nat) (span : string) :
  In span (backtick_matches k s) ->
  exists pre post,
    s = pre +:+ wrapped span +:+ post
    /\ Js.is_empty span = false /\ Js.sforall not_backtick span = true.
Proof.
  revert k. induction s as [|c s IH]; intros k; [intros []|].
  cbn [backtick_matches].
  assert (Hrec : forall k', In span (backtick_matches k' s) ->
            exists pre post,
              String c s = pre +:+ wrapped span +:+ post
              /\ Js.is_empty span = false
              /\ Js.sforall not_backtick span = true).
  { intros k' H. destruct (IH k' H) as (pre & post & -> & H2).
    exists (String c pre), post. split; [reflexivity|exact H2]. }
  destruct k; [|apply Hrec].
  destruct (backtick_at (String c s)) as [sp|] eqn:E; [|apply Hrec].
  intros [<-|H]; [|now apply (Hrec _ H)].
  apply backtick_at_Some in E as (post & -> & H2).
  exists "", post. split; [reflexivity|exact H2].
Qed.

(** A match of the bare pattern at the head of a text. *)
Lemma simple_at_Some (s tok : string) :
  simple_at s = Some tok ->
  exists post,
    s = String at_sign tok +:+ post
    /\ bare tok = true /\ ends_run is_ref_char post = true.
Proof.
  unfold simple_at. destruct s as [|a r]; [discriminate|].
  destruct (Ascii.eqb a at_sign) eqn:Ea; [|discriminate].
  apply Ascii.eqb_eq in Ea as ->.
  pose proof (span_spec is_ref_char r) as (H1 & H2 & H3).
  destruct (Js.span is_ref_char r) as [run post]; cbn [fst snd] in *.
  destruct run as [|c run]; [discriminate|]. intros [= <-].
  exists post. split; [simpl; now f_equal|].
  unfold bare. now rewrite H2.
Qed.

Lemma simple_matches_head (tok rest : string) :
  bare tok = true -> ends_run is_ref_char rest = true ->
  simple_matches O (String at_sign tok +:+ rest)
  = tok :: simple_matches O rest.
Proof.
  intros Hb Hr. unfold bare in Hb. apply andb_prop in Hb as [Hne Hall].
  change (String at_sign tok +:+ rest) with (String at_sign (tok +:+ rest)).
  assert (Hat : simple_at (String at_sign (tok +:+ rest)) = Some tok).
  { unfold simple_at. rewrite Ascii.eqb_refl.
    rewrite (span_run _ _ _ Hall Hr). cbn [fst].
    destruct tok; [discriminate|reflexivity]. }
  cbn [simple_matches]. rewrite Hat.
  now rewrite matches_skip_simple.
Qed.

Lemma simple_matches_spec (s : string) (k : nat) (tok : string) :
  In tok (simple_matches k s) ->
  exists pre post,
    s = pre +:+ String at_sign tok +:+ post
    /\ bare tok = true /\ ends_run is_ref_char post = true.
Proof.
  revert k. induction s as [|c s IH]; intros k; [intros []|].
  cbn [simple_matches].
  assert (Hrec : forall k', In tok (simple_matches k' s) ->
            exists pre post,
              String c s = pre +:+ String at_sign tok +:+ post
              /\ bare tok = true /\ ends_run is_ref_char post = true).
  { intros k' H. destruct (IH k' H) as (pre & post & -> & H2).
    exists (String c pre), post. split; [reflexivity|exact H2]. }
  destruct k; [|apply Hrec].
  destruct (simple_at (String c s)) as [t|] eqn:E; [|apply Hrec].
  intros [<-|H]; [|now apply (Hrec _ H)].
  apply simple_at_Some in E as (post & -> & H2).
  exists "", post. split; [reflexivity|exact H2].
Qed.

(** The claim as worded fails: the backtick-wrapped mentions come before
    the bare ones whatever their places in the text; the contents of a
    span are trimmed; a bare token ends at the first punctuation mark. *)
Lemma extraction_as_specified_fails :
  ~ extraction_as_specified
  /\ extractFileReferences "@notes see @`Daily Log`" = ["Daily Log"; "notes"]
  /\ extract_spec "@notes see @`Daily Log`" = ["notes"; "Daily Log"]
  /\ extractFileReferences "@` Daily Log `" = ["Daily Log"]
  /\ extract_spec "@` Daily Log `" = [" Daily Log "]
  /\ extractFileReferences "see @report.final, please" = ["report"]
  /\ extract_spec "see @report.final, please" = ["report.final"].
Proof.
  split; [|repeat split; vm_compute; reflexivity].
  intros H. specialize (H "@notes see @`Daily Log`").
  vm_compute in H. discriminate H.
Qed.

(** C6, amended.  For every text the extractor returns a list without
    duplicates: first the tokens of the backtick-wrapped mentions in the
    order of the text, then the tokens of the bare mentions in the order
    of the text, each kept where it first occurs in that sequence.  The
    token of a backtick-wrapped mention is the span between the backticks,
    trimmed, and is dropped when nothing remains.  The token of a bare
    mention is the longest run of characters after [@] that are neither
    white space, [@], backtick nor one of [. , ; ! ?]. *)
Theorem extractFileReferences_spec (text : string) :
  List.NoDup (extractFileReferences text)
  /\ extractFileReferences text
     = dedup (backtick_tokens text ++ simple_matches O text)
  /\ (forall t,
        In t (backtick_tokens text) <->
        exists span, In span (backtick_matches O text)
                     /\ t = Js.trim span /\ Js.is_empty t = false)
  /\ (forall span,
        In span (backtick_matches O text) ->
        exists pre post,
          text = pre +:+ wrapped span +:+ post
          /\ Js.is_empty span = false
          /\ Js.sforall not_backtick span = true)
  /\ (forall tok,
        In tok (simple_matches O text) ->
        exists pre post,
          text = pre +:+ String at_sign tok +:+ post
          /\ bare tok = true /\ ends_run is_ref_char post = true)
  /\ (forall span rest,
        Js.is_empty span = false -> Js.sforall not_backtick span = true ->
        backtick_matches O (wrapped span +:+ rest)
        = span :: backtick_matches O rest)
  /\ (forall tok rest,
        bare tok = true -> ends_run is_ref_char rest = true ->
        simple_matches O (String at_sign tok +:+ rest)
        = tok :: simple_matches O rest).
Proof.
  rewrite !extract_scan.
  split; [rewrite extract_dedup; apply NoDup_dedup|].
  split; [apply extract_dedup|].
  split.
  { intros t. unfold backtick_tokens. rewrite filter_In, in_map_iff.
    rewrite negb_true_iff. split.
    - intros [(span & <- & Hin) Hne]. eauto.
    - intros (span & Hin & -> & Hne). eauto. }
  split; [apply backtick_matches_spec|].
  split; [apply simple_matches_spec|].
  split; [intros; now apply backtick_matches_head|].
  apply simple_matches_head.
Qed.

(** *** The stripper *)

Lemma insert_by_length_perm (x : string) (l : list string) :
  Permutation (insert_by_length x l) (x :: l).
Proof.
  induction l as [|y l IH]; cbn [insert_by_length]; [reflexivity|].
  destruct (String.length x <? String.length y)%nat; [|reflexivity].
  rewrite IH. apply perm_swap.
Qed.

Lemma sort_by_length_perm (l : list string) :
  Permutation (sort_by_length l) l.
Proof.
  induction l as [|x l IH]; cbn [sort_by_length]; [reflexivity|].
  rewrite insert_by_length_perm. now constructor.
Qed.

Lemma insert_by_length_sorted (x : string) (l : list string) :
  StronglySorted longer_first l ->
  StronglySorted longer_first (insert_by_length x l).
Proof.
  induction 1 as [|y l Hl IH Hy]; cbn [insert_by_length].
  - repeat constructor.
  - destruct (String.length x <? String.length y)%nat eqn:E.
    + apply Nat.ltb_lt in E. constructor; [exact IH|].
      eapply Permutation_Forall.
      * symmetry. apply insert_by_length_perm.
      * constructor; [unfold longer_first; lia|exact Hy].
    + apply Nat.ltb_ge in E. constructor.
      * now constructor.
      * constructor; [exact E|].
        eapply List.Forall_impl; [|exact Hy].
        unfold longer_first. intros z Hz. lia.
Qed.

Lemma sort_by_length_sorted (l : list string) :
  StronglySorted longer_first (sort_by_length l).
Proof.
  induction l as [|x l IH]; cbn [sort_by_length]; [constructor|].
  now apply insert_by_length_sorted.
Qed.

(** The white space of the result. *)
Lemma spaced_weaken (s : string) :
  spaced true s = true -> is_true (Js.is_empty s) \/ spaced false s = true.
Proof.
  destruct s as [|c s]; cbn; [now left|].
  destruct (Js.is_space c); [|auto].
  rewrite andb_false_r. discriminate.
Qed.

Lemma collapse_single_spaced (s : string) (b : bool) :
  single_spaced b (Js.collapse_ws_from b s) = true.
Proof.
  revert b. induction s as [|c s IH]; intros b; [reflexivity|].
  cbn [Js.collapse_ws_from].
  destruct (Js.is_space c) eqn:E.
  - destruct b; [apply IH|]. cbn. apply IH.
  - cbn [single_spaced]. rewrite E. apply IH.
Qed.

Lemma trimStart_single_spaced (s : string) (b : bool) :
  single_spaced b s = true -> single_spaced true (Js.trimStart s) = true.
Proof.
  revert b. induction s as [|c s IH]; intros b; [reflexivity|].
  cbn [single_spaced Js.trimStart].
  destruct (Js.is_space c) eqn:E.
  - intros H. apply andb_prop in H as [_ H]. now apply (IH true).
  - intros H. cbn [single_spaced]. now rewrite E.
Qed.

Lemma trimEnd_spaced (s : string) (b : bool) :
  single_spaced b s = true ->
  Js.trimEnd s = "" \/ spaced b (Js.trimEnd s) = true.
Proof.
  revert b. induction s as [|c s IH]; intros b; [now left|].
  cbn [single_spaced Js.trimEnd].
  destruct (Js.is_space c) eqn:E.
  - intros H. apply andb_prop in H as [H Hs]. apply andb_prop in H as [Hc Hb].
    destruct (IH true Hs) as [->|Hr]; [now left|].
    assert (Hne : Js.is_empty (Js.trimEnd s) = false)
      by (destruct (Js.trimEnd s); [discriminate Hr|reflexivity]).
    rewrite Hne. right. cbn [andb spaced]. now rewrite E, Hc, Hb, Hr.
  - intros Hs. right. cbn [andb spaced]. rewrite E.
    destruct (IH false Hs) as [->|Hr]; [reflexivity|exact Hr].
Qed.

Lemma trim_collapse_normalized (s : string) :
  normalized (Js.trim (Js.collapse_ws s)) = true.
Proof.
  unfold normalized, Js.trim, Js.collapse_ws.
  pose proof (collapse_single_spaced s false) as H.
  apply trimStart_single_spaced in H.
  apply trimEnd_spaced in H as [-> | ->]; [reflexivity|apply orb_true_r].
Qed.

(** A reference whose pattern matches nowhere leaves the text as it is. *)
Lemma remove_ref_nowhere (ref s : string) :
  (forall pre post, s = pre +:+ post -> ref_at ref post = false) ->
  remove_ref ref O s = s.
Proof.
  induction s as [|c s IH]; intros H; [reflexivity|].
  cbn [remove_ref]. rewrite (H "" (String c s) eq_refl). f_equal.
  apply IH. intros pre post ->. now apply (H (String c pre) post).
Qed.

Lemma remove_ref_head (ref rest : string) :
  at_boundary rest = true ->
  remove_ref ref O (String at_sign ref +:+ rest) = remove_ref ref O rest.
Proof.
  intros H.
  assert (Hat : ref_at ref (String at_sign ref +:+ rest) = true).
  { unfold ref_at. now rewrite strip_prefix_app. }
  change (String at_sign ref +:+ rest) with (String at_sign (ref +:+ rest))
    in *.
  cbn [remove_ref]. rewrite Hat. apply remove_ref_skip.
Qed.

Lemma sforall_impl (p q : ascii -> bool) (s : string) :
  (forall c, p c = true -> q c = true) ->
  Js.sforall p s = true -> Js.sforall q s = true.
Proof.
  intros H. induction s as [|c s IH]; cbn; [auto|].
  intros E. apply andb_prop in E as [E1 E2]. now rewrite (H c E1), IH.
Qed.

Lemma ref_char_not_at (c : ascii) :
  is_ref_char c = true -> negb (Ascii.eqb c at_sign) = true.
Proof.
  unfold is_ref_char. rewrite !negb_orb. intros H.
  apply andb_prop in H as [H _]. apply andb_prop in H as [H _].
  apply andb_prop in H as [_ H]. exact H.
Qed.

Lemma ref_char_not_backtick (c : ascii) :
  is_ref_char c = true -> Ascii.eqb c backtick = false.
Proof.
  unfold is_ref_char. rewrite !negb_orb. intros H.
  apply andb_prop in H as [H _]. apply andb_prop in H as [_ H].
  now apply negb_true_iff.
Qed.

Lemma boundary_ends_run (s : string) :
  at_boundary s = true -> ends_run is_ref_char s = true.
Proof.
  destruct s as [|c s]; cbn; [auto|].
  unfold is_ref_char. rewrite negb_involutive. intros H.
  apply orb_prop in H as [-> | ->]; [reflexivity|].
  now rewrite !orb_true_r.
Qed.

Lemma includes_cons (a : ascii) (s sub : string) :
  Js.includes (String a s) sub
  = match Js.strip_prefix sub (String a s) with
    | Some _ => true
    | None => Js.includes s sub
    end.
Proof. reflexivity. Qed.

(** A text made of one bare mention and a rest without [@]: the mention
    is removed and the rest normalised. *)
Lemma strip_one_mention (B rest : string) :
  bare B = true -> no_at rest = true -> at_boundary rest = true ->
  Scan.extract (String at_sign B +:+ rest) = [B]
  /\ Scan.remove (String at_sign B +:+ rest)
     = Js.trim (Js.collapse_ws rest).
Proof.
  intros Hb Hrest Hbd.
  pose proof Hb as Hb'. unfold bare in Hb'.
  apply andb_prop in Hb' as [Hne Hall].
  destruct B as [|c B]; [discriminate|].
  pose proof Hall as Hc. cbn [Js.sforall] in Hc. apply andb_prop in Hc as [Hc _].
  assert (Hno : no_at (String c B +:+ rest) = true).
  { unfold no_at. rewrite sforall_app. fold (no_at rest). rewrite Hrest, andb_true_r.
    eapply sforall_impl; [|exact Hall]. apply ref_char_not_at. }
  assert (Hbt : backtick_at (String at_sign (String c B +:+ rest)) = None).
  { unfold backtick_at.
    change (String c B +:+ rest) with (String c (B +:+ rest)).
    rewrite Ascii.eqb_refl, (ref_char_not_backtick c Hc). reflexivity. }
  assert (Hext : Scan.extract (String at_sign (String c B) +:+ rest)
                 = [String c B]).
  { unfold Scan.extract.
    rewrite (simple_matches_head _ _ Hb (boundary_ends_run _ Hbd)).
    rewrite (simple_matches_no_at _ _ Hrest).
    change (String at_sign (String c B) +:+ rest)
      with (String at_sign (String c B +:+ rest)).
    cbn [backtick_matches]. rewrite Hbt.
    rewrite (backtick_matches_no_at _ _ Hno). reflexivity. }
  split; [exact Hext|].
  unfold Scan.remove. rewrite Hext.
  cbn [sort_by_length insert_by_length fold_left].
  assert (Hrb : remove_backticks O (String at_sign (String c B) +:+ rest)
                = String at_sign (String c B) +:+ rest).
  { change (String at_sign (String c B) +:+ rest)
      with (String at_sign (String c B +:+ rest)).
    cbn [remove_backticks]. rewrite Hbt.
    now rewrite (remove_backticks_no_at _ Hno). }
  rewrite Hrb. unfold Scan.strip.
  assert (Hinc : Js.includes (String at_sign (String c B) +:+ rest)
                   (wrapped (String c B)) = false).
  { change (String at_sign (String c B) +:+ rest)
      with (String at_sign (String c (B +:+ rest))).
    rewrite includes_cons.
    assert (Hsp : Js.strip_prefix (wrapped (String c B))
                    (String at_sign (String c (B +:+ rest))) = None).
    { unfold wrapped. cbn [Js.strip_prefix].
      now rewrite Ascii.eqb_refl, Ascii.eqb_sym, (ref_char_not_backtick c Hc). }
    rewrite Hsp. apply (includes_no_at _ _ Hno). }
  rewrite Hinc, (remove_ref_head _ _ Hbd), (remove_ref_no_at _ _ Hrest).
  reflexivity.
Qed.

(** *** Two mentions, one a prefix of the other *)

Lemma no_at_backtick_cons (a : ascii) (s : string) :
  no_at_backtick (String a s) = true ->
  backtick_at (String a s) = None /\ no_at_backtick s = true.
Proof.
  cbn [no_at_backtick]. intros H. apply andb_prop in H as [H1 H2].
  split; [|exact H2]. apply negb_true_iff in H1.
  unfold backtick_at. destruct s as [|b r]; [reflexivity|].
  now rewrite H1.
Qed.

Lemma backtick_matches_none (s : string) (k : nat) :
  no_at_backtick s = true -> backtick_matches k s = [].
Proof.
  revert k. induction s as [|c s IH]; intros k H; [reflexivity|].
  apply no_at_backtick_cons in H as [Hc Hs]. cbn [backtick_matches].
  destruct k; [rewrite Hc|]; now apply IH.
Qed.

Lemma remove_backticks_none (s : string) :
  no_at_backtick s = true -> remove_backticks O s = s.
Proof.
  induction s as [|c s IH]; intros H; [reflexivity|].
  apply no_at_backtick_cons in H as [Hc Hs]. cbn [remove_backticks].
  now rewrite Hc, IH.
Qed.

Lemma includes_wrapped_none (s ref : string) :
  no_at_backtick s = true -> Js.includes s (wrapped ref) = false.
Proof.
  induction s as [|c s IH]; intros H; [reflexivity|].
  pose proof H as H'. cbn [no_at_backtick] in H'.
  apply andb_prop in H' as [H1 H2]. apply negb_true_iff in H1.
  rewrite includes_cons.
  assert (Hsp : Js.strip_prefix (wrapped ref) (String c s) = None).
  { unfold wrapped. cbn [Js.strip_prefix].
    destruct (Ascii.eqb at_sign c) eqn:Ec; [|reflexivity].
    rewrite Ascii.eqb_sym in Ec. rewrite Ec in H1. cbn [andb] in H1.
    destruct s as [|b r]; [reflexivity|].
    now rewrite Ascii.eqb_sym, H1. }
  rewrite Hsp. now apply IH.
Qed.

(** A mention followed by a text without [@`] is a text without [@`]. *)
Lemma no_at_backtick_app (p q : string) :
  no_at p = true -> no_at_backtick q = true -> no_at_backtick (p +:+ q) = true.
Proof.
  intros Hp Hq. induction p as [|c p IH]; [exact Hq|].
  apply no_at_cons in Hp as [Hc Hp].
  change (String c p +:+ q) with (String c (p +:+ q)).
  cbn [no_at_backtick]. rewrite Hc. cbn [andb negb]. now apply IH.
Qed.

Lemma bare_no_at (tok : string) : bare tok = true -> no_at tok = true.
Proof.
  unfold bare. intros H. apply andb_prop in H as [_ H].
  eapply sforall_impl; [|exact H]. apply ref_char_not_at.
Qed.

Lemma no_at_backtick_mention (tok q : string) :
  bare tok = true -> no_at_backtick q = true ->
  no_at_backtick (String at_sign tok +:+ q) = true.
Proof.
  intros Hb Hq.
  pose proof (no_at_backtick_app tok q (bare_no_at _ Hb) Hq) as H.
  unfold bare in Hb. apply andb_prop in Hb as [Hne Hall].
  destruct tok as [|c tok]; [discriminate|].
  cbn [Js.sforall] in Hall. apply andb_prop in Hall as [Hc _].
  change (String at_sign (String c tok) +:+ q)
    with (String at_sign (String c (tok +:+ q))).
  change (String c tok +:+ q) with (String c (tok +:+ q)) in H.
  remember (String c (tok +:+ q)) as r eqn:Er.
  cbn [no_at_backtick]. rewrite H, andb_true_r. subst r.
  now rewrite (ref_char_not_backtick c Hc), andb_false_r.
Qed.

Lemma remove_ref_app (ref p q : string) :
  no_at p = true -> remove_ref ref O (p +:+ q) = p +:+ remove_ref ref O q.
Proof.
  intros Hp. induction p as [|c p IH]; [reflexivity|].
  apply no_at_cons in Hp as [Hc Hp].
  change (String c p +:+ q) with (String c (p +:+ q)).
  cbn [remove_ref]. rewrite (ref_at_no_at _ _ _ Hc), (IH Hp). reflexivity.
Qed.

Lemma simple_matches_app (p q : string) :
  no_at p = true -> simple_matches O (p +:+ q) = simple_matches O q.
Proof.
  intros Hp. induction p as [|c p IH]; [reflexivity|].
  apply no_at_cons in Hp as [Hc Hp].
  change (String c p +:+ q) with (String c (p +:+ q)).
  cbn [simple_matches]. now rewrite (simple_at_no_at _ _ Hc), (IH Hp).
Qed.

Lemma strip_prefix_app_l (p x s : string) :
  Js.strip_prefix (p +:+ x) (p +:+ s) = Js.strip_prefix x s.
Proof.
  induction p as [|c p IH]; [reflexivity|].
  change (String c p +:+ x) with (String c (p +:+ x)).
  change (String c p +:+ s) with (String c (p +:+ s)).
  cbn [Js.strip_prefix]. now rewrite Ascii.eqb_refl.
Qed.

(** Both mentions present, the shorter one first: the longer token is
    deleted whole and nothing of it is left behind. *)
Lemma strip_prefix_pair (A X : string) :
  bare A = true -> bare (A +:+ X) = true -> Js.is_empty X = false ->
  Scan.extract
    (String at_sign A +:+ " " +:+ String at_sign (A +:+ X) +:+ " hello")
  = [A; A +:+ X]
  /\ Scan.remove
       (String at_sign A +:+ " " +:+ String at_sign (A +:+ X) +:+ " hello")
     = "hello".
Proof.
  intros HA HB HX. set (B := A +:+ X) in *.
  set (tail := String at_sign B +:+ " hello").
  set (text := String at_sign A +:+ " " +:+ tail).
  assert (Hlen : (String.length A < String.length B)%nat).
  { subst B. rewrite length_app_s. destruct X; [discriminate|]. cbn. lia. }
  assert (Hne : String.eqb B A = false).
  { apply String.eqb_neq. intros E. rewrite E in Hlen. lia. }
  assert (Htail : no_at_backtick tail = true)
    by (apply no_at_backtick_mention; [exact HB|reflexivity]).
  assert (Htext : no_at_backtick text = true).
  { apply no_at_backtick_mention; [exact HA|].
    change (" " +:+ tail) with (String " " tail).
    cbn [no_at_backtick]. exact Htail. }
  assert (Hsimple : simple_matches O text = [A; B]).
  { unfold text. rewrite (simple_matches_head A (" " +:+ tail) HA eq_refl).
    rewrite (simple_matches_app " " tail eq_refl). unfold tail.
    now rewrite (simple_matches_head B " hello" HB eq_refl). }
  assert (Hext : Scan.extract text = [A; B]).
  { unfold Scan.extract.
    rewrite (backtick_matches_none _ _ Htext), Hsimple.
    cbn [fold_left]. unfold set_add. cbn [existsb app].
    rewrite Hne. reflexivity. }
  split; [exact Hext|].
  unfold Scan.remove. fold text. rewrite Hext.
  assert (Hsort : sort_by_length [A; B] = [B; A]).
  { cbn [sort_by_length insert_by_length].
    apply Nat.ltb_lt in Hlen. now rewrite Hlen. }
  rewrite Hsort, (remove_backticks_none _ Htext). cbn [fold_left].
  unfold Scan.strip. rewrite !(includes_wrapped_none _ _ Htext).
  assert (HrB : remove_ref B O text = String at_sign A +:+ "  hello").
  { unfold text.
    change (String at_sign A +:+ " " +:+ tail)
      with (String at_sign (A +:+ " " +:+ tail)).
    cbn [remove_ref].
    assert (Hat : ref_at B (String at_sign (A +:+ " " +:+ tail)) = false).
    { unfold ref_at. cbn [Js.strip_prefix]. rewrite Ascii.eqb_refl.
      subst B. rewrite strip_prefix_app_l.
      unfold bare in HB. apply andb_prop in HB as [_ HB].
      rewrite sforall_app in HB. apply andb_prop in HB as [_ HXr].
      destruct X as [|x X]; [discriminate|].
      cbn [Js.sforall] in HXr. apply andb_prop in HXr as [Hx _].
      change (" " +:+ tail) with (String " " tail). cbn [Js.strip_prefix].
      destruct (Ascii.eqb x " ") eqn:E; [|reflexivity].
      apply Ascii.eqb_eq in E. subst x. discriminate Hx. }
    rewrite Hat.
    rewrite <- (app_assoc_s A " " tail).
    rewrite (remove_ref_app B (A +:+ " ") tail).
    - unfold tail. rewrite (remove_ref_head B " hello" eq_refl).
      rewrite (remove_ref_no_at B " hello" eq_refl).
      rewrite app_assoc_s. reflexivity.
    - unfold no_at. rewrite sforall_app. fold (no_at A).
      now rewrite (bare_no_at _ HA). }
  rewrite HrB, (remove_ref_head A "  hello" eq_refl).
  rewrite (remove_ref_no_at A "  hello" eq_refl). reflexivity.
Qed.

(** The claim as worded fails: in [@foo @`foo`] the token [foo] also
    occurs backtick-wrapped, so the loop passes it over and the bare
    mention [@foo] stays, although white space follows it. *)
Lemma stripping_as_specified_fails :
  ~ stripping_as_specified
  /\ removeFileReferences "@foo @`foo`" = "@foo"
  /\ remove_spec "@foo @`foo`" = "".
Proof.
  split; [|split; vm_compute; reflexivity].
  intros H. specialize (H "@foo @`foo`"). vm_compute in H. discriminate H.
Qed.

(** C7, amended.  The stripper works in these stages: it deletes the
    backtick-wrapped mentions ([remove_backticks]), then goes through the
    extracted tokens longest first, passing over every token that also
    occurs backtick-wrapped in the text and deleting [@token]
    ([remove_ref]) for the others where white space, the end of the text
    or one of [. , ; ! ?] follows and nowhere else, then turns every run
    of white space into one space and trims.
    When [A] is a prefix of the bare token [B], stripping [@B hello]
    gives [hello], and so does stripping [@A @B hello] when [A] is a bare
    token too and shorter than [B]. *)
Theorem removeFileReferences_spec (text : string) :
  removeFileReferences text
  = Js.trim
      (Js.collapse_ws
         (fold_left (Scan.strip text)
            (sort_by_length (extractFileReferences text))
            (remove_backticks O text)))
  /\ (forall span rest,
        Js.is_empty span = false -> Js.sforall not_backtick span = true ->
        remove_backticks O (wrapped span +:+ rest) = remove_backticks O rest)
  /\ Permutation (sort_by_length (extractFileReferences text))
       (extractFileReferences text)
  /\ StronglySorted longer_first
       (sort_by_length (extractFileReferences text))
  /\ (forall ref cleaned,
        Scan.strip text cleaned ref
        = if Js.includes text (wrapped ref) then cleaned
          else remove_ref ref O cleaned)
  /\ (forall ref rest,
        at_boundary rest = true ->
        remove_ref ref O (String at_sign ref +:+ rest)
        = remove_ref ref O rest)
  /\ (forall ref s,
        (forall pre post, s = pre +:+ post -> ref_at ref post = false) ->
        remove_ref ref O s = s)
  /\ normalized (removeFileReferences text) = true
  /\ (forall A B,
        prefix_of A B -> bare B = true ->
        removeFileReferences (String at_sign B +:+ " hello") = "hello")
  /\ (forall A X,
        bare A = true -> bare (A +:+ X) = true -> Js.is_empty X = false ->
        removeFileReferences
          (String at_sign A +:+ " " +:+ String at_sign (A +:+ X)
           +:+ " hello")
        = "hello").
Proof.
  split; [rewrite remove_scan, extract_scan; reflexivity|].
  split; [intros; now apply backtick_matches_head|].
  split; [apply sort_by_length_perm|].
  split; [apply sort_by_length_sorted|].
  split; [reflexivity|].
  split; [apply remove_ref_head|].
  split; [apply remove_ref_nowhere|].
  split; [rewrite remove_scan; apply trim_collapse_normalized|].
  split.
  - intros A B _ HB. rewrite remove_scan.
    now rewrite (proj2 (strip_one_mention B " hello" HB eq_refl eq_refl)).
  - intros A X HA HB HX. rewrite remove_scan. now apply strip_prefix_pair.
Qed.

End Mentions.

(** ** The keyword summary *)

Module Keywords.

Import DiveView Statements.

(** *** The counting object *)

Lemma dedup_snoc (l : list string) (x : string) :
  dedup (l ++ [x])
  = if existsb (String.eqb x) l then dedup l else dedup l ++ [x].
Proof.
  induction l as [|y l IH]; cbn [app dedup existsb]; [reflexivity|].
  rewrite IH. rewrite (String.eqb_sym x y).
  destruct (String.eqb y x) eqn:E; cbn [orb].
  - destruct (existsb (String.eqb x) l); [reflexivity|].
    rewrite List.filter_app. cbn [List.filter]. rewrite E. cbn [negb].
    now rewrite app_nil_r.
  - destruct (existsb (String.eqb x) l); [reflexivity|].
    rewrite List.filter_app. cbn [List.filter]. rewrite E. reflexivity.
Qed.

Lemma count_snoc (l : list string) (x w : string) :
  count (l ++ [x]) w
  = (count l w + if String.eqb x w then 1 else 0)%nat.
Proof.
  unfold count. rewrite count_occ_app. cbn [count_occ].
  destruct (String.string_dec x w) as [->|N].
  - now rewrite String.eqb_refl.
  - apply String.eqb_neq in N. now rewrite N.
Qed.

Lemma count_pos (l : list string) (w : string) :
  In w l <-> (0 < count l w)%nat.
Proof. unfold count. rewrite (count_occ_In String.string_dec). lia. Qed.

Lemma own_map (f : string -> string * jsval) (ks : list string)
    (x : string) :
  (forall w, fst (f w) = w) ->
  own x (map f ks)
  = if existsb (String.eqb x) ks then Some (snd (f x)) else None.
Proof.
  intros Hf. induction ks as [|k ks IH]; cbn [map own existsb]; [reflexivity|].
  destruct (f k) as [k' v] eqn:E.
  assert (k' = k) by (rewrite <- (Hf k), E; reflexivity). subst k'.
  rewrite (String.eqb_sym x k).
  destruct (String.eqb k x) eqn:Ek; cbn [orb]; [|exact IH].
  apply String.eqb_eq in Ek. subst. now rewrite E.
Qed.

Lemma update_map (f : string -> string * jsval) (ks : list string)
    (x : string) (v : jsval) :
  (forall w, fst (f w) = w) -> List.NoDup ks ->
  update x v (map f ks)
  = map (fun w => if String.eqb w x then (w, v) else f w) ks.
Proof.
  intros Hf. induction 1 as [|k ks Hk Hks IH]; cbn [map update]; [reflexivity|].
  destruct (f k) as [k' w] eqn:E.
  assert (k' = k) by (rewrite <- (Hf k), E; reflexivity). subst k'.
  destruct (String.eqb k x) eqn:Ek.
  - f_equal. apply String.eqb_eq in Ek. subst.
    apply map_ext_in. intros a Ha.
    destruct (String.eqb_spec a x) as [->|]; [contradiction|reflexivity].
  - now rewrite IH.
Qed.

(** One more ordinary word. *)
Lemma count_word_step (seen : list string) (x : string) :
  ordinary [x] = true ->
  count_word (counts_of seen) x = counts_of (seen ++ [x]).
Proof.
  intros Hx. cbn [ordinary forallb] in Hx. rewrite andb_true_r in Hx.
  apply andb_prop in Hx as [Hc Hp].
  apply negb_true_iff in Hc, Hp.
  unfold count_word, set_property, counts_of.
  rewrite !own_map by reflexivity. rewrite dedup_snoc.
  destruct (existsb (String.eqb x) (dedup seen)) eqn:E.
  - assert (Hin : existsb (String.eqb x) seen = true).
    { apply Mentions.existsb_eqb_In. apply Mentions.existsb_eqb_In in E.
      exact (proj1 (Mentions.In_dedup _ _) E). }
    rewrite Hin. cbn [counted snd].
    rewrite update_map by (reflexivity || apply Mentions.NoDup_dedup).
    apply map_ext. intros w. unfold counted. rewrite count_snoc.
    rewrite (String.eqb_sym w x).
    destruct (String.eqb_spec x w) as [->|]; f_equal; f_equal; lia.
  - assert (Hin : existsb (String.eqb x) seen = false).
    { destruct (existsb (String.eqb x) seen) eqn:E'; [|reflexivity].
      apply Mentions.existsb_eqb_In in E'.
      apply (proj2 (Mentions.In_dedup _ _)) in E'.
      apply Mentions.existsb_eqb_In in E'. congruence. }
    rewrite Hin, Hp, Hc.
    rewrite map_app. cbn [map]. f_equal.
    + apply map_ext_in. intros w Hw. unfold counted. rewrite count_snoc.
      destruct (String.eqb_spec x w) as [->|]; [|f_equal; f_equal; lia].
      apply (proj1 (Mentions.In_dedup _ _)) in Hw.
      apply Mentions.existsb_eqb_In in Hw. congruence.
    + unfold counted. rewrite count_snoc, String.eqb_refl.
      assert (H0 : count seen x = O).
      { destruct (count seen x) eqn:E0; [reflexivity|].
        assert (In x seen) by (apply count_pos; lia).
        apply Mentions.existsb_eqb_In in H. congruence. }
      now rewrite H0.
Qed.

Lemma ordinary_app (a b : list string) :
  ordinary (a ++ b) = ordinary a && ordinary b.
Proof. apply forallb_app. Qed.

Lemma fold_count_word (l seen : list string) :
  ordinary l = true ->
  fold_left count_word l (counts_of seen) = counts_of (seen ++ l).
Proof.
  revert seen. induction l as [|x l IH]; intros seen H; cbn [fold_left].
  - now rewrite app_nil_r.
  - change (x :: l) with ([x] ++ l) in H. rewrite ordinary_app in H.
    apply andb_prop in H as [Hx Hl].
    rewrite (count_word_step _ _ Hx), (IH _ Hl), <- app_assoc. reflexivity.
Qed.

(** The counting object of ordinary words: every distinct word with the
    number of its occurrences, in the order of first occurrence. *)
Lemma word_counts_ordinary (words : list string) :
  ordinary words = true -> word_counts words = counts_of words.
Proof. intros H. apply (fold_count_word words [] H). Qed.

(** *** Sorted lists *)

Section Sorted.

Context {A B : Type}.

Lemma sorted_filter_impl (R R' : A -> A -> Prop) (p : A -> bool)
    (l : list A) :
  StronglySorted R l ->
  (forall a b, p a = true -> p b = true -> R a b -> R' a b) ->
  StronglySorted R' (List.filter p l).
Proof.
  intros Hl HR. induction Hl as [|a l Hl IH Ha]; cbn; [constructor|].
  destruct (p a) eqn:E; [|exact IH].
  constructor; [exact IH|].
  apply List.Forall_forall. intros b Hb. apply filter_In in Hb as [Hb Hp].
  apply HR; auto. rewrite List.Forall_forall in Ha. now apply Ha.
Qed.

Lemma sorted_map_impl (R : A -> A -> Prop) (R' : B -> B -> Prop)
    (P : A -> Prop) (g : A -> B) (l : list A) :
  StronglySorted R l -> List.Forall P l ->
  (forall a b, P a -> P b -> R a b -> R' (g a) (g b)) ->
  StronglySorted R' (map g l).
Proof.
  intros Hl HP HR. induction Hl as [|a l Hl IH Ha]; cbn; [constructor|].
  inversion HP as [|? ? Pa Pl]; subst.
  constructor; [now apply IH|].
  apply List.Forall_forall. intros b Hb. apply in_map_iff in Hb as (c & <- & Hc).
  rewrite List.Forall_forall in Ha, Pl. apply HR; auto.
Qed.

Lemma sorted_app (R : A -> A -> Prop) (l1 l2 : list A) :
  StronglySorted R l1 -> StronglySorted R l2 ->
  (forall a b, In a l1 -> In b l2 -> R a b) ->
  StronglySorted R (l1 ++ l2).
Proof.
  intros H1 H2 H. induction H1 as [|a l Hl IH Ha]; cbn; [exact H2|].
  constructor.
  - apply IH. intros x y Hx Hy. apply H; [now right|exact Hy].
  - apply List.Forall_app. split; [exact Ha|].
    apply List.Forall_forall. intros b Hb. apply H; [now left|exact Hb].
Qed.

Lemma sorted_app_inv (R : A -> A -> Prop) (l1 l2 : list A) :
  StronglySorted R (l1 ++ l2) ->
  StronglySorted R l1 /\ forall a b, In a l1 -> In b l2 -> R a b.
Proof.
  induction l1 as [|x l1 IH]; cbn; intros H.
  - split; [constructor|intros a b []].
  - inversion H as [|? ? Hs Hf]; subst. destruct (IH Hs) as [IH1 IH2].
    apply List.Forall_app in Hf as [Hf1 Hf2]. split; [now constructor|].
    intros a b [<-|Ha] Hb; [|now apply IH2].
    rewrite List.Forall_forall in Hf2. now apply Hf2.
Qed.

End Sorted.

(** *** The order of the keys *)

Lemma first_index_cons (x w : string) (l : list string) :
  first_index w (x :: l)
  = if String.eqb x w then O else S (first_index w l).
Proof. reflexivity. Qed.

(** The distinct words come in the order of their first occurrence. *)
Lemma dedup_earlier (words : list string) :
  StronglySorted (earlier words) (dedup words).
Proof.
  induction words as [|x l IH]; cbn [dedup]; constructor.
  - eapply sorted_filter_impl; [exact IH|].
    intros a b Ha Hb. unfold earlier. rewrite !first_index_cons.
    apply negb_true_iff in Ha, Hb. rewrite Ha, Hb. lia.
  - apply List.Forall_forall. intros y Hy. apply filter_In in Hy as [_ Hy].
    apply negb_true_iff in Hy. unfold earlier. rewrite !first_index_cons.
    rewrite String.eqb_refl, Hy. lia.
Qed.

Lemma named_entries_map (f : string -> string * jsval) (ks : list string) :
  (forall w, fst (f w) = w) ->
  named_entries (map f ks) = map f (List.filter is_named ks).
Proof.
  intros Hf. unfold named_entries, is_named.
  induction ks as [|k ks IH]; cbn [map List.filter]; [reflexivity|].
  rewrite (Hf k). destruct (array_index k); cbn [map]; now rewrite IH.
Qed.

Lemma named_entries_sorted (words : list string) :
  StronglySorted (entry_before words) (named_entries (counts_of words)).
Proof.
  unfold counts_of. rewrite named_entries_map by reflexivity.
  eapply (sorted_map_impl (key_before words) _ (fun _ => True)).
  - eapply sorted_filter_impl; [apply dedup_earlier|].
    unfold is_named, key_before, earlier. intros a b Ha Hb H.
    destruct (array_index a); [discriminate|].
    destruct (array_index b); [discriminate|]. exact H.
  - apply List.Forall_forall. auto.
  - intros a b _ _ H. exact H.
Qed.

Lemma named_entries_named (o : object) (e : string * jsval) :
  In e (named_entries o) -> array_index (fst e) = None.
Proof.
  unfold named_entries. intros H. apply filter_In in H as [_ H].
  destruct (array_index (fst e)); [discriminate|reflexivity].
Qed.

Lemma insert_index_perm (e : Z * (string * jsval))
    (l : list (Z * (string * jsval))) :
  Permutation (insert_index e l) (e :: l).
Proof.
  induction l as [|f l IH]; cbn [insert_index]; [reflexivity|].
  destruct (fst e <? fst f); [reflexivity|].
  rewrite IH. apply perm_swap.
Qed.

Lemma insert_index_sorted (e : Z * (string * jsval))
    (l : list (Z * (string * jsval))) :
  StronglySorted tag_le l -> StronglySorted tag_le (insert_index e l).
Proof.
  induction 1 as [|f l Hl IH Hf]; cbn [insert_index].
  - repeat constructor.
  - destruct (fst e <? fst f) eqn:E.
    + apply Z.ltb_lt in E. constructor; [now constructor|].
      constructor; [unfold tag_le; lia|].
      eapply List.Forall_impl; [|exact Hf]. unfold tag_le. intros; lia.
    + apply Z.ltb_ge in E. constructor; [exact IH|].
      eapply Permutation_Forall.
      * symmetry. apply insert_index_perm.
      * constructor; [exact E|exact Hf].
Qed.

Lemma index_entries_spec (o : object) :
  StronglySorted tag_le (index_entries o)
  /\ List.Forall tagged (index_entries o)
  /\ Permutation (map snd (index_entries o) ++ named_entries o) o.
Proof.
  induction o as [|[k v] o (IH1 & IH2 & IH3)]; cbn [index_entries].
  - repeat split; constructor.
  - unfold named_entries in *. cbn [List.filter fst].
    destruct (array_index k) as [i|] eqn:E.
    + split; [now apply insert_index_sorted|]. split.
      * eapply Permutation_Forall.
        -- symmetry. apply insert_index_perm.
        -- constructor; [exact E|exact IH2].
      * rewrite (Permutation_map snd (insert_index_perm _ _)). cbn [map snd app].
        now constructor.
    + split; [exact IH1|]. split; [exact IH2|].
      rewrite <- Permutation_middle. now constructor.
Qed.

(** [Object.entries] of the counting object lists the keys in key
    order. *)
Lemma entries_sorted (words : list string) :
  StronglySorted (entry_before words) (entries (counts_of words)).
Proof.
  unfold entries.
  destruct (index_entries_spec (counts_of words)) as (H1 & H2 & _).
  apply sorted_app.
  - eapply (sorted_map_impl tag_le _ tagged); [exact H1|exact H2|].
    unfold tag_le, tagged, entry_before, key_before.
    intros a b Ha Hb H. now rewrite Ha, Hb.
  - apply named_entries_sorted.
  - intros a b Ha Hb. apply in_map_iff in Ha as (c & <- & Hc).
    rewrite List.Forall_forall in H2. specialize (H2 c Hc).
    apply named_entries_named in Hb.
    unfold entry_before, key_before. unfold tagged in H2.
    now rewrite H2, Hb.
Qed.

Lemma entries_perm (o : object) : Permutation (entries o) o.
Proof. apply index_entries_spec. Qed.

(** *** The stable sort by count *)

Lemma insert_entry_perm (a : string * jsval) (l : object) :
  Permutation (insert_entry a l) (a :: l).
Proof.
  induction l as [|b l IH]; cbn [insert_entry]; [reflexivity|].
  destruct (0 <? compare_counts a b); [|reflexivity].
  rewrite IH. apply perm_swap.
Qed.

Lemma sort_entries_perm (l : object) : Permutation (sort_entries l) l.
Proof.
  induction l as [|a l IH]; cbn [sort_entries]; [reflexivity|].
  rewrite insert_entry_perm. now constructor.
Qed.

Lemma compare_counted (words : list string) (a b : string * jsval) :
  is_counted words a -> is_counted words b ->
  compare_counts a b
  = Z.of_nat (count words (fst b)) - Z.of_nat (count words (fst a)).
Proof. unfold is_counted, compare_counts. now intros -> ->. Qed.

Lemma insert_entry_sorted (words : list string) (a : string * jsval)
    (l : object) :
  is_counted words a -> List.Forall (is_counted words) l ->
  List.Forall (entry_before words a) l ->
  StronglySorted (entry_ranked words) l ->
  StronglySorted (entry_ranked words) (insert_entry a l).
Proof.
  intros Ha Hc Hb Hs. induction Hs as [|b l Hl IH Hbl]; cbn [insert_entry].
  - repeat constructor.
  - inversion Hc as [|? ? Hcb Hcl]; subst.
    inversion Hb as [|? ? Hab Hal]; subst.
    rewrite (compare_counted words a b Ha Hcb).
    destruct (0 <? _) eqn:E.
    + apply Z.ltb_lt in E. constructor; [now apply IH|].
      eapply Permutation_Forall.
      * symmetry. apply insert_entry_perm.
      * constructor; [|exact Hbl]. left. lia.
    + apply Z.ltb_ge in E. constructor; [now constructor|].
      constructor.
      * unfold entry_ranked, ranked_before.
        destruct (Nat.eq_dec (count words (fst a)) (count words (fst b)));
          [right; split; [assumption|exact Hab] | left; lia].
      * rewrite List.Forall_forall in Hbl, Hal |- *. intros z Hz.
        specialize (Hbl z Hz). specialize (Hal z Hz).
        unfold entry_ranked, ranked_before, entry_before in *.
        destruct (Nat.eq_dec (count words (fst a)) (count words (fst z)));
          [right; split; assumption | left].
        destruct Hbl as [Hbl|[Hbl _]]; lia.
Qed.

Lemma sort_entries_sorted (words : list string) (l : object) :
  List.Forall (is_counted words) l ->
  StronglySorted (entry_before words) l ->
  StronglySorted (entry_ranked words) (sort_entries l).
Proof.
  intros Hc Hs. induction Hs as [|a l Hl IH Ha]; cbn [sort_entries].
  - constructor.
  - inversion Hc as [|? ? Hca Hcl]; subst.
    apply insert_entry_sorted; auto.
    + eapply Permutation_Forall; [symmetry; apply sort_entries_perm|exact Hcl].
    + eapply Permutation_Forall; [symmetry; apply sort_entries_perm|exact Ha].
Qed.

Lemma counts_of_counted (words : list string) :
  List.Forall (is_counted words) (counts_of words).
Proof.
  apply List.Forall_forall. intros e He.
  apply in_map_iff in He as (w & <- & _). reflexivity.
Qed.

Lemma counts_of_keys (words : list string) :
  map fst (counts_of words) = dedup words.
Proof.
  unfold counts_of. rewrite map_map. cbn [counted fst]. apply map_id.
Qed.

Lemma ranking_perm (words : list string) :
  Permutation (ranking words) (dedup words).
Proof.
  unfold ranking. rewrite <- counts_of_keys. apply Permutation_map.
  rewrite sort_entries_perm. apply entries_perm.
Qed.

Lemma ranking_sorted (words : list string) :
  StronglySorted (ranked_before words) (ranking words).
Proof.
  unfold ranking.
  eapply (sorted_map_impl (entry_ranked words) _ (fun _ => True)).
  - apply sort_entries_sorted.
    + eapply Permutation_Forall;
        [symmetry; apply entries_perm|apply counts_of_counted].
    + apply entries_sorted.
  - apply List.Forall_forall. auto.
  - intros a b _ _ H. exact H.
Qed.

Lemma top_words_ranking (message : string) :
  ordinary (context_words message) = true ->
  top_words message = firstn 5 (ranking (context_words message)).
Proof.
  intros H. unfold top_words, ranking.
  rewrite (word_counts_ordinary _ H). symmetry. apply firstn_map.
Qed.

(** The claim as worded fails: in [hello 2024] both words occur once and
    [hello] comes first, yet the summary lists [2024] before it. *)
Lemma first_occurrence_ties_fails : ~ first_occurrence_ties.
Proof.
  intros H. specialize (H "hello 2024").
  assert (Ew : context_words "hello 2024" = ["hello"; "2024"])
    by (vm_compute; reflexivity).
  assert (Et : top_words "hello 2024" = ["2024"; "hello"])
    by (vm_compute; reflexivity).
  rewrite Ew, Et in H.
  inversion H as [|? ? _ Hf]; subst.
  inversion Hf as [|? ? Hr _]; subst.
  vm_compute in Hr. destruct Hr as [Hr|[_ Hr]]; lia.
Qed.

(** C9, amended.  The words of a turn are those of the lower-cased text,
    rid of the characters that are neither word characters nor white
    space and split at white space, that are longer than 3 characters
    and are no stop words.  When none of them is [constructor] or
    [__proto__], the summary holds at most 5 of them, all distinct: the
    5 first in the ranking by falling count in which, among words
    of equal count, a word that is an array index (a decimal numeral
    without leading zero below 2^32 - 1) precedes a word that is not,
    two array indices come in numeric order, and two other words in the
    order of their first occurrence.  The text
    [machine learning helps machine learning projects] gives machine,
    learning, helps, projects. *)
Theorem top_words_spec (message : string) :
  let words := context_words message in
  let top := top_words message in
  ordinary words = true ->
  (forall w,
     In w words <->
     In w (Js.split_ws
             (Js.sfilter (fun c => Js.is_word c || Js.is_space c)
                (Js.toLowerCase message)))
     /\ (3 < String.length w)%nat
     /\ ~ In w stopwords)
  /\ length top = Nat.min 5 (length (dedup words))
  /\ List.NoDup top
  /\ (forall w, In w top -> In w words)
  /\ StronglySorted (ranked_before words) top
  /\ (forall w v,
        In w top -> In v words -> ~ In v top -> ranked_before words w v)
  /\ top_words "machine learning helps machine learning projects"
     = ["machine"; "learning"; "helps"; "projects"].
Proof.
  intros words top Hord.
  assert (Etop : top = firstn 5 (ranking words))
    by (apply top_words_ranking; exact Hord).
  pose proof (ranking_perm words) as Hperm.
  pose proof (ranking_sorted words) as Hsorted.
  rewrite <- (firstn_skipn 5 (ranking words)) in Hsorted.
  apply sorted_app_inv in Hsorted as [Hs1 Hs2].
  assert (Hnd : List.NoDup (ranking words)).
  { eapply Permutation_NoDup; [symmetry; exact Hperm|].
    apply Mentions.NoDup_dedup. }
  repeat apply conj.
  - intros w. subst words. unfold context_words.
    rewrite !filter_In. unfold longer_than_3, not_stopword.
    rewrite Nat.ltb_lt, negb_true_iff.
    rewrite <- not_true_iff_false, Mentions.existsb_eqb_In. tauto.
  - rewrite Etop, length_firstn. f_equal.
    now apply Permutation_length.
  - rewrite Etop. rewrite <- (firstn_skipn 5 (ranking words)) in Hnd.
    now apply List.NoDup_app_remove_r in Hnd.
  - intros w Hw. rewrite Etop in Hw.
    assert (Hin : In w (ranking words)).
    { rewrite <- (firstn_skipn 5 (ranking words)). apply in_or_app. now left. }
    apply (Permutation_in _ Hperm) in Hin as Hw'.
    exact (proj1 (Mentions.In_dedup _ _) Hw').
  - rewrite Etop. exact Hs1.
  - intros w v Hw Hv Hnv. rewrite Etop in Hw, Hnv.
    apply Hs2; [exact Hw|].
    apply (proj2 (Mentions.In_dedup _ _)) in Hv.
    apply (Permutation_in _ (Permutation_sym Hperm)) in Hv.
    rewrite <- (firstn_skipn 5 (ranking words)) in Hv.
    apply in_app_or in Hv as [Hv|Hv]; [contradiction|exact Hv].
  - vm_compute. reflexivity.
Qed.

Lemma top_words_witness :
  top_words "Plan for 2025 and 2024: review, review plans"
  = ["review"; "2024"; "2025"; "plan"; "plans"]
  /\ StronglySorted
       (ranked_before
          (context_words "Plan for 2025 and 2024: review, review plans"))
       (top_words "Plan for 2025 and 2024: review, review plans").
Proof.
  split; [vm_compute; reflexivity|].
  exact (proj1 (proj2 (proj2 (proj2 (proj2
    (top_words_spec "Plan for 2025 and 2024: review, review plans"
       eq_refl)))))).
Defined.

End Keywords.

(** ** Dates and the names of daily notes *)

Module Calendar.

Import Regex JsDate Dive Statements JsDateFacts.

Lemma range_In (lo : Z) (n : nat) (x : Z) :
  lo <= x < lo + Z.of_nat n -> In x (range lo n).
Proof.
  intros H. unfold range. apply in_map_iff.
  exists (Z.to_nat (x - lo)). split; [lia|].
  apply in_seq. lia.
Qed.

Lemma range_forallb (p : Z -> bool) (lo : Z) (n : nat) (x : Z) :
  forallb p (range lo n) = true -> lo <= x < lo + Z.of_nat n -> p x = true.
Proof.
  intros H Hx. rewrite forallb_forall in H. apply H, range_In, Hx.
Qed.

(** Both conversions move with the 400-year cycle of the calendar. *)
Lemma days_from_civil_cycle (y m d k : Z) :
  days_from_civil (y + 400 * k) m d = days_from_civil y m d + 146097 * k.
Proof.
  unfold days_from_civil; cbv zeta.
  destruct (m <=? 2); destruct (2 <? m);
    Z.div_mod_to_equations; lia.
Qed.

Lemma civil_from_days_cycle (n k : Z) :
  civil_from_days (n + 146097 * k)
  = let '(y, m, d) := civil_from_days n in (y + 400 * k, m, d).
Proof.
  unfold civil_from_days; cbv zeta.
  replace ((n + 146097 * k + 719468) / 146097)
    with ((n + 719468) / 146097 + k) by (Z.div_mod_to_equations; lia).
  replace (n + 146097 * k + 719468 - ((n + 719468) / 146097 + k) * 146097)
    with (n + 719468 - (n + 719468) / 146097 * 146097) by lia.
  set (doe := n + 719468 - (n + 719468) / 146097 * 146097).
  set (yoe := (doe - doe / 1460 + doe / 36524 - doe / 146096) / 365).
  set (mp := (5 * (doe - (365 * yoe + yoe / 4 - yoe / 100)) + 2) / 153).
  destruct ((if mp <? 10 then mp + 3 else mp - 9) <=? 2);
    f_equal; f_equal; lia.
Qed.

Lemma valid_date_cycle (y m d k : Z) :
  valid_date (y + 400 * k) m d = valid_date y m d.
Proof.
  unfold valid_date, days_in_month, is_leap.
  replace ((y + 400 * k) mod 4) with (y mod 4)
    by (Z.div_mod_to_equations; lia).
  replace ((y + 400 * k) mod 100) with (y mod 100)
    by (Z.div_mod_to_equations; lia).
  replace ((y + 400 * k) mod 400) with (y mod 400)
    by (Z.div_mod_to_equations; lia).
  reflexivity.
Qed.

(** The dates of one cycle, checked one by one. *)
Lemma one_cycle_reads_back :
  forallb (fun y =>
    forallb (fun m => forallb (reads_back y m) (range 1 31)) (range 1 12))
    (range 0 400) = true.
Proof. vm_compute. reflexivity. Qed.

(** A date of the calendar is read back from its day number. *)
Lemma civil_from_days_inverse (y m d : Z) :
  valid_date y m d = true ->
  civil_from_days (days_from_civil y m d) = (y, m, d).
Proof.
  intros Hv.
  pose proof Hv as Hv'. unfold valid_date in Hv'.
  assert (Hd31 : days_in_month y m <= 31).
  { unfold days_in_month.
    repeat match goal with |- context [if ?b then _ else _] => destruct b end;
      lia. }
  assert (Hr : 1 <= m <= 12 /\ 1 <= d <= 31) by lia.
  set (k := y / 400). set (y0 := y mod 400).
  assert (Ey : y = y0 + 400 * k)
    by (subst k y0; Z.div_mod_to_equations; lia).
  assert (Hy0 : 0 <= y0 < 400)
    by (subst y0; Z.div_mod_to_equations; lia).
  rewrite Ey in Hv. rewrite valid_date_cycle in Hv.
  rewrite Ey at 1. rewrite days_from_civil_cycle, civil_from_days_cycle.
  pose proof one_cycle_reads_back as H.
  apply (range_forallb _ 0 400 y0) in H; [|lia].
  apply (range_forallb _ 1 12 m) in H; [|lia].
  apply (range_forallb _ 1 31 d) in H; [|lia].
  unfold reads_back in H. rewrite Hv in H. cbn [negb orb] in H.
  destruct (civil_from_days (days_from_civil y0 m d)) as [[y' m'] d'].
  f_equal; [f_equal|]; lia.
Qed.

End Calendar.

Module DateNames.

Import Regex JsDate Dive Statements JsDateFacts.

Local Arguments String.append : simpl nomatch.

(** *** Numerals *)

Lemma year_numeral_ok (y : Z) :
  four_digit_year y = true -> year_numeral y = true.
Proof.
  unfold four_digit_year. intros H.
  assert (Hall : forallb year_numeral (range 1000 (Z.to_nat 9000)) = true)
    by (vm_compute; reflexivity).
  apply (Calendar.range_forallb _ _ _ _ Hall). lia.
Qed.

Lemma padded_numeral_ok (n : Z) : 0 <= n <= 99 -> padded_numeral n = true.
Proof.
  intros H.
  assert (Hall : forallb padded_numeral (range 0 100) = true)
    by (vm_compute; reflexivity).
  apply (Calendar.range_forallb _ _ _ _ Hall). lia.
Qed.

Lemma short_numeral_ok (n : Z) : 0 <= n <= 99 -> short_numeral n = true.
Proof.
  intros H.
  assert (Hall : forallb short_numeral (range 0 100) = true)
    by (vm_compute; reflexivity).
  apply (Calendar.range_forallb _ _ _ _ Hall). lia.
Qed.

Lemma year_numeral_digits (y : Z) :
  four_digit_year y = true ->
  digit_string 4 4 (Js.of_Z y) = true /\ Js.parseInt (Js.of_Z y) = y.
Proof.
  intros H. apply year_numeral_ok in H. unfold year_numeral in H.
  destruct (Js.of_Z y) as [|a [|b [|c [|d [|e s]]]]]; try discriminate H.
  apply andb_prop in H as [H Hp]. apply andb_prop in H as [H Hd].
  apply andb_prop in H as [H Hc]. apply andb_prop in H as [Ha Hb].
  split; [|lia]. unfold digit_string. cbn -[Js.is_digit].
  repeat match goal with D : Js.is_digit _ = true |- _ => rewrite D; clear D end.
  reflexivity.
Qed.

Lemma padded_numeral_digits (n : Z) :
  0 <= n <= 99 ->
  digit_string 2 2 (Js.padStart2 (Js.of_Z n)) = true
  /\ Js.parseInt (Js.padStart2 (Js.of_Z n)) = n.
Proof.
  intros H. apply padded_numeral_ok in H. unfold padded_numeral in H.
  destruct (Js.padStart2 (Js.of_Z n)) as [|a [|b [|c s]]]; try discriminate H.
  apply andb_prop in H as [H Hp]. apply andb_prop in H as [Ha Hb].
  split; [|lia]. unfold digit_string. cbn -[Js.is_digit].
  repeat match goal with D : Js.is_digit _ = true |- _ => rewrite D; clear D end.
  reflexivity.
Qed.

Lemma short_numeral_digits (n : Z) :
  0 <= n <= 99 ->
  digit_string 1 2 (Js.of_Z n) = true /\ Js.parseInt (Js.of_Z n) = n.
Proof.
  intros H. apply short_numeral_ok in H. unfold short_numeral in H.
  destruct (Js.of_Z n) as [|a [|b [|c s]]]; try discriminate H.
  - apply andb_prop in H as [Ha Hp].
    split; [|lia]. unfold digit_string. cbn -[Js.is_digit].
    rewrite Ha. reflexivity.
  - apply andb_prop in H as [H Hp]. apply andb_prop in H as [Ha Hb].
    split; [|lia]. unfold digit_string. cbn -[Js.is_digit].
    rewrite Ha, Hb. reflexivity.
Qed.

(** *** Digit strings *)

Lemma digit_not_separator (c : ascii) :
  Js.is_digit c = true ->
  Ascii.eqb c "-" = false /\ Ascii.eqb c "/" = false.
Proof.
  destruct c as [[] [] [] [] [] [] [] []]; intros H; try discriminate H;
    split; reflexivity.
Qed.

Lemma split_char_piece (sep : ascii) (p r : string) :
  Js.sforall (fun c => negb (Ascii.eqb c sep)) p = true ->
  Js.split_char sep (p +:+ String sep r) = p :: Js.split_char sep r.
Proof.
  induction p as [|c p IH]; cbn [Js.sforall]; intros H.
  - cbn. now rewrite Ascii.eqb_refl.
  - apply andb_prop in H as [Hc Hp]. apply negb_true_iff in Hc.
    change (String c p +:+ String sep r) with (String c (p +:+ String sep r)).
    cbn [Js.split_char]. rewrite Hc, (IH Hp). reflexivity.
Qed.

Lemma split_char_last (sep : ascii) (p : string) :
  Js.sforall (fun c => negb (Ascii.eqb c sep)) p = true ->
  Js.split_char sep p = [p].
Proof.
  induction p as [|c p IH]; cbn [Js.sforall]; intros H; [reflexivity|].
  apply andb_prop in H as [Hc Hp]. apply negb_true_iff in Hc.
  cbn [Js.split_char]. rewrite Hc, (IH Hp). reflexivity.
Qed.

Lemma digits_no_dash (s : string) :
  Js.sforall Js.is_digit s = true ->
  Js.sforall (fun c => negb (Ascii.eqb c "-")) s = true.
Proof.
  apply Mentions.sforall_impl. intros c H.
  now rewrite (proj1 (digit_not_separator c H)).
Qed.

Lemma digits_no_slash (s : string) :
  Js.sforall Js.is_digit s = true ->
  Js.sforall (fun c => negb (Ascii.eqb c "/")) s = true.
Proof.
  apply Mentions.sforall_impl. intros c H.
  now rewrite (proj2 (digit_not_separator c H)).
Qed.

Lemma digit_string_sforall (lo hi : nat) (s : string) :
  digit_string lo hi s = true -> Js.sforall Js.is_digit s = true.
Proof.
  unfold digit_string. intros H.
  apply andb_prop in H as [H _]. now apply andb_prop in H as [H _].
Qed.

Lemma split_three (sep : ascii) (p0 p1 p2 : string) :
  Js.sforall (fun c => negb (Ascii.eqb c sep)) p0 = true ->
  Js.sforall (fun c => negb (Ascii.eqb c sep)) p1 = true ->
  Js.sforall (fun c => negb (Ascii.eqb c sep)) p2 = true ->
  Js.split_char sep (p0 +:+ String sep (p1 +:+ String sep p2))
  = [p0; p1; p2].
Proof.
  intros H0 H1 H2.
  now rewrite (split_char_piece _ _ _ H0), (split_char_piece _ _ _ H1),
    (split_char_last _ _ H2).
Qed.

(** *** The three shapes *)

Ltac chars :=
  unfold digit_string in *;
  cbn [Js.sforall String.length Nat.leb] in *;
  repeat match goal with
         | D : (_ && _) = true |- _ =>
             let D1 := fresh "D" in
             let D2 := fresh "D" in
             apply andb_prop in D as [D1 D2]
         end;
  try match goal with D : false = true |- _ => discriminate D end.

Lemma eq_ci_digit (c : ascii) :
  Js.is_digit c = true ->
  Js.eq_ci "/" c = false /\ Js.eq_ci "-" c = false.
Proof.
  destruct c as [[] [] [] [] [] [] [] []]; intros H; try discriminate H;
    split; reflexivity.
Qed.

Lemma separator_facts :
  Js.eq_ci "/" "/" = true /\ Js.eq_ci "/" "-" = false
  /\ Js.eq_ci "-" "-" = true /\ Js.eq_ci "-" "/" = false
  /\ Js.is_digit "-" = false /\ Js.is_digit "/" = false.
Proof. repeat split. Qed.

Ltac run_matcher :=
  destruct separator_facts as (F1 & F2 & F3 & F4 & F5 & F6);
  repeat (cbn -[Js.is_digit Js.eq_ci Z.add Z.mul Z.sub MakeDay new_Date];
          rewrite ?F1, ?F2, ?F3, ?F4, ?F5, ?F6;
          repeat match goal with
                 | D : Js.is_digit ?c = true |- context [Js.is_digit ?c] =>
                     rewrite D
                 | D : Js.is_digit ?c = true |- context [Js.eq_ci "/" ?c] =>
                     rewrite (proj1 (eq_ci_digit c D))
                 | D : Js.is_digit ?c = true |- context [Js.eq_ci "-" ?c] =>
                     rewrite (proj2 (eq_ci_digit c D))
                 end).


Ltac three_parts p0 p1 p2 :=
  destruct p0 as [|? [|? [|? ?]]];
  destruct p1 as [|? [|? [|? ?]]];
  destruct p2 as [|? [|? [|? [|? [|? ?]]]]]; chars.

Lemma slash_form_tests (p0 p1 p2 : string) :
  digit_string 1 2 p0 = true -> digit_string 1 2 p1 = true ->
  digit_string 2 4 p2 = true ->
  test iso_shape (p0 +:+ String "/" (p1 +:+ String "/" p2)) = false
  /\ test slash_shape (p0 +:+ String "/" (p1 +:+ String "/" p2)) = true.
Proof.
  intros H0 H1 H2. three_parts p0 p1 p2;
    (split;
     [unfold test, exec, iso_shape, digits; run_matcher; reflexivity
     |unfold test, exec, slash_shape, digits; run_matcher; reflexivity]).
Qed.

Lemma dash_form_tests (p0 p1 p2 : string) :
  digit_string 1 2 p0 = true -> digit_string 1 2 p1 = true ->
  digit_string 2 4 p2 = true ->
  test iso_shape (p0 +:+ String "-" (p1 +:+ String "-" p2)) = false
  /\ test slash_shape (p0 +:+ String "-" (p1 +:+ String "-" p2)) = false
  /\ test dash_shape (p0 +:+ String "-" (p1 +:+ String "-" p2)) = true.
Proof.
  intros H0 H1 H2. three_parts p0 p1 p2;
    (split; [|split];
     [unfold test, exec, iso_shape, digits; run_matcher; reflexivity
     |unfold test, exec, slash_shape, digits; run_matcher; reflexivity
     |unfold test, exec, dash_shape, digits; run_matcher; reflexivity]).
Qed.


Lemma parse_slash_form (p0 p1 p2 : string) :
  digit_string 1 2 p0 = true -> digit_string 1 2 p1 = true ->
  digit_string 2 4 p2 = true ->
  parse_date_string (p0 +:+ String "/" (p1 +:+ String "/" p2))
  = date_of_parts [p0; p1; p2].
Proof.
  intros H0 H1 H2. unfold parse_date_string.
  destruct (slash_form_tests _ _ _ H0 H1 H2) as [-> ->].
  rewrite split_three;
    eauto using digits_no_slash, digit_string_sforall.
Qed.

Lemma parse_dash_form (p0 p1 p2 : string) :
  digit_string 1 2 p0 = true -> digit_string 1 2 p1 = true ->
  digit_string 2 4 p2 = true ->
  parse_date_string (p0 +:+ String "-" (p1 +:+ String "-" p2))
  = date_of_parts [p0; p1; p2].
Proof.
  intros H0 H1 H2. unfold parse_date_string.
  destruct (dash_form_tests _ _ _ H0 H1 H2) as (-> & -> & ->).
  rewrite split_three;
    eauto using digits_no_dash, digit_string_sforall.
Qed.

(** *** Dates *)

Lemma MakeDay_civil (y m d : Z) :
  1 <= m <= 12 -> MakeDay y (m - 1) d = days_from_civil y m d.
Proof.
  intros Hm. unfold MakeDay.
  replace ((m - 1) / 12) with 0 by (Z.div_mod_to_equations; lia).
  replace ((m - 1) mod 12 + 1) with m by (Z.div_mod_to_equations; lia).
  replace (y + 0) with y by lia.
  unfold days_from_civil; cbv zeta. lia.
Qed.

Lemma valid_date_range (y m d : Z) :
  valid_date y m d = true -> 1 <= m <= 12 /\ 1 <= d <= 31.
Proof.
  unfold valid_date, days_in_month. intros H.
  repeat match type of H with
         | context [if ?b then _ else _] => destruct b
         end; lia.
Qed.

Lemma formats_head (t : Z) :
  head (formats t)
  = Some (Js.of_Z (getFullYear t)
          +:+ String "-" (Js.padStart2 (Js.of_Z (getMonth t + 1))
          +:+ String "-" (Js.padStart2 (Js.of_Z (getDate t))))).
Proof. reflexivity. Qed.



(** X2.  A literal month/day/year, with slashes or dashes, that names a
    date of the calendar with a four-digit year resolves to that date:
    its year, month and day are the ones written, whether month and day
    are written with one digit or two, and the first name under which the
    locator looks for the note is year-month-day with month and day
    padded to two digits.  A two-digit year [yy] names the year
    2000 + [yy]. *)
Theorem literal_of_valid_date (y m d : Z) (p0 p1 : string) :
  valid_date y m d = true ->
  four_digit_year y = true ->
  digit_string 1 2 p0 = true -> Js.parseInt p0 = m ->
  digit_string 1 2 p1 = true -> Js.parseInt p1 = d ->
  let t := days_from_civil y m d in
  parse_date_string (p0 +:+ String "/" (p1 +:+ String "/" (Js.of_Z y)))
  = Some t
  /\ parse_date_string (p0 +:+ String "-" (p1 +:+ String "-" (Js.of_Z y)))
     = Some t
  /\ (forall yy, 0 <= yy <= 99 -> y = 2000 + yy ->
      parse_date_string
        (p0 +:+ String "/" (p1 +:+ String "/" (Js.padStart2 (Js.of_Z yy))))
      = Some t)
  /\ (getFullYear t = y /\ getMonth t = m - 1 /\ getDate t = d)
  /\ head (formats t)
     = Some (Js.of_Z y +:+ String "-" (Js.padStart2 (Js.of_Z m)
             +:+ String "-" (Js.padStart2 (Js.of_Z d)))).
Proof.
  intros Hv Hy H0 E0 H1 E1 t.
  destruct (valid_date_range _ _ _ Hv) as [Hm Hd].
  destruct (year_numeral_digits y Hy) as [HY EY].
  assert (HY' : digit_string 2 4 (Js.of_Z y) = true).
  { unfold digit_string in *.
    apply andb_prop in HY as [HY Hhi]. apply andb_prop in HY as [HY Hlo].
    apply Nat.leb_le in Hhi, Hlo. rewrite HY. cbn [andb].
    apply andb_true_intro. split; apply Nat.leb_le; lia. }
  assert (HL : String.length (Js.of_Z y) = 4%nat).
  { unfold digit_string in HY.
    apply andb_prop in HY as [HY Hhi]. apply andb_prop in HY as [HY Hlo].
    apply Nat.leb_le in Hhi, Hlo. lia. }
  unfold four_digit_year in Hy.
  assert (Hnew : forall year, year = y -> new_Date year (m - 1) d = t).
  { intros year ->. unfold new_Date.
    replace ((0 <=? y) && (y <=? 99)) with false
      by (symmetry; apply andb_false_iff; right; lia).
    now apply MakeDay_civil. }
  assert (Hciv : civil_from_days t = (y, m, d))
    by (apply Calendar.civil_from_days_inverse; exact Hv).
  repeat apply conj.
  - rewrite (parse_slash_form _ _ _ H0 H1 HY').
    unfold date_of_parts. rewrite HL, E0, E1, EY. cbn [Nat.eqb].
    now rewrite Hnew.
  - rewrite (parse_dash_form _ _ _ H0 H1 HY').
    unfold date_of_parts. rewrite HL, E0, E1, EY. cbn [Nat.eqb].
    now rewrite Hnew.
  - intros yy Hyy Eyy.
    destruct (padded_numeral_digits yy Hyy) as [Hp Ep].
    assert (Hp' : digit_string 2 4 (Js.padStart2 (Js.of_Z yy)) = true).
    { unfold digit_string in *.
      apply andb_prop in Hp as [Hp Hhi]. apply andb_prop in Hp as [Hp Hlo].
      apply Nat.leb_le in Hhi, Hlo. rewrite Hp. cbn [andb].
      apply andb_true_intro. split; apply Nat.leb_le; lia. }
    assert (HLp : String.length (Js.padStart2 (Js.of_Z yy)) = 2%nat).
    { unfold digit_string in Hp.
      apply andb_prop in Hp as [Hp Hhi]. apply andb_prop in Hp as [Hp Hlo].
      apply Nat.leb_le in Hhi, Hlo. lia. }
    rewrite (parse_slash_form _ _ _ H0 H1 Hp').
    unfold date_of_parts. rewrite HLp, E0, E1, Ep. cbn [Nat.eqb].
    rewrite Hnew; [reflexivity|lia].
  - unfold getFullYear. now rewrite Hciv.
  - unfold getMonth. now rewrite Hciv.
  - unfold getDate. now rewrite Hciv.
  - rewrite formats_head. unfold getFullYear, getMonth, getDate.
    rewrite Hciv. cbn [fst snd]. now replace (m - 1 + 1) with m by lia.
Qed.

(** The leap day of 2024, written 2/29/2024. *)
Lemma literal_of_valid_date_witness :
  parse_date_string "2/29/2024" = Some (days_from_civil 2024 2 29)
  /\ head (formats (days_from_civil 2024 2 29)) = Some "2024-02-29".
Proof.
  pose proof (literal_of_valid_date 2024 2 29 "2" "29"
                eq_refl eq_refl eq_refl eq_refl eq_refl eq_refl)
    as (H1 & _ & _ & _ & H5).
  split; [exact H1 | exact H5].
Defined.

End DateNames.

(** ** The documents attached to a message *)

Module Attachments.

Import Regex JsDate Dive DiveView Statements JsDateFacts DateNames.

Local Arguments String.append : simpl nomatch.

(** *** The block of a daily note *)

Lemma date_in_name_exec (Y M D : string) :
  digit_string 4 4 Y = true -> digit_string 2 2 M = true ->
  digit_string 2 2 D = true ->
  exists m,
    exec date_in_name (Y +:+ String "-" (M +:+ String "-" D)) = Some m
    /\ group 1 m = Some Y /\ group 2 m = Some M /\ group 3 m = Some D.
Proof.
  intros HY HM HD.
  destruct Y as [|a [|b [|c [|d [|e s]]]]];
    destruct M as [|f [|g [|h s']]];
    destruct D as [|i [|j [|k s'']]]; chars.
  unfold exec, date_in_name, digits.
  run_matcher. eexists. split; [reflexivity|].
  repeat split.
Qed.

(** X3.  The note that the locator finds under the name YYYY-MM-DD of a
    day with a four-digit year is handed to the model as the daily note
    of exactly that date: its block is headed
    [Your daily note for YYYY-MM-DD]. *)
Theorem daily_note_block (t : Z) (fmt c : string) :
  four_digit_year (getFullYear t) = true ->
  head (formats t) = Some fmt ->
  file_block {| name := fmt; note_content := c |} = daily_block fmt c.
Proof.
  intros Hy Hfmt. rewrite formats_head in Hfmt. injection Hfmt as <-.
  unfold getFullYear, getMonth, getDate in *.
  pose proof (civil_round_trip t) as H.
  destruct (civil_from_days t) as [[y m] d]; cbn [fst snd] in *.
  destruct H as (Ht & Hm & Hd).
  replace (m - 1 + 1) with m by lia.
  destruct (year_numeral_digits y Hy) as [HY _].
  destruct (padded_numeral_digits m) as [HM _]; [lia|].
  destruct (padded_numeral_digits d) as [HD _]; [lia|].
  destruct (date_in_name_exec _ _ _ HY HM HD) as (r & Hr & G1 & G2 & G3).
  unfold file_block, is_daily_note, test. cbn [name note_content].
  rewrite Hr, G1, G2, G3. cbn [orb or_empty]. unfold daily_block.
  change ("-" +:+ ?x) with (String "-" x).
  now rewrite !Mentions.app_assoc_s.
Qed.

Lemma daily_note_block_witness :
  file_block {| name := "2024-01-01"; note_content := "notes" |}
  = daily_block "2024-01-01" "notes".
Proof.
  apply (daily_note_block 19723 "2024-01-01" "notes"); reflexivity.
Defined.

(** *** Where the attached documents come from *)

Lemma from_files_mono (files files' : list TFile) (n : note) :
  (forall f, In f files -> In f files') ->
  from_files files n -> from_files files' n.
Proof. intros H (f & H1 & H2). exists f. auto. Qed.

Lemma find_daily_note_from_files (files : list TFile) (date : Z) (n : note) :
  find_daily_note files date = Some n -> from_files files n.
Proof.
  unfold find_daily_note. intros H.
  apply Locator.first_note_sound in H as (fmt & f & _ & H2 & H3 & H4).
  apply Locator.build_file_map_lookup in H2 as [H2 _].
  exists f. auto.
Qed.

Lemma resolve_reference_from_files (files : list TFile)
    (fileName : string) (n : note) :
  In n (fst (resolve_reference files fileName)) -> from_files files n.
Proof.
  unfold resolve_reference.
  destruct (find _ files) as [file|] eqn:E.
  - apply find_some in E as [E _].
    destruct (content file) as [c|] eqn:Ec; cbn; [|tauto].
    intros [<-|[]]. exists file. auto.
  - destruct (find (fuzzy fileName) files) as [file|] eqn:E'; [|cbn; tauto].
    apply find_some in E' as [E' _].
    destruct (content file) as [c|] eqn:Ec; cbn; [|tauto].
    intros [<-|[]]. exists file. auto.
Qed.

Lemma resolve_references_from_files (files : list TFile)
    (refs : list string) (n : note) :
  In n (fst (resolve_references files refs)) -> from_files files n.
Proof.
  induction refs as [|r refs IH]; cbn [resolve_references]; [cbn; tauto|].
  pose proof (resolve_reference_from_files files r n) as Hr.
  destruct (resolve_reference files r) as [found shown].
  destruct (resolve_references files refs) as [found' shown'].
  cbn [fst] in *. intros H. apply in_app_or in H as [H|H]; auto.
Qed.

(** Each round of the loop over the references attaches one document or
    shows one notice, never both. *)
Lemma resolve_reference_one (files : list TFile) (fileName : string) :
  (length (fst (resolve_reference files fileName))
   + length (snd (resolve_reference files fileName)) = 1)%nat.
Proof.
  unfold resolve_reference.
  destruct (find _ files) as [file|].
  - destruct (content file); reflexivity.
  - destruct (find (fuzzy fileName) files) as [file|]; [|reflexivity].
    destruct (content file); reflexivity.
Qed.

(** X4.  Nothing is attached to a message that is not in the vault:
    every document that [prepareMessage] includes is a markdown file of
    the vault, or the active file, under its own basename and with the
    content read from it; and the mention tokens are all accounted for,
    each by one attached document or by one notice. *)
Theorem included_files_from_sources (files : list TFile) (today : Z)
    (include : bool) (activeFile : option TFile) (userInput : string) :
  (forall n,
     In n (fst (included_files files today include activeFile userInput)) ->
     from_files (sources files activeFile) n)
  /\ (let r := resolve_references files (extractFileReferences userInput) in
      length (fst r) + length (snd r)
      = length (extractFileReferences userInput))%nat.
Proof.
  split.
  - intros n. unfold included_files.
    pose proof (resolve_references_from_files files
                  (extractFileReferences userInput) n) as He.
    destruct (resolve_references files (extractFileReferences userInput))
      as [explicit shown].
    assert (Hc : In n (fst (current_file include activeFile
                              (extractFileReferences userInput))) ->
                 from_files (sources files activeFile) n).
    { unfold current_file. destruct include; [|cbn; tauto].
      destruct activeFile as [f|]; [|cbn; tauto].
      destruct (content f) as [[|a c]|] eqn:Ec; try (cbn; tauto).
      destruct (named_by _ _); cbn; [tauto|].
      intros [<-|[]]. exists f. cbn. auto. }
    destruct (current_file include activeFile
                (extractFileReferences userInput)) as [current shown'].
    cbn [fst] in *. intros H.
    assert (Hs : forall f, In f files -> In f (sources files activeFile))
      by (intros f Hf; destruct activeFile; cbn; auto).
    apply in_app_or in H as [H|H]; [|apply in_app_or in H as [H|H]]; auto.
    + unfold time_related in H. apply filter_In in H as [H _].
      unfold check_time_related_query in H.
      destruct (target_date today userInput) as [d|]; [|contradiction].
      destruct (find_daily_note files d) as [n'|] eqn:E; [|contradiction].
      destruct H as [<-|[]].
      eapply from_files_mono; [exact Hs|].
      eapply find_daily_note_from_files; exact E.
    + eapply from_files_mono; [exact Hs|]. auto.
  - cbv zeta.
    induction (extractFileReferences userInput) as [|r refs IH];
      [reflexivity|].
    cbn [resolve_references].
    pose proof (resolve_reference_one files r) as H1.
    destruct (resolve_reference files r) as [found shown].
    destruct (resolve_references files refs) as [found' shown'].
    cbn [fst snd length] in *. rewrite !length_app. lia.
Qed.

(** *** What the API text holds *)

Lemma includes_inside (s t : string) : inside s t -> Js.includes t s = true.
Proof.
  intros (a & b & ->). induction a as [|c a IH].
  - cbn [String.append]. destruct (s +:+ b) as [|c r] eqn:E.
    + destruct s; [reflexivity|discriminate E].
    + rewrite Mentions.includes_cons, <- E, Mentions.strip_prefix_app.
      reflexivity.
  - change (String c a +:+ s +:+ b) with (String c (a +:+ s +:+ b)).
    rewrite Mentions.includes_cons.
    destruct (Js.strip_prefix s _); [reflexivity|exact IH].
Qed.

Lemma inside_refl (s : string) : inside s s.
Proof. exists "", "". cbn. now rewrite Mentions.app_nil_r_s. Qed.

Lemma inside_app_l (s t u : string) : inside s t -> inside s (t +:+ u).
Proof.
  intros (a & b & ->). exists a, (b +:+ u).
  now rewrite !Mentions.app_assoc_s.
Qed.

Lemma inside_app_r (s t u : string) : inside s t -> inside s (u +:+ t).
Proof.
  intros (a & b & ->). exists (u +:+ a), b.
  now rewrite !Mentions.app_assoc_s.
Qed.

Lemma inside_file_block (file : note) :
  inside (note_content file) (file_block file).
Proof.
  unfold file_block. destruct (is_daily_note (name file)).
  - do 6 apply inside_app_r. apply inside_app_l, inside_refl.
  - do 5 apply inside_app_r. apply inside_app_l, inside_refl.
Qed.

Lemma inside_filesContent (l : list note) (acc : string) (n : note) :
  In n l \/ inside (note_content n) acc ->
  inside (note_content n)
    (fold_left (fun acc file => acc +:+ file_block file) l acc).
Proof.
  revert acc. induction l as [|f l IH]; intros acc; cbn [fold_left].
  - intros [[]|H]. exact H.
  - intros [[->|H]|H]; apply IH.
    + right. apply inside_app_r, inside_file_block.
    + left. exact H.
    + right. apply inside_app_l. exact H.
Qed.

(** X5.  The text sent to the model always holds the user's input as
    typed, mentions included, and the content of every attached document;
    the names shown with the message are those of the attached
    documents, in their order; and when nothing is attached, the message
    is shown as typed and, at the start of a conversation, sent as
    typed. *)
Theorem apiText_holds_input (files : list TFile) (today : Z)
    (settings : Settings) (activeFile : option TFile) (view : View)
    (userInput : string) :
  let p := prepareMessage files today settings activeFile view userInput in
  let includedFiles :=
    fst (included_files files today (includeCurrentFile settings)
           activeFile userInput) in
  Js.includes (apiText p) userInput = true
  /\ (forall n, In n includedFiles ->
      Js.includes (apiText p) (note_content n) = true)
  /\ (includedFiles <> [] ->
      displayText p
      = WithFiles (removeFileReferences userInput) (map name includedFiles))
  /\ (includedFiles = [] ->
      displayText p = Plain userInput
      /\ (chatHistory view = [] -> apiText p = userInput)).
Proof.
  cbv zeta. unfold prepareMessage.
  destruct (included_files files today (includeCurrentFile settings)
              activeFile userInput) as [includedFiles shown].
  cbn [fst].
  set (context := analyze_conversation_context userInput).
  set (cond := negb (Js.is_empty context)
               && negb (Nat.eqb (length (chatHistory view)) 0)).
  assert (Hwrap : forall base s,
            inside s base ->
            Js.includes
              (if cond
               then base +:+ nl +:+ nl +:+ "Conversation context: "
                    +:+ context
               else base) s = true).
  { intros base s H. apply includes_inside.
    destruct cond; [apply inside_app_l|]; exact H. }
  destruct includedFiles as [|f l]; cbn [displayText apiText].
  - repeat split; try congruence.
    + apply Hwrap, inside_refl.
    + intros n [].
    + intros Hh. subst cond. rewrite Hh. cbn [length Nat.eqb negb].
      now rewrite andb_false_r.
  - repeat split; try congruence.
    + apply Hwrap. do 5 apply inside_app_r. apply inside_app_l, inside_refl.
    + intros n Hn. apply Hwrap. apply inside_app_l.
      apply inside_filesContent. left. exact Hn.
Qed.

(** *** Files that share a name, and names with a folder *)

Lemma foldl_file_map_keep (files : list TFile) (m : gmap string TFile)
    (k : string) :
  (forall h, In h files -> Js.toLowerCase (basename h) <> k) ->
  foldl (fun m f => <[Js.toLowerCase (basename f) := f]> m) m files !! k
  = m !! k.
Proof.
  revert m. induction files as [|g files IH]; intros m H; cbn [foldl].
  - reflexivity.
  - rewrite IH by (intros h Hh; apply H; now right).
    apply lookup_insert_ne. apply H. now left.
Qed.

(** The index holds, under a name, the last file of that name. *)
Lemma build_file_map_last (pre post : list TFile) (g : TFile) (k : string) :
  Js.toLowerCase (basename g) = k ->
  (forall h, In h post -> Js.toLowerCase (basename h) <> k) ->
  build_file_map (pre ++ g :: post) !! k = Some g.
Proof.
  intros Hg Hpost. unfold build_file_map.
  rewrite foldl_app. cbn [foldl].
  rewrite foldl_file_map_keep by exact Hpost.
  subst k. apply lookup_insert_eq.
Qed.

Lemma find_first (p : TFile -> bool) (pre post : list TFile) (f : TFile) :
  (forall h, In h pre -> p h = false) -> p f = true ->
  find p (pre ++ f :: post) = Some f.
Proof.
  intros Hpre Hf. induction pre as [|h pre IH]; cbn [app find].
  - now rewrite Hf.
  - rewrite (Hpre h) by now left. apply IH. intros x Hx. apply Hpre. now right.
Qed.

(** X6.  When several files of the vault share the name YYYY-MM-DD of a
    day (basenames do not tell folders apart, and are compared without
    regard to case), the locator returns the last of them in the order
    of the vault, while a mention of that name resolves to the first. *)
Theorem shared_name (pre mid post : list TFile) (f g : TFile) (date : Z)
    (fmt cf cg : string) :
  head (formats date) = Some fmt ->
  same_name (basename f) fmt = true ->
  same_name (basename g) fmt = true ->
  (forall h, In h pre -> same_name (basename h) fmt = false) ->
  (forall h, In h post -> same_name (basename h) fmt = false) ->
  content f = Some cf -> content g = Some cg ->
  let files := pre ++ f :: mid ++ g :: post in
  find_daily_note files date
  = Some {| name := basename g; note_content := cg |}
  /\ resolve_reference files fmt
     = ([{| name := basename f; note_content := cf |}], []).
Proof.
  intros Hfmt Hf Hg Hpre Hpost Hcf Hcg files. split.
  - unfold find_daily_note.
    destruct (formats date) as [|fmt' rest] eqn:E; [discriminate Hfmt|].
    injection Hfmt as ->. cbn [first_note].
    subst files.
    replace (pre ++ f :: mid ++ g :: post)
      with ((pre ++ f :: mid) ++ g :: post)
      by (rewrite <- app_assoc; reflexivity).
    rewrite (build_file_map_last _ _ g).
    + now rewrite Hcg.
    + apply String.eqb_eq. exact Hg.
    + intros h Hh. apply String.eqb_neq. apply Hpost. exact Hh.
  - unfold resolve_reference. subst files.
    rewrite (find_first _ pre _ f); [now rewrite Hcf| |exact Hf].
    exact Hpre.
Qed.

Lemma shared_name_witness :
  find_daily_note
    [ {| basename := "2024-01-01"; path := "a/2024-01-01.md";
         content := Some "first" |};
      {| basename := "2024-01-01"; path := "b/2024-01-01.md";
         content := Some "second" |} ]
    19723
  = Some {| name := "2024-01-01"; note_content := "second" |}
  /\ resolve_reference
       [ {| basename := "2024-01-01"; path := "a/2024-01-01.md";
            content := Some "first" |};
         {| basename := "2024-01-01"; path := "b/2024-01-01.md";
            content := Some "second" |} ]
       "2024-01-01"
     = ([{| name := "2024-01-01"; note_content := "first" |}], []).
Proof.
  apply (shared_name [] [] []
           {| basename := "2024-01-01"; path := "a/2024-01-01.md";
              content := Some "first" |}
           {| basename := "2024-01-01"; path := "b/2024-01-01.md";
              content := Some "second" |}
           19723 "2024-01-01" "first" "second");
    try reflexivity; intros h [].
Defined.

Lemma lower_char_slash (c : ascii) :
  Ascii.eqb (Js.lower_char c) "/" = Ascii.eqb c "/".
Proof. destruct c as [[] [] [] [] [] [] [] []]; reflexivity. Qed.

Lemma toLowerCase_no_slash (s : string) :
  Js.sforall (fun c => negb (Ascii.eqb c "/")) (Js.toLowerCase s)
  = Js.sforall (fun c => negb (Ascii.eqb c "/")) s.
Proof.
  induction s as [|c s IH]; [reflexivity|].
  cbn [Js.toLowerCase Js.smap Js.sforall].
  rewrite lower_char_slash. f_equal. exact IH.
Qed.

(** X7.  The candidate names daily/YYYY-MM-DD and journal/YYYY-MM-DD
    never find a note when no basename holds a slash, as is the case for
    the basenames of a vault: the locator then returns what the first
    two candidates, YYYY-MM-DD and MM-DD-YYYY, give. *)
Theorem folder_candidates_never_hit (files : list TFile) (date : Z) :
  forallb no_slash files = true ->
  find_daily_note files date
  = first_note (build_file_map files) (firstn 2 (formats date)).
Proof.
  intros Hfiles. unfold find_daily_note.
  assert (Hmiss : forall k,
            Js.sforall (fun c => negb (Ascii.eqb c "/")) k = false ->
            build_file_map files !! k = None).
  { intros k Hk. apply Locator.build_file_map_miss. intros g Hg E.
    rewrite forallb_forall in Hfiles. specialize (Hfiles g Hg).
    unfold no_slash in Hfiles.
    rewrite <- toLowerCase_no_slash, E, Hk in Hfiles. discriminate. }
  unfold formats. cbv zeta. cbn [firstn first_note].
  set (m := build_file_map files) in *.
  rewrite (Hmiss (Js.toLowerCase ("daily/" +:+ _))) by reflexivity.
  rewrite (Hmiss (Js.toLowerCase ("journal/" +:+ _))) by reflexivity.
  repeat match goal with
         | |- context [match ?x with _ => _ end] => destruct x
         end; reflexivity.
Qed.

Lemma folder_candidates_never_hit_witness :
  find_daily_note
    [ {| basename := "01-01-2024"; path := "daily/01-01-2024.md";
         content := Some "new year" |} ]
    19723
  = Some {| name := "01-01-2024"; note_content := "new year" |}.
Proof.
  exact (folder_candidates_never_hit
           [ {| basename := "01-01-2024"; path := "daily/01-01-2024.md";
                content := Some "new year" |} ]
           19723 eq_refl).
Defined.

End Attachments.

(** ** Queries that cannot be time-related *)

Module Queries.

Import Regex JsDate Dive Statements.

Lemma all_ascii_In (c : ascii) : In c all_ascii.
Proof.
  unfold all_ascii. apply in_map_iff. exists (nat_of_ascii c).
  split; [apply ascii_nat_embedding|].
  apply in_seq. pose proof (nat_ascii_bounded c). lia.
Qed.

Lemma only_spaces_spec (p : ascii -> bool) (c : ascii) :
  only_spaces p = true -> Js.is_space c = false -> p c = false.
Proof.
  unfold only_spaces. rewrite forallb_forall. intros H Hc.
  specialize (H c (all_ascii_In c)). rewrite Hc in H.
  destruct (p c); [discriminate H|reflexivity].
Qed.

Lemma rmatch_Rep (lo hi : nat) (a : regex) (x : pos) (cs : caps)
    (k : cont) :
  rmatch (Rep lo hi a) x cs k = rep_match (rmatch a) k hi lo x cs.
Proof. reflexivity. Qed.

Lemma many_match_refused (lo : nat) (p : ascii -> bool) (k : cont)
    (cs : caps) (s : string) (pv : option ascii) (n : nat) :
  refuses k -> no_space s = true -> many_match lo p k cs s pv n = None.
Proof.
  intros Hk. revert pv n.
  induction s as [|c s IH]; intros pv n Hs; cbn [many_match].
  - rewrite (Hk (Pos pv "") cs) by reflexivity. now destruct (Nat.leb lo n).
  - rewrite (Hk (Pos pv (String c s)) cs) by exact Hs.
    cbn [no_space Js.sforall] in Hs. apply andb_prop in Hs as [_ Hs].
    rewrite (IH (Some c) (S n) Hs).
    destruct (p c); now destruct (Nat.leb lo n).
Qed.

(** On a text without white space the matcher only reaches positions of
    that text. *)
Lemma rmatch_refused (r : regex) :
  forall x cs k, no_space (rest x) = true -> refuses k ->
                 rmatch r x cs k = None.
Proof.
  induction r as [|p|a IHa b IHb|a IHa b IHb|lo hi a IHa|lo p|i a IHa| | | |
                  |a IHa];
    intros x cs k Hx Hk; cbn [rmatch].
  - now apply Hk.
  - destruct x as [pv [|c s]]; cbn [rest] in *; [reflexivity|].
    destruct (p c); [|reflexivity]. apply Hk. cbn [rest].
    cbn [no_space Js.sforall] in Hx. now apply andb_prop in Hx as [_ Hx].
  - apply IHa; [exact Hx|]. intros y cs' Hy. now apply IHb.
  - now rewrite IHa, IHb.
  - change (rep_match (rmatch a) k hi lo x cs = None).
    revert lo x cs Hx. induction hi as [|n IHn]; intros lo x cs Hx;
      cbn [rep_match].
    + now apply Hk.
    + cbv zeta. rewrite (IHa x cs), (Hk x cs Hx);
        [now destruct (Nat.eqb lo 0)|exact Hx|].
      intros y cs' Hy. destruct (_ && _); [reflexivity|]. now apply IHn.
  - now apply many_match_refused.
  - apply IHa; [exact Hx|]. intros y cs' Hy. now apply Hk.
  - rewrite (Hk x cs Hx). now destruct (prev x).
  - rewrite (Hk x cs Hx). now destruct (rest x).
  - rewrite (Hk x cs Hx). destruct (rest x) as [|c s]; [reflexivity|].
    now destruct (Js.is_line_terminator c).
  - rewrite (Hk x cs Hx). now destruct (xorb _ _).
  - destruct (rmatch a x cs accept) as [[y cs']|]; [now apply Hk|reflexivity].
Qed.

Lemma rmatch_needs_space (r : regex) :
  needs_space r = true ->
  forall x cs k, no_space (rest x) = true -> rmatch r x cs k = None.
Proof.
  induction r as [|p|a IHa b IHb|a IHa b IHb|lo hi a IHa|lo p|i a IHa| | | |
                  |a IHa];
    cbn [needs_space]; intros Hr x cs k Hx; try discriminate Hr;
    cbn [rmatch].
  - destruct x as [pv [|c s]]; cbn [rest] in *; [reflexivity|].
    cbn [no_space Js.sforall] in Hx. apply andb_prop in Hx as [Hc _].
    apply negb_true_iff in Hc. now rewrite (only_spaces_spec p c Hr Hc).
  - destruct (needs_space a) eqn:Ea.
    + now apply IHa.
    + cbn [orb] in Hr. apply rmatch_refused; [exact Hx|].
      intros y cs' Hy. now apply IHb.
  - apply andb_prop in Hr as [Ha Hb]. now rewrite IHa, IHb.
  - apply andb_prop in Hr as [Hr Ha]. apply andb_prop in Hr as [Hlo Hhi].
    apply negb_true_iff in Hlo, Hhi.
    destruct hi as [|n]; [discriminate Hhi|].
    change (rep_match (rmatch a) k (S n) lo x cs = None).
    cbn [rep_match]. cbv zeta. rewrite Hlo. now apply IHa.
  - apply andb_prop in Hr as [Hlo Hp]. apply negb_true_iff in Hlo.
    destruct lo as [|lo]; [discriminate Hlo|].
    destruct (rest x) as [|c s] eqn:E; cbn [many_match Nat.leb];
      [reflexivity|].
    cbn [no_space Js.sforall] in Hx. apply andb_prop in Hx as [Hc _].
    apply negb_true_iff in Hc. now rewrite (only_spaces_spec p c Hp Hc).
  - now apply IHa.
  - now rewrite IHa.
Qed.

Lemma search_needs_space (r : regex) (s : string) (pv : option ascii)
    (idx : nat) :
  needs_space r = true -> no_space s = true -> search r pv s idx = None.
Proof.
  intros Hr. revert pv idx.
  induction s as [|c s IH]; intros pv idx Hs; cbn [search];
    rewrite (rmatch_needs_space r Hr) by exact Hs; [reflexivity|].
  cbn [no_space Js.sforall] in Hs. apply andb_prop in Hs as [_ Hs].
  now apply IH.
Qed.

(** X8.  A query without any white-space character is never
    time-related: none of the four patterns matches it, so no date is
    chosen and no note is looked for, whatever the query names
    ([yesterday], [monday], [2024-01-05], ...). *)
Theorem query_without_space (files : list TFile) (today : Z)
    (query : string) :
  no_space query = true ->
  target_date today query = None
  /\ check_time_related_query files today query = [].
Proof.
  intros Hq.
  assert (Ht : forall r, needs_space r = true -> test r query = false).
  { intros r Hr. unfold test, exec. now rewrite search_needs_space. }
  assert (E : target_date today query = None).
  { unfold target_date.
    rewrite (Ht yesterday_pattern) by (vm_compute; reflexivity).
    rewrite (Ht today_pattern) by (vm_compute; reflexivity).
    rewrite (Ht specific_date_pattern) by (vm_compute; reflexivity).
    rewrite (Ht day_of_week_pattern) by (vm_compute; reflexivity).
    reflexivity. }
  split; [exact E|]. unfold check_time_related_query. now rewrite E.
Qed.

Lemma query_without_space_witness :
  target_date 19723 "yesterday" = None
  /\ check_time_related_query [] 19723 "yesterday" = [].
Proof. exact (query_without_space [] 19723 "yesterday" eq_refl). Defined.

End Queries.

(** ** The data file: settings and conversation *)

Module Persistence.

Import DiveView DataFile Statements.

Lemma updated_data_chat_history (view : View) (d : Data) :
  updated_data view d !! "chat_history" = Some (JTurns (chatHistory view)).
Proof.
  unfold updated_data.
  rewrite lookup_insert_ne by discriminate.
  rewrite lookup_insert_ne by discriminate.
  apply lookup_insert_eq.
Qed.

Lemma updated_data_conversation_id (view : View) (d : Data) :
  updated_data view d !! "conversation_id"
  = Some (JString (conversation_id view)).
Proof.
  unfold updated_data.
  rewrite lookup_insert_ne by discriminate.
  apply lookup_insert_eq.
Qed.

Lemma updated_data_awaiting (view : View) (d : Data) :
  updated_data view d !! "awaiting_user_response"
  = Some (JBool (awaiting_user_response view)).
Proof. unfold updated_data. apply lookup_insert_eq. Qed.

Lemma updated_data_other (view : View) (d : Data) (k : string) :
  ~ In k chat_keys -> updated_data view d !! k = d !! k.
Proof.
  intros H. unfold updated_data, chat_keys in *. cbn [In] in H.
  rewrite !lookup_insert_ne by (intros <-; tauto). reflexivity.
Qed.

(** X9.  What [save_chat_history] writes, [load_chat_history] reads
    back: the turns and the awaiting flag as they were, and the
    conversation identifier unless it was empty, in which case a fresh
    one is made.  The keyword context of the view is not stored.  The
    save leaves every other key of the data file as it was, and writes
    the conversation that [DiveView.save_chat_history] records.  A save
    that cannot use the data file leaves it as it is. *)
Theorem save_load_round_trip (view loading : View) (file : option Data)
    (fresh_id : string) :
  load_chat_history fresh_id true loading (save_chat_history true view file)
  = Some {| chatHistory := chatHistory view;
            conversation_id := id_or fresh_id (conversation_id view);
            awaiting_user_response := awaiting_user_response view;
            conversation_context := conversation_context loading |}
  /\ (forall k, ~ In k chat_keys ->
      default ∅ (save_chat_history true view file) !! k
      = default ∅ file !! k)
  /\ (forall d : plugin_data,
      chat_of (save_chat_history true view file)
      = chat (DiveView.save_chat_history true view d))
  /\ save_chat_history false view file = file.
Proof.
  repeat apply conj.
  - unfold load_chat_history, save_chat_history, loaded_id, loaded_awaiting.
    rewrite updated_data_chat_history, updated_data_conversation_id,
      updated_data_awaiting.
    reflexivity.
  - intros k Hk. cbn [save_chat_history default].
    now apply updated_data_other.
  - intros d. unfold chat_of, save_chat_history, DiveView.save_chat_history.
    rewrite updated_data_chat_history, updated_data_conversation_id,
      updated_data_awaiting.
    reflexivity.
  - reflexivity.
Qed.

Lemma default_settings_no_chat (k : string) :
  In k chat_keys -> DEFAULT_SETTINGS !! k = None.
Proof.
  unfold chat_keys. cbn [In].
  intros [<-|[<-|[<-|[]]]]; vm_compute; reflexivity.
Qed.

Lemma loadSettings_chat (loaded : option Data) (k : string) :
  In k chat_keys -> loadSettings loaded !! k = default ∅ loaded !! k.
Proof.
  intros Hk. pose proof (default_settings_no_chat k Hk) as Hd.
  destruct loaded as [d|]; cbn [loadSettings default].
  - now apply lookup_union_l.
  - now rewrite Hd, lookup_empty.
Qed.

Lemma assigned_other (l : list (string * json)) (settings : Data)
    (k : string) :
  (forall a, In a l -> fst a <> k) ->
  assigned l settings !! k = settings !! k.
Proof.
  revert settings. induction l as [|a l IH]; intros settings H;
    cbn [assigned fold_left]; [reflexivity|].
  fold (assigned l (set_setting (fst a) (snd a) settings)).
  rewrite IH by (intros b Hb; apply H; now right).
  unfold set_setting. apply lookup_insert_ne. apply H. now left.
Qed.

(** What [load_chat_history] reads depends on the three keys of the
    conversation only. *)
Lemma load_chat_history_keys (fresh_id : string) (view : View)
    (d d' : Data) :
  (forall k, In k chat_keys -> d !! k = d' !! k) ->
  load_chat_history fresh_id true view (Some d)
  = load_chat_history fresh_id true view (Some d').
Proof.
  intros H. unfold load_chat_history, loaded_id, loaded_awaiting.
  rewrite (H "chat_history"), (H "conversation_id"),
    (H "awaiting_user_response");
    unfold chat_keys; cbn [In]; auto.
Qed.

(** X10.  The settings object is made from the whole data file, and
    [saveSettings] writes the whole settings object back: after any
    change of settings, the three keys of the conversation hold again
    what the data file held when the plugin was loaded, whatever has
    been saved to it since, and [load_chat_history] reads the
    conversation of that time; the changed setting is in the file. *)
Theorem saveSettings_restores_chat (loaded : option Data)
    (l : list (string * json)) (key : string) (v : json)
    (fresh_id : string) (view : View) :
  (forall a, In a l -> ~ In (fst a) chat_keys) ->
  ~ In key chat_keys ->
  let settings := set_setting key v (assigned l (loadSettings loaded)) in
  (forall k, In k chat_keys ->
     default ∅ (saveSettings settings) !! k = default ∅ loaded !! k)
  /\ load_chat_history fresh_id true view (saveSettings settings)
     = load_chat_history fresh_id true view loaded
  /\ default ∅ (saveSettings settings) !! key = Some v.
Proof.
  intros Hl Hkey settings.
  assert (Hchat : forall k, In k chat_keys ->
                            settings !! k = default ∅ loaded !! k).
  { intros k Hk. subst settings. unfold set_setting.
    rewrite lookup_insert_ne by (intros <-; contradiction).
    rewrite assigned_other by (intros a Ha <-; exact (Hl a Ha Hk)).
    now apply loadSettings_chat. }
  repeat apply conj.
  - exact Hchat.
  - unfold saveSettings. destruct loaded as [d|]; cbn [default] in Hchat.
    + now apply load_chat_history_keys.
    + unfold load_chat_history.
      rewrite (Hchat "chat_history") by (unfold chat_keys; cbn; auto).
      now rewrite lookup_empty.
  - subst settings. unfold saveSettings, set_setting. cbn [default].
    apply lookup_insert_eq.
Qed.

Lemma saveSettings_restores_chat_witness :
  load_chat_history "id" true new_view
    (saveSettings
       (set_setting "includeCurrentFile" (JBool true)
          (assigned [] (loadSettings None))))
  = Some new_view.
Proof.
  refine (proj1 (proj2
    (saveSettings_restores_chat None [] "includeCurrentFile" (JBool true)
       "id" new_view _ _))).
  - intros a [].
  - unfold chat_keys. cbn [In]. intros [H|[H|[H|[]]]]; discriminate H.
Defined.

(** X11.  Every setting is defined once the settings are loaded: a
    stored value wins, a missing one is the default, and without a data
    file, or after [clear_saved_data], the settings are the defaults and
    no conversation is loaded. *)
Theorem loadSettings_defaults (loaded : option Data) (k : string)
    (v : json) :
  DEFAULT_SETTINGS !! k = Some v ->
  (forall d w, loaded = Some d -> d !! k = Some w ->
               loadSettings loaded !! k = Some w)
  /\ (default ∅ loaded !! k = None -> loadSettings loaded !! k = Some v)
  /\ loadSettings None = DEFAULT_SETTINGS
  /\ loadSettings clear_saved_data = DEFAULT_SETTINGS
  /\ (forall fresh_id view,
      load_chat_history fresh_id true view clear_saved_data = Some view).
Proof.
  intros Hv. repeat apply conj.
  - intros d w -> Hw. cbn [loadSettings].
    apply lookup_union_Some_l. exact Hw.
  - destruct loaded as [d|]; cbn [default loadSettings]; intros Hk.
    + rewrite lookup_union_r; assumption.
    + exact Hv.
  - reflexivity.
  - unfold clear_saved_data. cbn [loadSettings]. apply (left_id ∅ (∪)).
  - reflexivity.
Qed.

Lemma loadSettings_defaults_witness :
  loadSettings (Some {[ "currentModel" := JString "sonar-pro" ]})
  !! "currentModel" = Some (JString "sonar-pro").
Proof.
  refine (proj1 (loadSettings_defaults
                   (Some {[ "currentModel" := JString "sonar-pro" ]})
                   "currentModel" (JString "sonar") eq_refl) _ _ eq_refl _).
  apply lookup_singleton_eq.
Defined.

(** X12.  [reset_chat] empties the conversation in the view and in the
    data file and keeps every other key; but when the save cannot use
    the data file, the conversation stored there is loaded back into
    the view. *)
Theorem reset_chat_spec (fresh_id reload_id : string) (view : View)
    (file : option Data) :
  reset_chat fresh_id reload_id true true view file
  = (Some (cleared (id_or reload_id fresh_id) view),
     Some (updated_data (cleared fresh_id view) (default ∅ file)))
  /\ (forall k, ~ In k chat_keys ->
      default ∅ (snd (reset_chat fresh_id reload_id true true view file))
      !! k = default ∅ file !! k)
  /\ reset_chat fresh_id reload_id false true view file
     = (load_chat_history reload_id true (cleared fresh_id view) file, file)
  /\ (forall earlier,
      fst (reset_chat fresh_id reload_id false true view
             (save_chat_history true earlier None))
      = Some {| chatHistory := chatHistory earlier;
                conversation_id :=
                  id_or reload_id (conversation_id earlier);
                awaiting_user_response := awaiting_user_response earlier;
                conversation_context := conversation_context view |}).
Proof.
  repeat apply conj.
  - unfold reset_chat. f_equal.
    unfold load_chat_history, save_chat_history, loaded_id, loaded_awaiting.
    rewrite updated_data_chat_history, updated_data_conversation_id,
      updated_data_awaiting.
    reflexivity.
  - intros k Hk. cbn [reset_chat snd save_chat_history default].
    now apply updated_data_other.
  - reflexivity.
  - intros earlier. cbn [reset_chat fst save_chat_history].
    unfold load_chat_history, save_chat_history, loaded_id, loaded_awaiting.
    rewrite updated_data_chat_history, updated_data_conversation_id,
      updated_data_awaiting.
    reflexivity.
Qed.

End Persistence.

(** ** Sessions of sends *)

Module Sessions.

Import Regex DiveView Statements.

Local Arguments String.append : simpl nomatch.

Lemma run_snoc (settings : Settings) (fresh_id : string)
    (st : View * plugin_data) (trace : list event) (e : event) :
  run settings fresh_id st (trace ++ [e])
  = step settings fresh_id (run settings fresh_id st trace) e.
Proof. unfold run. now rewrite fold_left_app. Qed.

Lemma step_answered (settings : Settings) (fresh_id : string)
    (st : View * plugin_data) (e : event) :
  Js.is_empty (perplexityApiKey settings) = false ->
  successful e = true ->
  let st' := step settings fresh_id st e in
  chatHistory (fst st')
  = chatHistory (fst st) ++ turns_of (currentModel settings) e
  /\ saved_history (snd st') = chatHistory (fst st')
  /\ other_keys (snd st') = other_keys (snd st).
Proof.
  intros Hkey He. destruct e as [message [msg|status|raw citations]|];
    try discriminate He.
  cbn [step]. unfold sendToPerplexity. rewrite Hkey.
  cbn [turns_of].
  destruct (split_reasoning (currentModel settings) raw) as [content r].
  cbn. rewrite <- app_assoc. repeat split.
Qed.

(** X13.  In a session in which an API key is set and every send is
    answered, each send adds its user turn and the answer to the
    history, in that order; after the last one the data file holds
    exactly the history of the view; and the other keys of the data
    file stay as they were. *)
Theorem answered_session (settings : Settings) (fresh_id : string)
    (view : View) (data : plugin_data) (trace : list event) :
  Js.is_empty (perplexityApiKey settings) = false ->
  forallb successful trace = true ->
  let st := run settings fresh_id (view, data) trace in
  chatHistory (fst st)
  = chatHistory view ++ flat_map (turns_of (currentModel settings)) trace
  /\ (trace <> [] -> saved_history (snd st) = chatHistory (fst st))
  /\ other_keys (snd st) = other_keys data.
Proof.
  intros Hkey. induction trace as [|e trace IH] using rev_ind; intros Hall.
  - cbn. rewrite app_nil_r. repeat split. congruence.
  - rewrite forallb_app in Hall. apply andb_prop in Hall as [Hall He].
    cbn [forallb] in He. rewrite andb_true_r in He.
    destruct (IH Hall) as (H1 & _ & H3).
    cbv zeta. rewrite run_snoc.
    destruct (step_answered settings fresh_id
                (run settings fresh_id (view, data) trace) e Hkey He)
      as (S1 & S2 & S3).
    repeat split.
    + rewrite S1, H1, flat_map_app. cbn [flat_map].
      now rewrite app_nil_r, app_assoc.
    + intros _. exact S2.
    + now rewrite S3.
Qed.

Lemma answered_session_witness :
  chatHistory
    (fst (run a_key "id" (new_view, no_data)
            [Send "hi" (Reply "hello" []); Send "more" (Reply "sure" [])]))
  = [ {| role := user; turn_content := "hi" |};
      {| role := assistant; turn_content := "hello" |};
      {| role := user; turn_content := "more" |};
      {| role := assistant; turn_content := "sure" |} ].
Proof.
  exact (proj1 (answered_session a_key "id" new_view no_data
                  [Send "hi" (Reply "hello" []);
                   Send "more" (Reply "sure" [])] eq_refl eq_refl)).
Defined.

(** X14.  Without an API key a send does nothing but show a notice: it
    returns the empty reply, and neither the history of the view, not
    even by the user turn, nor the data file changes, however many
    messages are sent. *)
Theorem send_without_key (settings : Settings) (fresh_id : string)
    (view : View) (data : plugin_data) (trace : list event) :
  Js.is_empty (perplexityApiKey settings) = true ->
  forallb is_send trace = true ->
  run settings fresh_id (view, data) trace = (view, data)
  /\ (forall outcome io_ok message,
      let r := sendToPerplexity settings fresh_id outcome io_ok view data
                 message in
      response r = empty_reply
      /\ send_notices r = ["Please set your Perplexity API key in settings"]).
Proof.
  intros Hkey Hall. split.
  - induction trace as [|e trace IH]; [reflexivity|].
    cbn [forallb] in Hall. apply andb_prop in Hall as [He Hall].
    destruct e as [message outcome|]; [|discriminate He].
    unfold run. cbn [fold_left step fst snd].
    unfold sendToPerplexity at 1 2. rewrite Hkey. cbn [send_view send_data].
    apply IH. exact Hall.
  - intros outcome io_ok message. unfold sendToPerplexity. rewrite Hkey.
    split; reflexivity.
Qed.

Lemma send_without_key_witness :
  run {| perplexityApiKey := ""; currentModel := "sonar";
         includeCurrentFile := false |}
    "id" (new_view, no_data)
    [Send "hi" (Reply "hello" []); Send "again" (Status 500)]
  = (new_view, no_data).
Proof.
  exact (proj1 (send_without_key
                  {| perplexityApiKey := ""; currentModel := "sonar";
                     includeCurrentFile := false |}
                  "id" new_view no_data
                  [Send "hi" (Reply "hello" []); Send "again" (Status 500)]
                  eq_refl eq_refl)).
Defined.

(** *** Questions in a reply *)

(** A match at some position of the text is found by the search. *)
Lemma search_finds (r : regex) (a s : string) (pv : option ascii)
    (idx : nat) (res : pos * caps) :
  rmatch r (Pos (last_of pv a) s) [] accept = Some res ->
  exists m, search r pv (a +:+ s) idx = Some m.
Proof.
  revert pv idx. induction a as [|c a IH]; intros pv idx H.
  - cbn [String.append last_of] in *.
    destruct s as [|c s]; cbn [search]; rewrite H; destruct res; eauto.
  - change (String c a +:+ s) with (String c (a +:+ s)).
    cbn [search last_of] in *.
    destruct (rmatch r (Pos pv (String c (a +:+ s))) [] accept)
      as [[y cs]|]; eauto.
Qed.

Lemma test_finds (r : regex) (a s : string) (res : pos * caps) :
  rmatch r (Pos (last_of None a) s) [] accept = Some res ->
  test r (a +:+ s) = true.
Proof.
  intros H. unfold test, exec.
  destruct (search_finds r a s None O res H) as [m ->]. reflexivity.
Qed.

Lemma span_all (p : ascii -> bool) (w : string) :
  Js.sforall p w = true -> Js.span p w = (w, "").
Proof.
  intros H. rewrite <- (Mentions.app_nil_r_s w) at 1.
  now apply Mentions.span_run.
Qed.

(** X15.  A reply whose last character other than white space is a
    question mark, and a reply that holds the word [how] between
    spaces, make [detect_question_in_response] true; after a send
    answered with such a reply the view awaits the user's response, and
    the data file says so.  The empty text holds no question. *)
Theorem question_detected (a w b : string) :
  Js.sforall Js.is_space w = true ->
  detect_question_in_response (a +:+ "?" +:+ w) = true
  /\ detect_question_in_response (a +:+ " how " +:+ b) = true
  /\ detect_question_in_response "" = false
  /\ (forall settings fresh_id view data message citations,
      Js.is_empty (perplexityApiKey settings) = false ->
      Js.includes (currentModel settings) "reasoning" = false ->
      let r := sendToPerplexity settings fresh_id
                 (Reply (a +:+ "?" +:+ w) citations) true view data
                 message in
      awaiting_user_response (send_view r) = true
      /\ saved_awaiting (send_data r) = Some true).
Proof.
  intros Hw.
  assert (H1 : detect_question_in_response (a +:+ "?" +:+ w) = true).
  { unfold detect_question_in_response, question_patterns.
    cbn [existsb].
    rewrite (test_finds _ a ("?" +:+ w)
               (Pos (last_of (Some "?"%char) w) "", [])); [reflexivity|].
    cbn [seqs lit_cs rmatch rest String.append].
    cbn [Ascii.eqb Bool.eqb]. cbn [ws0 rmatch rest prev].
    apply Mentions.many_match_greedy; rewrite (span_all _ _ Hw);
      cbn [fst snd]; [lia|reflexivity]. }
  repeat apply conj.
  - exact H1.
  - unfold detect_question_in_response, question_patterns.
    cbn [existsb].
    replace (a +:+ " how " +:+ b) with ((a +:+ " ") +:+ "how " +:+ b)
      by (rewrite Mentions.app_assoc_s; reflexivity).
    rewrite (test_finds
               (alts (map (fun w => seqs [Bow; lit w; Bow])
                        ["what"; "how"; "why"; "when"; "where"; "which"]))
               (a +:+ " ") ("how " +:+ b)
               (Pos (Some "w"%char) (" " +:+ b), [])).
    + apply orb_true_r.
    + replace (last_of None (a +:+ " ")) with (Some " "%char)
        by (clear; generalize (@None ascii);
            induction a as [|c a IH]; intros o; cbn;
            [reflexivity|apply IH]).
      reflexivity.
  - vm_compute. reflexivity.
  - intros settings fresh_id view data message citations Hkey Hmodel.
    unfold sendToPerplexity. rewrite Hkey.
    unfold split_reasoning. rewrite Hmodel. cbn [andb].
    cbn [send_view send_data awaiting_user_response saved_awaiting
         DiveView.save_chat_history chat saved_awaiting_user_response].
    rewrite H1. split; reflexivity.
Qed.

Lemma question_detected_witness :
  detect_question_in_response "Shall I go on?" = true.
Proof.
  exact (proj1 (question_detected "Shall I go on" "" "" eq_refl)).
Defined.

(** *** The reasoning of a reply *)

Lemma cut_none (sep' s : string) :
  no_lt s = true -> cut (String "<" sep') s = (s, None).
Proof.
  induction s as [|c s IH]; [reflexivity|].
  unfold no_lt. cbn [Js.sforall]. intros H.
  apply andb_prop in H as [Hc Hs]. apply negb_true_iff in Hc.
  cbn [cut Js.strip_prefix].
  rewrite Ascii.eqb_sym, Hc. now rewrite (IH Hs).
Qed.

Lemma cut_unfold (sep s : string) :
  cut sep s
  = match Js.strip_prefix sep s with
    | Some after => (EmptyString, Some after)
    | None =>
        match s with
        | EmptyString => (EmptyString, None)
        | String c s' => let '(a, b) := cut sep s' in (String c a, b)
        end
    end.
Proof. destruct s; reflexivity. Qed.

Lemma cut_at (sep' p c : string) :
  no_lt p = true ->
  cut (String "<" sep') (p +:+ String "<" sep' +:+ c) = (p, Some c).
Proof.
  induction p as [|x p IH].
  - intros _. rewrite cut_unfold.
    change ("" +:+ String "<" sep' +:+ c) with (String "<" sep' +:+ c).
    now rewrite Mentions.strip_prefix_app.
  - unfold no_lt. cbn [Js.sforall]. intros H.
    apply andb_prop in H as [Hx Hp]. apply negb_true_iff in Hx.
    change (String x p +:+ String "<" sep' +:+ c)
      with (String x (p +:+ String "<" sep' +:+ c)).
    cbn [cut Js.strip_prefix]. rewrite Ascii.eqb_sym, Hx.
    now rewrite (IH Hp).
Qed.

(** X16.  The reply of a model whose name does not hold [reasoning] is
    kept as it is, tags included.  The reply of a reasoning model that
    opens with its reasoning between the two tags is split there: the
    answer is what follows the closing tag, trimmed, and the reasoning
    is shown line by line, each line trimmed and set between
    asterisks, empty lines left empty. *)
Theorem split_reasoning_spec (model r c : string) :
  no_lt r = true -> no_lt c = true ->
  (Js.includes model "reasoning" = false ->
   forall raw, split_reasoning model raw = (raw, ""))
  /\ (Js.includes model "reasoning" = true ->
      split_reasoning model (reasoned r c)
      = (Js.trim c,
         Js.join nl
           (map emphasize (Js.split_char (ascii_of_nat 10) (Js.trim r))))).
Proof.
  intros Hr Hc. split.
  - intros Hm raw. unfold split_reasoning. now rewrite Hm.
  - intros Hm. unfold split_reasoning, reasoned. rewrite Hm.
    replace (Js.includes ("<think>" +:+ r +:+ "</think>" +:+ c) "<think>")
      with true by reflexivity.
    cbn [andb].
    assert (E : cut "</think>" ("<think>" +:+ r +:+ "</think>" +:+ c)
                = ("<think>" +:+ r, Some c)).
    { change ("<think>" +:+ r +:+ "</think>" +:+ c)
        with (String "<" ("think>" +:+ r +:+ "</think>" +:+ c)).
      cbn [cut Js.strip_prefix]. cbn [Ascii.eqb Bool.eqb].
      replace ("think>" +:+ r +:+ "</think>" +:+ c)
        with (("think>" +:+ r) +:+ "</think>" +:+ c)
        by (now rewrite Mentions.app_assoc_s).
      rewrite cut_at; [reflexivity|].
      unfold no_lt in *. rewrite Mentions.sforall_app, Hr. reflexivity. }
    rewrite E.
    replace (cut "<think>" ("<think>" +:+ r)) with ("", Some r)
      by (symmetry; apply (cut_at "think>" "" r); reflexivity).
    rewrite (cut_none _ c Hc). reflexivity.
Qed.

Lemma split_reasoning_witness :
  split_reasoning "sonar-reasoning"
    (reasoned " first this " " The answer. ")
  = ("The answer.", "*first this*").
Proof.
  exact (proj2 (split_reasoning_spec "sonar-reasoning" " first this "
                  " The answer. " eq_refl eq_refl) eq_refl).
Defined.

End Sessions.

(** ** The input field and the suggestion list *)

Module Input.

Import Regex DiveView Statements.

Local Arguments String.append : simpl nomatch.

(** *** The suggestion list *)

Lemma navigateSuggestion_step (s : Suggestions) (direction : Z) :
  let len := Z.of_nat (length (fileSuggestions s)) in
  0 <= currentSuggestionIndex s < len -> - len <= direction ->
  navigateSuggestion s direction
  = Some (selected s ((currentSuggestionIndex s + direction) mod len))
  /\ 0 <= (currentSuggestionIndex s + direction) mod len < len.
Proof.
  intros len Hcur Hdir. unfold navigateSuggestion. fold len.
  destruct (fileSuggestions s) as [|x l] eqn:E.
  - subst len. cbn in Hcur. lia.
  - rewrite <- E. fold len.
    replace ((0 <=? currentSuggestionIndex s)
             && (currentSuggestionIndex s <? len)) with true
      by (symmetry; apply andb_true_intro; split; lia).
    assert (Hrange : 0 <= (currentSuggestionIndex s + direction) mod len < len)
      by (apply Z.mod_pos_bound; lia).
    assert (Hrem : Z.rem (currentSuggestionIndex s + direction + len) len
                   = (currentSuggestionIndex s + direction) mod len).
    { rewrite Z.rem_mod_nonneg by lia.
      replace (currentSuggestionIndex s + direction + len)
        with (currentSuggestionIndex s + direction + 1 * len) by lia.
      apply Z_mod_plus_full. }
    rewrite Hrem. split; [|exact Hrange].
    unfold selectSuggestion. cbn [fileSuggestions currentSuggestionIndex].
    now destruct (_ && _).
Qed.

Lemma navigate_times_index (n : nat) (s : Suggestions) (direction : Z) :
  let len := Z.of_nat (length (fileSuggestions s)) in
  0 <= currentSuggestionIndex s < len -> - len <= direction ->
  navigate_times n direction s
  = Some (selected s
            ((currentSuggestionIndex s + Z.of_nat n * direction) mod len)).
Proof.
  intros len. revert s len.
  induction n as [|n IH]; intros s len Hcur Hdir.
  - cbn [navigate_times]. f_equal. destruct s as [l i]. unfold selected.
    cbn [fileSuggestions currentSuggestionIndex] in *. f_equal.
    replace (i + Z.of_nat 0 * direction) with i by lia.
    symmetry. apply Z.mod_small. exact Hcur.
  - cbn [navigate_times].
    destruct (navigateSuggestion_step s direction Hcur Hdir) as [-> Hr].
    fold len in Hr. rewrite IH; cbn [selected fileSuggestions
                                     currentSuggestionIndex];
      fold len; [|exact Hr|exact Hdir].
    unfold selected. cbn [fileSuggestions]. do 2 f_equal.
    rewrite Zplus_mod_idemp_l. f_equal. lia.
Qed.

(** X17.  Moving through the suggestion list keeps the selected index
    inside the list: from an index inside the list, a step of
    [direction] (1 for down, -1 for up) selects the index
    [(index + direction) mod length], so that the selection wraps
    around at both ends, never leaves the list and never makes the next
    step fail; a step up undoes a step down, and as many steps in one
    direction as the list has items lead back to the start. *)
Theorem navigateSuggestion_spec (s : Suggestions) (direction : Z) :
  let len := Z.of_nat (length (fileSuggestions s)) in
  0 <= currentSuggestionIndex s < len -> - len <= direction ->
  navigateSuggestion s direction
  = Some (selected s ((currentSuggestionIndex s + direction) mod len))
  /\ 0 <= (currentSuggestionIndex s + direction) mod len < len
  /\ match navigateSuggestion s 1 with
     | Some s' => navigateSuggestion s' (-1)
     | None => None
     end = Some s
  /\ navigate_times (length (fileSuggestions s)) direction s = Some s.
Proof.
  cbv zeta. intros Hcur Hdir.
  pose proof (navigateSuggestion_step s direction Hcur Hdir) as [H1 H2].
  pose proof (navigateSuggestion_step s 1 Hcur) as [D1 D2]; [lia|].
  cbv zeta in *.
  repeat apply conj; [exact H1|apply H2|apply H2| |].
  - rewrite D1.
    pose proof (navigateSuggestion_step
                  (selected s
                     ((currentSuggestionIndex s + 1)
                      mod Z.of_nat (length (fileSuggestions s)))) (-1))
      as U.
    cbv zeta in U. cbn [selected fileSuggestions currentSuggestionIndex] in U.
    destruct (U D2) as [-> _]; [lia|].
    destruct s as [l i]. unfold selected.
    cbn [fileSuggestions currentSuggestionIndex] in *. do 2 f_equal.
    rewrite Zplus_mod_idemp_l.
    replace (i + 1 + -1) with i by lia. apply Z.mod_small. exact Hcur.
  - pose proof (navigate_times_index (length (fileSuggestions s)) s direction
                  Hcur Hdir) as ->.
    destruct s as [l i]. unfold selected.
    cbn [fileSuggestions currentSuggestionIndex] in *. do 2 f_equal.
    rewrite (Z.mul_comm _ direction), Z_mod_plus_full.
    apply Z.mod_small. exact Hcur.
Qed.

Lemma navigateSuggestion_witness :
  navigateSuggestion
    {| fileSuggestions := ["a"; "b"; "c"]; currentSuggestionIndex := 0 |}
    (-1)
  = Some {| fileSuggestions := ["a"; "b"; "c"];
            currentSuggestionIndex := 2 |}.
Proof.
  refine (proj1 (navigateSuggestion_spec
                   {| fileSuggestions := ["a"; "b"; "c"];
                      currentSuggestionIndex := 0 |} (-1) _ _));
    cbn; lia.
Defined.

(** *** Quoting a selection *)

Lemma paragraph_cons (c : ascii) (p : string) :
  paragraph (String c p) = true ->
  Js.strip_prefix blank_line (String c (p +:+ nl)) = None
  /\ paragraph p = true.
Proof.
  unfold paragraph.
  change (String c p +:+ nl) with (String c (p +:+ nl)).
  rewrite Mentions.includes_cons.
  destruct (Js.strip_prefix blank_line (String c (p +:+ nl)));
    [discriminate|auto].
Qed.

(** The first two characters decide whether an empty line starts. *)
Lemma strip_blank_head (c : ascii) (p x y : string) :
  Js.strip_prefix blank_line (String c (p +:+ nl +:+ x)) = None ->
  Js.strip_prefix blank_line (String c (p +:+ nl +:+ y)) = None.
Proof.
  unfold blank_line, nl. cbn [String.append Js.strip_prefix].
  destruct (Ascii.eqb (ascii_of_nat 10) c); [|reflexivity].
  destruct p as [|d p]; cbn [String.append Js.strip_prefix].
  - now rewrite Ascii.eqb_refl.
  - now destruct (Ascii.eqb (ascii_of_nat 10) d).
Qed.

Lemma split_blank_piece (p r : string) :
  paragraph p = true ->
  Js.split blank_line O (p +:+ blank_line +:+ r)
  = p :: Js.split blank_line O r.
Proof.
  induction p as [|c p IH]; intros H.
  - reflexivity.
  - apply paragraph_cons in H as [Hc Hp].
    change (String c p +:+ blank_line +:+ r)
      with (String c (p +:+ blank_line +:+ r)).
    cbn [Js.split].
    replace (Js.strip_prefix blank_line (String c (p +:+ blank_line +:+ r)))
      with (@None string).
    + now rewrite (IH Hp).
    + symmetry.
      replace (p +:+ blank_line +:+ r) with (p +:+ nl +:+ (nl +:+ r))
        by (unfold blank_line; now rewrite !Mentions.app_assoc_s).
      apply (strip_blank_head c p "").
      now rewrite Mentions.app_nil_r_s.
Qed.

Lemma split_blank_last (p : string) :
  paragraph p = true -> Js.split blank_line O p = [p].
Proof.
  induction p as [|c p IH]; intros H; [reflexivity|].
  apply paragraph_cons in H as [Hc Hp].
  cbn [Js.split].
  replace (Js.strip_prefix blank_line (String c p)) with (@None string).
  - now rewrite (IH Hp).
  - symmetry. clear -Hc. revert Hc.
    unfold blank_line, nl. cbn [String.append Js.strip_prefix].
    destruct (Ascii.eqb (ascii_of_nat 10) c); [|reflexivity].
    destruct p as [|d p]; cbn [String.append Js.strip_prefix];
      [reflexivity|].
    now destruct (Ascii.eqb (ascii_of_nat 10) d).
Qed.

Lemma split_not_nil (sep : string) (skip : nat) (s : string) :
  Js.split sep skip s <> [].
Proof.
  revert skip. induction s as [|c s IH]; intros skip; cbn [Js.split].
  - discriminate.
  - destruct skip; [|apply IH].
    destruct (Js.strip_prefix sep (String c s)); [discriminate|].
    destruct (Js.split sep 0 s); discriminate.
Qed.

Lemma split_char_no_newline (s x : string) :
  In x (Js.split_char (ascii_of_nat 10) s) -> no_newline x = true.
Proof.
  revert x. induction s as [|c s IH]; intros x; cbn [Js.split_char].
  - intros [<-|[]]. reflexivity.
  - destruct (Ascii.eqb c (ascii_of_nat 10)) eqn:E.
    + intros [<-|H]; [reflexivity|now apply IH].
    + destruct (Js.split_char (ascii_of_nat 10) s) as [|cur rest].
      * intros [<-|[]]. unfold no_newline. cbn [Js.sforall]. now rewrite E.
      * intros [<-|H].
        -- unfold no_newline. cbn [Js.sforall]. rewrite E.
           apply (IH cur). now left.
        -- apply IH. now right.
Qed.

Lemma split_char_join (l : list string) :
  l <> [] -> (forall x, In x l -> no_newline x = true) ->
  Js.split_char (ascii_of_nat 10) (Js.join nl l) = l.
Proof.
  induction l as [|x l IH]; [congruence|]. intros _ H.
  destruct l as [|y l].
  - cbn [Js.join]. apply DateNames.split_char_last. apply H. now left.
  - change (Js.join nl (x :: y :: l))
      with (x +:+ String (ascii_of_nat 10) (Js.join nl (y :: l))).
    rewrite DateNames.split_char_piece by (apply H; now left).
    f_equal. apply IH; [discriminate|]. intros z Hz. apply H. now right.
Qed.

(** X18.  [setInputText] quotes a text line by line: in an empty input
    field, a text without an empty line becomes the same lines, each
    behind [> ].  Of a text with empty lines only the part before the
    first one is kept, unquoted, and the part up to the second one is
    quoted; the rest is dropped.  So the request made from a selection
    by the editor menu holds the first paragraph of the selection only,
    whatever follows it.  Without an input field nothing happens. *)
Theorem setInputText_spec (text a b : string) :
  paragraph a = true ->
  (Js.includes text blank_line = false ->
   setInputText (Some (field_with "")) text
   = Some (field_with (quote_lines text +:+ nl))
   /\ Js.split_char (ascii_of_nat 10) (quote_lines text)
      = map (fun line => "> " +:+ line)
          (Js.split_char (ascii_of_nat 10) text))
  /\ setInputText (Some (field_with ""))
       (understand_request (a +:+ blank_line +:+ b))
     = Some (field_with
               ("Help me understand this text:" +:+ blank_line
                +:+ quote_lines a +:+ nl))
  /\ setInputText (Some (field_with ""))
       (expand_request (a +:+ blank_line +:+ b))
     = Some (field_with
               ("Please expand and elaborate on this text:" +:+ blank_line
                +:+ quote_lines a +:+ nl))
  /\ setInputText (Some (field_with "")) (understand_request a)
     = Some (field_with
               ("Help me understand this text:" +:+ blank_line
                +:+ quote_lines a +:+ nl))
  /\ setInputText None text = None.
Proof.
  intros Ha.
  assert (Hfield : forall s,
            {| value := s;
               selectionStart :=
                 setSelectionRange s (Z.of_nat (String.length s)) |}
            = field_with s).
  { intros s. unfold field_with, setSelectionRange. f_equal. lia. }
  assert (Hreq : forall prefix rest,
            paragraph prefix = true ->
            (rest = "" \/ exists b', rest = blank_line +:+ b') ->
            setInputText (Some (field_with ""))
              (prefix +:+ blank_line +:+ a +:+ rest)
            = Some (field_with
                      (prefix +:+ blank_line +:+ quote_lines a +:+ nl))).
  { intros prefix rest Hp Hrest. unfold setInputText.
    cbn [field_with value Js.is_empty].
    replace (Js.includes (prefix +:+ blank_line +:+ a +:+ rest) blank_line)
      with true
      by (symmetry; apply Attachments.includes_inside;
          now exists prefix, (a +:+ rest)).
    rewrite (split_blank_piece _ _ Hp).
    assert (Hs : exists l, Js.split blank_line 0 (a +:+ rest) = a :: l).
    { destruct Hrest as [->|[b' ->]].
      - rewrite Mentions.app_nil_r_s. exists []. now apply split_blank_last.
      - eexists. now apply split_blank_piece. }
    destruct Hs as [l ->].
    rewrite Hfield. reflexivity. }
  repeat apply conj.
  - intros Hno. split.
    { unfold setInputText. cbn [field_with value Js.is_empty].
      rewrite Hno, Hfield. reflexivity. }
    unfold quote_lines. apply split_char_join.
    + destruct (Js.split_char (ascii_of_nat 10) text) eqn:E; [|discriminate].
      exfalso. clear -E. induction text as [|c t IH]; [discriminate E|].
      cbn [Js.split_char] in E.
      destruct (Ascii.eqb c (ascii_of_nat 10)); [discriminate E|].
      destruct (Js.split_char (ascii_of_nat 10) t); discriminate E.
    + intros x Hx. apply in_map_iff in Hx as (y & <- & Hy).
      apply split_char_no_newline in Hy. exact Hy.
  - apply (Hreq "Help me understand this text:"); [reflexivity|].
    right. now exists b.
  - apply (Hreq "Please expand and elaborate on this text:"); [reflexivity|].
    right. now exists b.
  - unfold understand_request.
    rewrite <- (Mentions.app_nil_r_s a) at 1.
    apply (Hreq "Help me understand this text:"); [reflexivity|].
    now left.
  - reflexivity.
Qed.

Lemma setInputText_witness :
  setInputText (Some (field_with ""))
    (understand_request ("first" +:+ blank_line +:+ "second"))
  = Some (field_with
            ("Help me understand this text:" +:+ blank_line
             +:+ "> first" +:+ nl)).
Proof.
  exact (proj1 (proj2 (setInputText_spec "" "first" "second" eq_refl))).
Defined.

End Input.

(** ** The title of a note created from a reply *)

Module Title.

Import Regex DiveView Statements.

Local Arguments String.append : simpl nomatch.

(** *** White space replaced *)

Lemma collapse_with_run (repl run after : string) :
  Js.sforall Js.is_space run = true -> ends_run Js.is_space after = true ->
  collapse_with repl true (run +:+ after) = collapse_with repl false after.
Proof.
  intros Hrun Hafter. induction run as [|c run IH].
  - destruct after as [|d after]; [reflexivity|]. cbn in *.
    now destruct (Js.is_space d).
  - cbn [Js.sforall] in Hrun. apply andb_prop in Hrun as [Hc Hrun].
    simpl. rewrite Hc. now apply IH.
Qed.

Lemma replace_all_ws_le (repl : string) (n : nat) (s : string)
    (pv : option ascii) :
  (String.length s <= n)%nat ->
  replace_all ws1 repl O pv s = collapse_with repl false s.
Proof.
  revert s pv. induction n as [|n IH]; intros s pv Hn.
  - destruct s; [reflexivity|cbn in Hn; lia].
  - destruct s as [|c s]; [reflexivity|].
    cbn [replace_all collapse_with]. rewrite Mentions.rmatch_ws1.
    cbn [Js.span]. cbn [String.length] in Hn.
    destruct (Js.is_space c) eqn:Ec.
    + pose proof (Mentions.span_spec Js.is_space s) as (H1 & H2 & H3).
      destruct (Js.span Js.is_space s) as [run after]; cbn [fst snd] in *.
      cbn [rest].
      assert (Hc : consumed (String c s) after = String c run).
      { rewrite H1 at 1. apply (Mentions.consumed_app (String c run) after). }
      rewrite Hc. cbn [String.length Nat.pred].
      destruct (Mentions.replace_all_skip ws1 repl run after (Some c))
        as [pv' E].
      rewrite H1. rewrite E, IH.
      * now rewrite collapse_with_run.
      * rewrite H1, Mentions.length_app_s in Hn. lia.
    + cbn [fst]. rewrite IH; [reflexivity|lia].
Qed.

Lemma replace_all_ws (repl s : string) :
  replace_all ws1 repl O None s = collapse_with repl false s.
Proof. now apply (replace_all_ws_le repl (String.length s)). Qed.

(** *** Lengths *)

Lemma first_chars_length (n : nat) (s : string) :
  (String.length (Js.first_chars n s) <= n)%nat.
Proof.
  revert s. induction n as [|n IH]; intros [|c s]; cbn; try lia.
  specialize (IH s). lia.
Qed.

Lemma trimStart_length (s : string) :
  (String.length (Js.trimStart s) <= String.length s)%nat.
Proof.
  induction s as [|c s IH]; cbn; [lia|].
  destruct (Js.is_space c); cbn; lia.
Qed.

Lemma trimEnd_length (s : string) :
  (String.length (Js.trimEnd s) <= String.length s)%nat.
Proof.
  induction s as [|c s IH]; cbn; [lia|].
  destruct (_ && _); cbn; lia.
Qed.

Lemma trim_length (s : string) :
  (String.length (Js.trim s) <= String.length s)%nat.
Proof.
  unfold Js.trim. pose proof (trimEnd_length (Js.trimStart s)).
  pose proof (trimStart_length s). lia.
Qed.

Lemma sfilter_length (p : ascii -> bool) (s : string) :
  (String.length (Js.sfilter p s) <= String.length s)%nat.
Proof.
  induction s as [|c s IH]; cbn; [lia|]. destruct (p c); cbn; lia.
Qed.

Lemma smap_length (f : ascii -> ascii) (s : string) :
  String.length (Js.smap f s) = String.length s.
Proof. induction s as [|c s IH]; cbn; [reflexivity|]. now rewrite IH. Qed.

Lemma collapse_with_length (repl : string) (b : bool) (s : string) :
  (String.length repl <= 1)%nat ->
  (String.length (collapse_with repl b s) <= String.length s)%nat.
Proof.
  intros Hr. revert b. induction s as [|c s IH]; intros b; cbn; [lia|].
  destruct (Js.is_space c).
  - destruct b.
    + specialize (IH true). lia.
    + rewrite Mentions.length_app_s. specialize (IH true). lia.
  - cbn. specialize (IH false). lia.
Qed.

(** *** Characters kept *)

Lemma sforall_sfilter (q p : ascii -> bool) (s : string) :
  Js.sforall q s = true -> Js.sforall q (Js.sfilter p s) = true.
Proof.
  induction s as [|c s IH]; cbn; [auto|]. intros H.
  apply andb_prop in H as [Hc Hs]. destruct (p c); cbn; [rewrite Hc|]; auto.
Qed.

Lemma sforall_sfilter_self (p : ascii -> bool) (s : string) :
  Js.sforall p (Js.sfilter p s) = true.
Proof.
  induction s as [|c s IH]; cbn; [reflexivity|].
  destruct (p c) eqn:E; cbn; [rewrite E|]; auto.
Qed.

Lemma sforall_smap (q : ascii -> bool) (f : ascii -> ascii) (s : string) :
  (forall c, q c = true -> q (f c) = true) ->
  Js.sforall q s = true -> Js.sforall q (Js.smap f s) = true.
Proof.
  intros Hf. induction s as [|c s IH]; cbn; [auto|]. intros H.
  apply andb_prop in H as [Hc Hs]. now rewrite (Hf c Hc), IH.
Qed.

Lemma sforall_trimStart (q : ascii -> bool) (s : string) :
  Js.sforall q s = true -> Js.sforall q (Js.trimStart s) = true.
Proof.
  induction s as [|c s IH]; cbn; [auto|]. intros H.
  apply andb_prop in H as [Hc Hs].
  destruct (Js.is_space c); cbn; [auto|now rewrite Hc, Hs].
Qed.

Lemma sforall_trimEnd (q : ascii -> bool) (s : string) :
  Js.sforall q s = true -> Js.sforall q (Js.trimEnd s) = true.
Proof.
  induction s as [|c s IH]; cbn; [auto|]. intros H.
  apply andb_prop in H as [Hc Hs].
  destruct (_ && _); cbn; [reflexivity|now rewrite Hc, IH].
Qed.

Lemma sforall_trim (q : ascii -> bool) (s : string) :
  Js.sforall q s = true -> Js.sforall q (Js.trim s) = true.
Proof. intros H. now apply sforall_trimEnd, sforall_trimStart. Qed.

Lemma sforall_collapse_with (q : ascii -> bool) (repl : string) (b : bool)
    (s : string) :
  Js.sforall q repl = true ->
  Js.sforall (fun c => Js.is_space c || q c) s = true ->
  Js.sforall q (collapse_with repl b s) = true.
Proof.
  intros Hr. revert b. induction s as [|c s IH]; intros b H; cbn;
    [reflexivity|].
  cbn [Js.sforall] in H. apply andb_prop in H as [Hc Hs].
  destruct (Js.is_space c) eqn:E.
  - destruct b; [now apply IH|].
    rewrite Mentions.sforall_app, Hr. now apply IH.
  - cbn [orb] in Hc. cbn. rewrite Hc. now apply IH.
Qed.

Lemma sforall_or_space (q : ascii -> bool) (s : string) :
  Js.sforall q s = true ->
  Js.sforall (fun c => Js.is_space c || q c) s = true.
Proof.
  apply Mentions.sforall_impl. intros c ->. apply orb_true_r.
Qed.

(** *** A word character survives *)

Lemma word_facts (c : ascii) :
  Js.is_word c = true ->
  Js.is_space c = false /\ is_reserved c = false
  /\ Js.is_word (Js.lower_char c) = true.
Proof.
  destruct c as [[] [] [] [] [] [] [] []]; intros H; try discriminate H;
    repeat split.
Qed.

Lemma sexists_sfilter (p : ascii -> bool) (s : string) :
  (forall c, Js.is_word c = true -> p c = true) ->
  sexists Js.is_word s = true -> sexists Js.is_word (Js.sfilter p s) = true.
Proof.
  intros Hp. induction s as [|c s IH]; cbn; [auto|]. intros H.
  destruct (Js.is_word c) eqn:E.
  - rewrite (Hp c E). cbn. now rewrite E.
  - cbn [orb] in H. destruct (p c); cbn; [rewrite E|]; auto.
Qed.

Lemma sexists_smap (f : ascii -> ascii) (s : string) :
  (forall c, Js.is_word c = true -> Js.is_word (f c) = true) ->
  sexists Js.is_word s = true -> sexists Js.is_word (Js.smap f s) = true.
Proof.
  intros Hf. induction s as [|c s IH]; cbn; [auto|]. intros H.
  destruct (Js.is_word c) eqn:E.
  - now rewrite (Hf c E).
  - cbn [orb] in H. rewrite (IH H). apply orb_true_r.
Qed.

Lemma sexists_trimStart (s : string) :
  sexists Js.is_word s = true -> sexists Js.is_word (Js.trimStart s) = true.
Proof.
  induction s as [|c s IH]; cbn; [auto|]. intros H.
  destruct (Js.is_word c) eqn:E.
  - destruct (word_facts c E) as (-> & _). cbn. now rewrite E.
  - cbn [orb] in H. destruct (Js.is_space c); cbn; [auto|].
    rewrite H. apply orb_true_r.
Qed.

Lemma sexists_not_empty (p : ascii -> bool) (s : string) :
  sexists p s = true -> Js.is_empty s = false.
Proof. destruct s; [discriminate|reflexivity]. Qed.

Lemma sexists_trimEnd (s : string) :
  sexists Js.is_word s = true -> sexists Js.is_word (Js.trimEnd s) = true.
Proof.
  induction s as [|c s IH]; cbn; [auto|]. intros H.
  destruct (Js.is_word c) eqn:E.
  - destruct (word_facts c E) as (-> & _). cbn. now rewrite E.
  - cbn [orb] in H. specialize (IH H).
    rewrite (sexists_not_empty _ _ IH), andb_false_r. cbn.
    rewrite IH. apply orb_true_r.
Qed.

Lemma sexists_trim (s : string) :
  sexists Js.is_word s = true -> sexists Js.is_word (Js.trim s) = true.
Proof. intros H. now apply sexists_trimEnd, sexists_trimStart. Qed.

Lemma sexists_app_r (p : ascii -> bool) (a b : string) :
  sexists p b = true -> sexists p (a +:+ b) = true.
Proof.
  intros H. induction a as [|c a IH]; cbn; [exact H|].
  rewrite IH. apply orb_true_r.
Qed.

Lemma sexists_collapse_with (repl : string) (b : bool) (s : string) :
  sexists Js.is_word s = true ->
  sexists Js.is_word (collapse_with repl b s) = true.
Proof.
  revert b. induction s as [|c s IH]; intros b; cbn; [auto|]. intros H.
  destruct (Js.is_word c) eqn:E.
  - destruct (word_facts c E) as (-> & _). cbn. now rewrite E.
  - cbn [orb] in H. destruct (Js.is_space c).
    + destruct b; [now apply IH|]. apply sexists_app_r. now apply IH.
    + cbn. rewrite (IH false H). apply orb_true_r.
Qed.

(** A text without word characters is emptied by the guard. *)
Lemma no_word_trims_away (s : string) :
  sexists Js.is_word s = false ->
  Js.trim (Js.sfilter (fun c => Js.is_word c || Js.is_space c) s) = "".
Proof.
  intros H.
  assert (Hsp : Js.sforall Js.is_space
                  (Js.sfilter (fun c => Js.is_word c || Js.is_space c) s)
                = true).
  { induction s as [|c s IH]; cbn; [reflexivity|].
    cbn in H. apply orb_false_iff in H as [Hc Hs]. rewrite Hc. cbn [orb].
    destruct (Js.is_space c) eqn:E; cbn; [rewrite E|]; auto. }
  unfold Js.trim.
  assert (Hts : forall t, Js.sforall Js.is_space t = true ->
                          Js.trimStart t = "").
  { induction t as [|c t IH]; cbn; [reflexivity|]. intros Ht.
    apply andb_prop in Ht as [-> Ht]. auto. }
  now rewrite Hts.
Qed.

Lemma collapse_ws_with (s : string) (b : bool) :
  Js.collapse_ws_from b s = collapse_with " " b s.
Proof.
  revert b. induction s as [|x s IH]; intros b; cbn; [reflexivity|].
  destruct (Js.is_space x); [destruct b|]; now rewrite IH.
Qed.

Lemma lower_char_facts (c : ascii) :
  Js.is_space (Js.lower_char c) = Js.is_space c
  /\ (is_reserved c = false -> is_reserved (Js.lower_char c) = false).
Proof. destruct c as [[] [] [] [] [] [] [] []]; split; auto. Qed.

Lemma replace_char_unreserved (a : ascii) (c : ascii) :
  is_reserved c = false ->
  is_reserved (if Ascii.eqb c a then "-"%char else c) = false.
Proof. intros H. now destruct (Ascii.eqb c a). Qed.

(** X19.  The title under which a reply is saved as a note is always
    fit for a file name, whatever candidate it is made from: it is not
    empty, it has at most 40 characters, and it holds none of the
    characters [< > : / | ? *], double quote and backslash; unless the
    candidate is a heading it holds no white space either.  A candidate
    without a letter, digit or underscore gives [ai_note]. *)
Theorem note_title_safe (heading_match : bool) (title : string) :
  let final := note_title heading_match title in
  (String.length final <= 40)%nat
  /\ Js.is_empty final = false
  /\ unreserved final = true
  /\ (heading_match = false -> no_space final = true)
  /\ (sexists Js.is_word title = false -> final = "ai_note").
Proof.
  cbv zeta. unfold note_title.
  set (t0 := Js.trim (Js.substring title 0 40)).
  assert (L0 : (String.length t0 <= 40)%nat).
  { subst t0.
    change (Js.substring title 0 40)
      with (Js.first_chars 40 (Js.skip_chars 0 title)).
    pose proof (trim_length (Js.first_chars 40 (Js.skip_chars 0 title))) as H.
    pose proof (first_chars_length 40 (Js.skip_chars 0 title)) as H'.
    lia. }
  set (guard := Js.is_empty t0
                || Js.is_empty
                     (Js.trim
                        (Js.sfilter (fun c => Js.is_word c || Js.is_space c)
                           t0))).
  set (t1 := if guard then "ai_note" else t0).
  assert (L1 : (String.length t1 <= 40)%nat)
    by (subst t1; destruct guard; [cbn; lia|exact L0]).
  assert (W1 : sexists Js.is_word t1 = true).
  { subst t1. destruct guard eqn:G; [reflexivity|].
    subst guard. apply orb_false_iff in G as [_ G].
    destruct (sexists Js.is_word t0) eqn:E; [reflexivity|].
    now rewrite (no_word_trims_away t0 E) in G. }
  rewrite Mentions.replace_all_spaces, replace_all_ws.
  set (s1 := Js.sfilter (fun c => negb (is_reserved c)) t1).
  set (s2 := replace_char "/" "-" s1).
  set (s3 := replace_char (ascii_of_nat 92) "-" s2).
  set (c := Js.trim (Js.collapse_ws s3)).
  assert (Ecol : Js.collapse_ws s3 = collapse_with " " false s3)
    by apply collapse_ws_with.
  assert (Lc : (String.length c <= 40)%nat).
  { subst c s3 s2 s1. rewrite Ecol.
    pose proof (trim_length
                  (collapse_with " " false
                     (replace_char (ascii_of_nat 92) "-"
                        (replace_char "/" "-"
                           (Js.sfilter (fun c => negb (is_reserved c)) t1)))))
      as H1.
    pose proof (collapse_with_length " " false
                  (replace_char (ascii_of_nat 92) "-"
                     (replace_char "/" "-"
                        (Js.sfilter (fun c => negb (is_reserved c)) t1))))
      as H2.
    unfold replace_char in *. rewrite !smap_length in H2.
    pose proof (sfilter_length (fun c => negb (is_reserved c)) t1) as H3.
    cbn [String.length] in H2. lia. }
  assert (Wc : sexists Js.is_word c = true).
  { subst c s3 s2 s1. rewrite Ecol.
    apply sexists_trim, sexists_collapse_with.
    unfold replace_char.
    apply sexists_smap;
      [intros x Hx; destruct (Ascii.eqb x _) eqn:E; [|exact Hx];
       apply Ascii.eqb_eq in E; subst x; discriminate Hx|].
    apply sexists_smap;
      [intros x Hx; destruct (Ascii.eqb x _) eqn:E; [|exact Hx];
       apply Ascii.eqb_eq in E; subst x; discriminate Hx|].
    apply sexists_sfilter; [|exact W1].
    intros x Hx. now destruct (word_facts x Hx) as (_ & -> & _). }
  assert (Uc : unreserved c = true).
  { subst c s3 s2 s1. rewrite Ecol. unfold unreserved.
    apply sforall_trim, sforall_collapse_with; [reflexivity|].
    apply sforall_or_space. unfold replace_char.
    apply sforall_smap.
    { intros x Hx. apply negb_true_iff in Hx. apply negb_true_iff.
      now apply replace_char_unreserved. }
    apply sforall_smap.
    { intros x Hx. apply negb_true_iff in Hx. apply negb_true_iff.
      now apply replace_char_unreserved. }
    apply sforall_sfilter_self. }
  assert (Hai : sexists Js.is_word title = false -> c = "ai_note").
  { intros Hno.
    assert (E0 : sexists Js.is_word t0 = false).
    { destruct (sexists Js.is_word t0) eqn:E; [|reflexivity].
      exfalso. subst t0.
      assert (Hsub : forall n s, sexists Js.is_word (Js.first_chars n s) = true
                                 -> sexists Js.is_word s = true).
      { induction n as [|n IH]; intros [|x s]; cbn; try discriminate.
        intros H. apply orb_true_iff in H as [->|H]; [reflexivity|].
        rewrite (IH s H). apply orb_true_r. }
      assert (Hts : forall s, sexists Js.is_word (Js.trimStart s) = true
                              -> sexists Js.is_word s = true).
      { induction s as [|x s IH]; cbn; [auto|].
        destruct (Js.is_space x); cbn; [|auto].
        intros H. rewrite (IH H). apply orb_true_r. }
      assert (Hte : forall s, sexists Js.is_word (Js.trimEnd s) = true
                              -> sexists Js.is_word s = true).
      { induction s as [|x s IH]; cbn; [auto|].
        destruct (_ && _); cbn; [discriminate|].
        intros H. apply orb_true_iff in H as [->|H]; [reflexivity|].
        rewrite (IH H). apply orb_true_r. }
      unfold Js.trim in E. apply Hte, Hts in E.
      change (Js.substring title 0 40)
        with (Js.first_chars 40 (Js.skip_chars 0 title)) in E.
      apply Hsub in E. cbn [Js.skip_chars] in E. congruence. }
    assert (G : guard = true).
    { subst guard. rewrite (no_word_trims_away t0 E0). apply orb_true_r. }
    subst c s3 s2 s1 t1. rewrite G. reflexivity. }
  destruct heading_match.
  - repeat apply conj; auto.
    + now apply (sexists_not_empty Js.is_word).
    + discriminate.
  - set (u := collapse_with "_" false c).
    assert (Wu : sexists Js.is_word (Js.toLowerCase u) = true).
    { apply sexists_smap; [intros x Hx; now apply word_facts|].
      now apply sexists_collapse_with. }
    repeat apply conj.
    + unfold Js.toLowerCase. rewrite smap_length.
      pose proof (collapse_with_length "_" false c (Nat.le_refl 1)) as H.
      fold u in H. lia.
    + now apply (sexists_not_empty Js.is_word).
    + unfold unreserved, Js.toLowerCase. apply sforall_smap.
      { intros x Hx. apply negb_true_iff in Hx. apply negb_true_iff.
        now apply lower_char_facts. }
      apply sforall_collapse_with; [reflexivity|].
      now apply sforall_or_space.
    + intros _. unfold no_space, Js.toLowerCase. apply sforall_smap.
      { intros x Hx. now rewrite (proj1 (lower_char_facts x)). }
      apply sforall_collapse_with; [reflexivity|].
      clear. induction c as [|x s IH]; cbn; [reflexivity|].
      rewrite IH. now destruct (Js.is_space x).
    + intros Hno. subst u. rewrite (Hai Hno). reflexivity.
Qed.

End Title.

(** ** Picking a file from the suggestion list *)

Module Picker.

Import Regex DiveView Scan Statements.

Local Arguments String.append : simpl nomatch.

Lemma lastIndexOf_spec (c : ascii) (s : string) :
  (sexists (Ascii.eqb c) s = false /\ Js.lastIndexOf c s = -1)
  \/ (exists prefix query,
        s = prefix +:+ String c query
        /\ sexists (Ascii.eqb c) query = false
        /\ Js.lastIndexOf c s = Z.of_nat (String.length prefix)).
Proof.
  induction s as [|a s IH]; cbn [Js.lastIndexOf sexists].
  - left. split; reflexivity.
  - destruct IH as [[Hno ->]|(prefix & query & -> & Hq & ->)].
    + cbn [Z.leb Z.compare]. rewrite Hno, orb_false_r.
      rewrite (Ascii.eqb_sym a c).
      destruct (Ascii.eqb c a) eqn:E.
      * apply Ascii.eqb_eq in E as <-. right. exists "", s. auto.
      * left. split; reflexivity.
    + right. exists (String a prefix), query. split; [reflexivity|].
      split; [exact Hq|].
      replace (0 <=? Z.of_nat (String.length prefix)) with true
        by (symmetry; apply Z.leb_le; lia).
      cbn [String.length]. lia.
Qed.

Lemma first_chars_app (a b : string) :
  Js.first_chars (String.length a) (a +:+ b) = a.
Proof. induction a as [|c a IH]; simpl; [now destruct b|now rewrite IH]. Qed.

Lemma substring_prefix (a b : string) :
  Js.substring (a +:+ b) 0 (Z.of_nat (String.length a)) = a.
Proof.
  unfold Js.substring.
  rewrite Z.min_l, Z.max_r by lia.
  rewrite Nat2Z.id. cbn [Z.to_nat Js.skip_chars].
  rewrite Nat.sub_0_r.
  replace (Js.skip_chars 0 (a +:+ b)) with (a +:+ b)
    by (now destruct (a +:+ b)).
  apply first_chars_app.
Qed.

Lemma no_at_backtick_prefix (p q : string) :
  no_at_backtick (p +:+ q) = true -> no_at_backtick p = true.
Proof.
  induction p as [|a p IH]; [reflexivity|].
  change (String a p +:+ q) with (String a (p +:+ q)).
  cbn [no_at_backtick]. intros H. apply andb_prop in H as [H1 H2].
  rewrite (IH H2), andb_true_r.
  destruct p as [|b p]; [now rewrite andb_false_r|exact H1].
Qed.

(** The scan for backtick-wrapped mentions passes a text that holds no
    [@] followed by a backtick, when an [@] follows it. *)
Lemma backtick_matches_after (p x : string) :
  no_at_backtick p = true ->
  backtick_matches O (p +:+ String at_sign x)
  = backtick_matches O (String at_sign x).
Proof.
  induction p as [|a p IH]; [reflexivity|].
  cbn [no_at_backtick]. intros H. apply andb_prop in H as [H1 H2].
  change (String a p +:+ String at_sign x)
    with (String a (p +:+ String at_sign x)).
  cbn [backtick_matches].
  assert (E : backtick_at (String a (p +:+ String at_sign x)) = None).
  { destruct p as [|b p].
    - cbn. now rewrite andb_false_r.
    - change (String b p +:+ String at_sign x)
        with (String b (p +:+ String at_sign x)).
      cbn [backtick_at]. apply negb_true_iff in H1. now rewrite H1. }
  rewrite E. now apply IH.
Qed.

(** X20.  When the text before the cursor holds an [@],
    [insertFileReference] replaces what follows the last [@] up to the
    cursor by the backtick-wrapped basename of the file, adds a space
    unless one follows, and leaves the cursor right behind what it has
    inserted.  When, besides, no [@] before the cursor is followed by a
    backtick and the basename holds no backtick and is not blank, the
    extractor reads the basename, trimmed, back from the new text. *)
Theorem insertFileReference_spec (field : InputField) (file : TFile) :
  let before := Js.substring (value field) 0 (selectionStart field) in
  let after := Js.substring_from (value field) (selectionStart field) in
  let space := if Js.startsWith after " " then "" else " " in
  let r := insertFileReference field file in
  sexists (Ascii.eqb at_sign) before = true ->
  exists prefix query,
    before = prefix +:+ String at_sign query
    /\ sexists (Ascii.eqb at_sign) query = false
    /\ value r = prefix +:+ wrapped (basename file) +:+ space +:+ after
    /\ Js.substring (value r) 0 (selectionStart r)
       = prefix +:+ wrapped (basename file) +:+ space
    /\ (no_at_backtick before = true ->
        Js.sforall not_backtick (basename file) = true ->
        Js.is_empty (Js.trim (basename file)) = false ->
        In (Js.trim (basename file)) (extractFileReferences (value r))).
Proof.
  intros before after space r Hat.
  destruct (lastIndexOf_spec at_sign before)
    as [[Hno _]|(prefix & query & Eb & Hq & Hidx)];
    [rewrite Hno in Hat; discriminate Hat|].
  exists prefix, query.
  assert (Er : r
               = {| value :=
                      prefix +:+ wrapped (basename file) +:+ space +:+ after;
                    selectionStart :=
                      setSelectionRange
                        (prefix +:+ wrapped (basename file) +:+ space
                         +:+ after)
                        (Z.of_nat (String.length prefix) + 1
                         + (Z.of_nat (String.length (basename file)) + 2)
                         + (if Js.startsWith after " " then 0 else 1)) |}).
  { subst r. unfold insertFileReference.
    fold before. fold after. fold space. rewrite Hidx, orb_true_r.
    replace (Js.substring before 0 (Z.of_nat (String.length prefix)))
      with prefix
      by (rewrite Eb at 1; now rewrite substring_prefix).
    reflexivity. }
  assert (Ev : value r
               = prefix +:+ wrapped (basename file) +:+ space +:+ after)
    by now rewrite Er.
  assert (Ec : selectionStart r
               = Z.of_nat (String.length
                             (prefix +:+ wrapped (basename file) +:+ space))).
  { rewrite Er. cbn [selectionStart]. unfold setSelectionRange.
    rewrite !Mentions.length_app_s, Mentions.length_wrapped.
    assert (Es : (if Js.startsWith after " " then 0 else 1)
                 = Z.of_nat (String.length space))
      by (subst space; now destruct (Js.startsWith after " ")).
    rewrite Es. lia. }
  repeat apply conj; [exact Eb|exact Hq|exact Ev| |].
  - rewrite Ec, Ev.
    replace (prefix +:+ wrapped (basename file) +:+ space +:+ after)
      with ((prefix +:+ wrapped (basename file) +:+ space) +:+ after)
      by (now rewrite !Mentions.app_assoc_s).
    apply substring_prefix.
  - intros Hnb Hb Hne. rewrite Ev.
    rewrite Mentions.extract_scan, Mentions.extract_dedup.
    apply (proj2 (Mentions.In_dedup _ _)). apply in_or_app. left.
    unfold backtick_tokens. apply filter_In. split; [|now rewrite Hne].
    apply in_map.
    assert (Hp : no_at_backtick prefix = true).
    { rewrite Eb in Hnb. now apply no_at_backtick_prefix in Hnb. }
    change (wrapped (basename file) +:+ space +:+ after)
      with (String at_sign
              (String backtick
                 ((basename file +:+ String backtick "")
                  +:+ space +:+ after))).
    rewrite (backtick_matches_after _ _ Hp).
    change (String at_sign
              (String backtick
                 ((basename file +:+ String backtick "")
                  +:+ space +:+ after)))
      with (wrapped (basename file) +:+ space +:+ after).
    assert (Hb0 : Js.is_empty (basename file) = false).
    { destruct (basename file); [discriminate Hne|reflexivity]. }
    destruct (Mentions.backtick_matches_head (basename file)
                (space +:+ after) Hb0 Hb) as [-> _].
    now left.
Qed.

Lemma insertFileReference_witness :
  value (insertFileReference
           {| value := "see @da then"; selectionStart := 7 |}
           {| basename := "Daily Log"; path := "Daily Log.md";
              content := None |})
  = "see @`Daily Log` then"
  /\ In "Daily Log"
       (extractFileReferences
          (value (insertFileReference
                    {| value := "see @da then"; selectionStart := 7 |}
                    {| basename := "Daily Log"; path := "Daily Log.md";
                       content := None |}))).
Proof.
  destruct (insertFileReference_spec
              {| value := "see @da then"; selectionStart := 7 |}
              {| basename := "Daily Log"; path := "Daily Log.md";
                 content := None |} eq_refl)
    as (prefix & query & _ & _ & _ & _ & H).
  split; [reflexivity|].
  apply H; reflexivity.
Defined.

End Picker.

(** ** Questions about a weekday *)

Module Weekdays.

Import Regex JsDate Dive Statements JsDateFacts.

Lemma weekday_dates (today : Z) (day : string) :
  In day weekday_names ->
  today - 7 <= get_date_for_day_of_week today day "last" < today
  /\ today <= get_date_for_day_of_week today day "this" <= today + 6
  /\ getDay (get_date_for_day_of_week today day "last")
     = getDay (get_date_for_day_of_week today day "this").
Proof.
  pose proof (getDay_range today) as Hd.
  unfold weekday_names; cbn [In].
  intros [<-|[<-|[<-|[<-|[<-|[<-|[<-|[]]]]]]]];
    unfold get_date_for_day_of_week;
    match goal with
    | |- context [indexOf ?n days 0] =>
        let i := eval vm_compute in (indexOf n days 0) in
        change (indexOf n days 0) with i
    end;
    cbn [Z.eqb Pos.eqb String.eqb Ascii.eqb Bool.eqb];
    rewrite !setDate_shift; unfold getDay in *;
    repeat match goal with
           | |- context [if ?b then _ else _] => destruct b eqn:?
           end;
    Z.div_mod_to_equations; lia.
Qed.

Ltac resolve_query :=
  unfold target_date;
  repeat match goal with
         | |- context [test ?r ?q] =>
             let b := eval vm_compute in (test r q) in
             replace (test r q) with b by (vm_compute; reflexivity);
             cbv iota
         end;
  match goal with
  | |- context [exec ?r ?q] =>
      let m := eval vm_compute in (exec r q) in
      replace (exec r q) with m by (vm_compute; reflexivity)
  end;
  reflexivity.

(** X21.  In a question of the form [what happened this <weekday>] the
    word [this] is taken by the opening of the day-of-week pattern and
    not read as the prefix, so that the default prefix applies: the
    question resolves to the last such weekday, a day before today, as
    [what happened last <weekday>] does.  Where the opening does not
    apply, as in [tell me about this <weekday>], [this] is the prefix
    and the date is today or one of the six days after it. *)
Theorem this_weekday_question (today : Z) (verb day : string) :
  In verb question_verbs -> In day weekday_names ->
  target_date today (what_this verb day)
  = Some (get_date_for_day_of_week today day "last")
  /\ target_date today (tell_this day)
     = Some (get_date_for_day_of_week today day "this")
  /\ today - 7 <= get_date_for_day_of_week today day "last" < today
  /\ today <= get_date_for_day_of_week today day "this" <= today + 6.
Proof.
  intros Hverb Hday.
  destruct (weekday_dates today day Hday) as (H1 & H2 & _).
  repeat apply conj; [| |apply H1|apply H1|apply H2|apply H2].
  - unfold question_verbs, weekday_names in *; cbn [In] in *.
    destruct Hverb as [<-|[<-|[<-|[<-|[]]]]];
      destruct Hday as [<-|[<-|[<-|[<-|[<-|[<-|[<-|[]]]]]]]];
      resolve_query.
  - unfold weekday_names in *; cbn [In] in *.
    destruct Hday as [<-|[<-|[<-|[<-|[<-|[<-|[<-|[]]]]]]]];
      resolve_query.
Qed.

(** 2024-01-10 (day 19732) is a Wednesday: [this monday] is 2024-01-15,
    the Monday before is 2024-01-08. *)
Lemma this_weekday_question_witness :
  target_date 19732 "what happened this monday" = Some 19730
  /\ target_date 19732 "tell me about this monday" = Some 19737.
Proof.
  pose proof (this_weekday_question 19732 "happened" "monday"
                ltac:(right; left; reflexivity) ltac:(left; reflexivity))
    as (H1 & H2 & _).
  split; [exact H1|exact H2].
Defined.

End Weekdays.

(** ** The keyword summary of any message *)

Module Summary.

Import DiveView Statements.

Lemma own_None (key : string) (o : object) :
  own key o = None <-> ~ In key (keys o).
Proof.
  unfold keys. induction o as [|[k v] o IH]; cbn; [tauto|].
  destruct (String.eqb k key) eqn:E.
  - apply String.eqb_eq in E. split; [discriminate|]. intros H. elim H. auto.
  - apply String.eqb_neq in E. rewrite IH. tauto.
Qed.

Lemma keys_update (key : string) (v : jsval) (o : object) :
  keys (update key v o) = keys o.
Proof.
  unfold keys. induction o as [|[k w] o IH]; cbn; [reflexivity|].
  destruct (String.eqb k key); cbn; [reflexivity|]. now rewrite IH.
Qed.

Lemma keys_set_property (key : string) (v : jsval) (o : object) :
  keys (set_property key v o)
  = match own key o with
    | Some _ => keys o
    | None => keys o ++ [key]
    end.
Proof.
  unfold set_property. destruct (own key o).
  - apply keys_update.
  - unfold keys. now rewrite map_app.
Qed.

(** The keys after one more word: the word is added at the end when it
    is new and is not [__proto__]. *)
Lemma keys_count_word (o : object) (word : string) :
  keys (count_word o word)
  = match own word o with
    | Some _ => keys o
    | None => if String.eqb word "__proto__" then keys o else keys o ++ [word]
    end.
Proof.
  unfold count_word. destruct (own word o) as [[n|s]|] eqn:E.
  - now rewrite keys_set_property, E.
  - now rewrite keys_set_property, E.
  - destruct (String.eqb word "__proto__"); [reflexivity|].
    destruct (String.eqb word "constructor");
      now rewrite keys_set_property, E.
Qed.

Lemma keys_word_counts (words : list string) (o : object) :
  List.NoDup (keys o) -> ~ In "__proto__" (keys o) ->
  List.NoDup (keys (fold_left count_word words o))
  /\ ~ In "__proto__" (keys (fold_left count_word words o))
  /\ (forall k, In k (keys (fold_left count_word words o)) ->
                In k (keys o) \/ In k words).
Proof.
  revert o. induction words as [|w words IH]; intros o Hnd Hp;
    cbn [fold_left]; [auto|].
  assert (H : List.NoDup (keys (count_word o w))
              /\ ~ In "__proto__" (keys (count_word o w))
              /\ (forall k, In k (keys (count_word o w)) ->
                            In k (keys o) \/ k = w)).
  { rewrite keys_count_word. destruct (own w o) eqn:E; [auto|].
    destruct (String.eqb w "__proto__") eqn:Ep; [auto|].
    apply own_None in E. apply String.eqb_neq in Ep.
    repeat split.
    - apply List.NoDup_app; auto.
      + constructor; [intros []|constructor].
      + intros x Hx [<-|[]]. contradiction.
    - intros Hin. apply in_app_or in Hin as [Hin|[Hin|[]]]; auto.
    - intros k Hk. apply in_app_or in Hk as [Hk|[<-|[]]]; auto. }
  destruct H as (H1 & H2 & H3).
  destruct (IH _ H1 H2) as (I1 & I2 & I3).
  repeat split; auto.
  intros k Hk. destruct (I3 k Hk) as [Hk'|Hk']; [|right; now right].
  destruct (H3 k Hk') as [H| ->]; [now left|right; now left].
Qed.

Lemma firstn_incl {A : Type} (n : nat) (l : list A) (x : A) :
  In x (firstn n l) -> In x l.
Proof.
  intros H. rewrite <- (firstn_skipn n l). apply in_or_app. now left.
Qed.

Lemma firstn_NoDup {A : Type} (n : nat) (l : list A) :
  List.NoDup l -> List.NoDup (firstn n l).
Proof.
  intros H. rewrite <- (firstn_skipn n l) in H.
  now apply List.NoDup_app_remove_r in H.
Qed.

(** The pieces of a text split at white space hold no white space, and
    only characters of the text. *)
Lemma split_ws_pieces (q : ascii -> bool) (s : string) (b : bool)
    (x : string) :
  Js.sforall q s = true -> In x (Js.split_ws_from b s) ->
  Js.sforall (fun c => q c && negb (Js.is_space c)) x = true.
Proof.
  revert b x. induction s as [|c s IH]; intros b x Hs; cbn [Js.split_ws_from].
  - intros [<-|[]]. reflexivity.
  - cbn [Js.sforall] in Hs. apply andb_prop in Hs as [Hc Hs].
    destruct (Js.is_space c) eqn:E.
    + destruct b; [now apply IH|].
      intros [<-|H]; [reflexivity|]. now apply (IH true).
    + pose proof (IH false) as IH'.
      destruct (Js.split_ws_from false s) as [|cur rest].
      * intros [<-|[]]. cbn. now rewrite Hc, E.
      * intros [<-|H].
        -- cbn [Js.sforall]. rewrite Hc, E. cbn [andb negb].
           apply IH'; [exact Hs|now left].
        -- apply IH'; [exact Hs|now right].
Qed.

(** X22.  Whatever the message, its keyword summary holds at most five
    keywords, all different; each of them is a word of the message as
    lower-cased: made of letters, digits and underscores only, longer
    than three characters, and none of the stop words; and [__proto__]
    is never a keyword. *)
Theorem top_words_any_message (message : string) :
  let top := top_words message in
  (length top <= 5)%nat
  /\ List.NoDup top
  /\ (forall w, In w top ->
        In w (context_words message)
        /\ Js.sforall Js.is_word w = true
        /\ (3 < String.length w)%nat
        /\ ~ In w stopwords)
  /\ ~ In "__proto__" top.
Proof.
  cbv zeta. unfold top_words.
  set (o := word_counts (context_words message)).
  destruct (keys_word_counts (context_words message) [])
    as (Hnd & Hp & Hin); [constructor|intros []|].
  fold (word_counts (context_words message)) in Hnd, Hp, Hin. fold o in Hnd, Hp, Hin.
  assert (Hperm : Permutation (map fst (sort_entries (entries o))) (keys o)).
  { unfold keys. apply Permutation_map.
    etransitivity; [apply Keywords.sort_entries_perm|].
    apply Keywords.entries_perm. }
  assert (Hsub : forall w,
            In w (map fst (firstn 5 (sort_entries (entries o)))) ->
            In w (keys o)).
  { intros w Hw. rewrite <- firstn_map in Hw. apply firstn_incl in Hw.
    now apply (Permutation_in _ Hperm). }
  repeat apply conj.
  - rewrite length_map, length_firstn. lia.
  - rewrite <- firstn_map. apply firstn_NoDup.
    now apply (Permutation_NoDup (Permutation_sym Hperm)).
  - intros w Hw. apply Hsub, Hin in Hw as [[]|Hw].
    split; [exact Hw|].
    unfold context_words in Hw.
    apply filter_In in Hw as [Hw Hstop]. apply filter_In in Hw as [Hw Hlen].
    repeat split.
    + unfold Js.split_ws in Hw.
      apply (split_ws_pieces (fun c => Js.is_word c || Js.is_space c)) in Hw;
        [|apply Title.sforall_sfilter_self].
      revert Hw. apply Mentions.sforall_impl. intros c Hc.
      apply andb_prop in Hc as [H1 H2]. apply negb_true_iff in H2.
      now rewrite H2, orb_false_r in H1.
    + unfold longer_than_3 in Hlen. now apply Nat.ltb_lt in Hlen.
    + unfold not_stopword in Hstop. apply negb_true_iff in Hstop.
      intros Hs. apply Mentions.existsb_eqb_In in Hs. congruence.
  - intros Hw. apply Hsub in Hw. contradiction.
Qed.

End Summary.
